(** * Study-Planner: the response-to-roadmap pipeline

    A shallow embedding of the Python sources
      - [frontend/front.py]   ([extract_mermaid_diagrams], [validate_and_clean_mermaid],
        [remove_mermaid_blocks], [display_message]),
      - [backend/gemini_client.py] ([perform_web_search], [_detect_search_query],
        [set_conversation_id], [chat], [reset_conversation],
        [parse_mermaid_diagram], [save_roadmap], [get_roadmaps],
        [get_roadmap_progress], [update_item_progress]),
      - [backend/database.py] ([get_roadmap_progress] and the methods of
        [SupabaseDB] that send a request to the store),
    and the properties of the design document proved (or refuted) on it,
    followed by further properties of the code.

    A Python [str] is a sequence of Unicode code points: it is modelled as a
    [list N].  The functions of the [re] module the sources call are modelled
    by a backtracking matcher that enumerates the ways a pattern matches in
    the order in which Python's engine tries them. *)

From Stdlib Require Import List NArith ZArith Bool Lia Ascii.
From Stdlib Require String Floats Uint63.
Import ListNotations String.StringSyntax.
Delimit Scope string_scope with string.

Set Implicit Arguments.

Local Open Scope N_scope.

(** ** Code points and string literals *)

Definition str : Type := list N.

(** [lit] reads a literal the way Python reads it in the sources: the
    two-character escapes [\n], [\t] and [\\] stand for one code point. *)
Fixpoint lit (s : String.string) : str :=
  match s with
  | String.EmptyString => []
  | String.String "\"%char (String.String "n"%char s') => 10 :: lit s'
  | String.String "\"%char (String.String "t"%char s') => 9 :: lit s'
  | String.String "\"%char (String.String "\"%char s') => 92 :: lit s'
  | String.String c s' => N_of_ascii c :: lit s'
  end.

Notation "'py' s" := (lit s%string) (at level 9, s at level 0, only parsing).

Definition str_eqb (a b : str) : bool :=
  if list_eq_dec N.eq_dec a b then true else false.

(** ** The Unicode tables

    The classification of a code point below 128 is written out.  Above,
    Python reads it in the Unicode character database, which is no part of
    the repository: the three tables are the parameters of the development.
    [uni_lower] receives the code points before the one it maps (nearest
    first) and those after it, as the lowercase of a code point may depend on
    its neighbours and may consist of several code points. *)
Class Unicode : Type := {
  uni_isalnum : N -> bool;
  uni_lower : list N -> N -> list N -> list N;
  uni_ci_eq : N -> N -> bool
}.

(** [str.isspace] and [\s]: the white space of Python. *)
Definition isspace (c : N) : bool :=
  ((9 <=? c) && (c <=? 13)) || ((28 <=? c) && (c <=? 32))
  || (c =? 133) || (c =? 160) || (c =? 5760)
  || ((8192 <=? c) && (c <=? 8202))
  || (c =? 8232) || (c =? 8233) || (c =? 8239) || (c =? 8287) || (c =? 12288).

Definition is_upper (c : N) : bool := (65 <=? c) && (c <=? 90).
Definition is_lower (c : N) : bool := (97 <=? c) && (c <=? 122).
Definition is_digit (c : N) : bool := (48 <=? c) && (c <=? 57).
Definition is_ascii (c : N) : bool := c <? 128.

Definition ascii_lower (c : N) : N := if is_upper c then c + 32 else c.

Section Tables.
Context {U : Unicode}.

(** [\w]: alphanumeric or underscore. *)
Definition isword (c : N) : bool :=
  if is_ascii c then is_upper c || is_lower c || is_digit c || (c =? 95)
  else uni_isalnum c.

(** A pattern letter [p] (lowercase) under [re.IGNORECASE]. *)
Definition ci_eq (p c : N) : bool :=
  if is_ascii c then ascii_lower c =? p else uni_ci_eq p c.

(** [str.lower]. *)
Fixpoint lower_from (before : list N) (s : str) : str :=
  match s with
  | [] => []
  | c :: s' =>
      (if is_ascii c then [ascii_lower c] else uni_lower before c s')
        ++ lower_from (c :: before) s'
  end.

Definition py_lower (s : str) : str := lower_from [] s.

End Tables.

(** ** String methods *)

Fixpoint lstrip_by (p : N -> bool) (s : str) : str :=
  match s with
  | [] => []
  | c :: s' => if p c then lstrip_by p s' else s
  end.

Definition rstrip_by (p : N -> bool) (s : str) : str :=
  rev (lstrip_by p (rev s)).

(** [s.strip()], [s.rstrip()] and [s.lstrip(chars)]. *)
Definition py_strip (s : str) : str := rstrip_by isspace (lstrip_by isspace s).
Definition py_rstrip (s : str) : str := rstrip_by isspace s.
Definition py_lstrip (chars : str) (s : str) : str :=
  lstrip_by (fun c => existsb (N.eqb c) chars) s.

(** [s.startswith(p)]. *)
Fixpoint py_startswith (p s : str) : bool :=
  match p, s with
  | [], _ => true
  | _ :: _, [] => false
  | a :: p', b :: s' => (a =? b) && py_startswith p' s'
  end.

(** [p in s]. *)
Fixpoint py_in (p s : str) : bool :=
  py_startswith p s ||
  match s with
  | [] => false
  | _ :: s' => py_in p s'
  end.

(** [s.find(p)]: the lowest index at which [p] occurs, or -1. *)
Fixpoint py_find (p s : str) : Z :=
  if py_startswith p s then 0%Z
  else match s with
       | [] => (-1)%Z
       | _ :: s' => let i := py_find p s' in
                    if (i <? 0)%Z then (-1)%Z else (i + 1)%Z
       end.

(** [s[i:]], with Python's reading of a negative index. *)
Definition slice_from (i : Z) (s : str) : str :=
  if (i <? 0)%Z
  then skipn (Z.to_nat (Z.max 0 (Z.of_nat (length s) + i))) s
  else skipn (Z.to_nat i) s.

(** [s.replace(a, b)] for one-code-point [a] and [b]. *)
Definition py_replace (a b : N) (s : str) : str :=
  map (fun c => if c =? a then b else c) s.

(** [s.split(sep)] for a one-code-point separator. *)
Fixpoint py_split (sep : N) (s : str) : list str :=
  match s with
  | [] => [[]]
  | c :: s' =>
      if c =? sep then [] :: py_split sep s'
      else match py_split sep s' with
           | l :: ls => (c :: l) :: ls
           | [] => [[c]]
           end
  end.

(** [sep.join(parts)]. *)
Fixpoint py_join (sep : str) (parts : list str) : str :=
  match parts with
  | [] => []
  | [l] => l
  | l :: ls => l ++ sep ++ py_join sep ls
  end.

(** [parts.insert(i, x)] for [0 <= i]. *)
Definition list_insert (A : Type) (i : nat) (x : A) (l : list A) : list A :=
  firstn i l ++ x :: skipn i l.

Definition is_empty (A : Type) (l : list A) : bool :=
  match l with [] => true | _ => false end.

(** ** The [re] module

    The patterns of the sources repeat single characters only ([\s*], [.*?],
    [\w+], [[^\]]+], [\n{2,}]), so [Rep] repeats a character class.  The flags
    [re.IGNORECASE] and [re.DOTALL] are read into the pattern: a letter becomes
    the class [ci_eq] of its case variants, [.] the class of all code points. *)

Definition charset : Type := N -> bool.

Inductive regex : Type :=
| Eps
| Chr (p : charset)
| Seq (r1 r2 : regex)
| Alt (r1 r2 : regex)
| Rep (greedy : bool) (min : nat) (p : charset)
| Opt (r : regex)
| Grp (i : nat) (r : regex)
| Bos
| Eos
| Ahead (r : regex).

Definition captures : Type := list (nat * str).

(** [m.group(i)], the empty string for a group that took no part. *)
Fixpoint group (i : nat) (g : captures) : str :=
  match g with
  | [] => []
  | (j, v) :: g' => if Nat.eqb i j then v else group i g'
  end.

(** The suffixes left by [p{min,}?] and by [p{min,}], in the order tried. *)
Fixpoint rep_lazy (p : charset) (min : nat) (s : str) : list str :=
  (match min with O => [s] | S _ => [] end) ++
  match s with
  | c :: s' => if p c then rep_lazy p (Nat.pred min) s' else []
  | [] => []
  end.

Fixpoint rep_greedy (p : charset) (min : nat) (s : str) : list str :=
  match s with
  | c :: s' => if p c then rep_greedy p (Nat.pred min) s' else []
  | [] => []
  end ++
  (match min with O => [s] | S _ => [] end).

(** A state of the matcher is the input left and the groups closed so far.
    [rmatch n r st] lists the states in which [r] can end when started in
    [st], in the order in which backtracking reaches them; [n] is the length
    of the whole subject, which [^] compares with what is left.  Python's
    match is the head of the list. *)
Definition mstate : Type := (str * captures)%type.

Fixpoint rmatch (n : nat) (r : regex) (st : mstate) : list mstate :=
  match r with
  | Eps => [st]
  | Chr p =>
      match fst st with
      | c :: s' => if p c then [(s', snd st)] else []
      | [] => []
      end
  | Seq r1 r2 => flat_map (rmatch n r2) (rmatch n r1 st)
  | Alt r1 r2 => rmatch n r1 st ++ rmatch n r2 st
  | Rep g min p =>
      map (fun s' => (s', snd st))
          ((if g then rep_greedy else rep_lazy) p min (fst st))
  | Opt r1 => rmatch n r1 st ++ [st]
  | Grp i r1 =>
      map (fun st' =>
             (fst st',
              (i, firstn (length (fst st) - length (fst st')) (fst st)) :: snd st'))
          (rmatch n r1 st)
  | Bos => if Nat.eqb (length (fst st)) n then [st] else []
  | Eos =>
      match fst st with
      | [] => [st]
      | [c] => if c =? 10 then [st] else []
      | _ => []
      end
  | Ahead r1 =>
      match rmatch n r1 st with
      | [] => []
      | _ :: _ => [st]
      end
  end.

Fixpoint cat (rs : list regex) : regex :=
  match rs with
  | [] => Eps
  | [r] => r
  | r :: rs' => Seq r (cat rs')
  end.

(** A literal, and a literal of letters under [re.IGNORECASE]. *)
Definition Str (s : str) : regex := cat (map (fun c => Chr (N.eqb c)) s).
Definition StrI {U : Unicode} (s : str) : regex := cat (map (fun c => Chr (ci_eq c)) s).

Definition any : charset := fun _ => true.

(** What a scan of the subject yields: a code point outside every match, or
    a match with its text and groups. *)
Inductive piece : Type :=
| Gap (c : N)
| Hit (m : str) (g : captures).

Definition shorter (s : str) (st : mstate) : bool :=
  Nat.ltb (length (fst st)) (length s).

(** The scan of [re.findall] and [re.sub]: matches are taken leftmost, do
    not overlap, and an empty match may be followed by a non-empty one that
    starts at the same place.  [skip] counts the code points of the current
    match still to pass. *)
Fixpoint scan (n : nat) (r : regex) (skip : nat) (s : str) : list piece :=
  let next (k : nat) : list piece :=
    match s with
    | [] => []
    | _ :: s' => scan n r k s'
    end in
  let miss : list piece :=
    match s with
    | [] => []
    | c :: s' => Gap c :: scan n r 0 s'
    end in
  match skip with
  | S k => next k
  | O =>
      match rmatch n r (s, []) with
      | [] => miss
      | (rest, g) :: others =>
          match (length s - length rest)%nat with
          | S k => Hit (firstn (S k) s) g :: next k
          | O =>
              Hit [] g ::
              match find (shorter s) others with
              | Some (rest2, g2) =>
                  let len := (length s - length rest2)%nat in
                  Hit (firstn len s) g2 :: next (Nat.pred len)
              | None => miss
              end
          end
      end
  end.

Definition hits (ps : list piece) : list (str * captures) :=
  flat_map (fun p => match p with Hit m g => [(m, g)] | Gap _ => [] end) ps.

Definition gaps (ps : list piece) : str :=
  flat_map (fun p => match p with Hit _ _ => [] | Gap c => [c] end) ps.

(** [re.findall] for a pattern without group, with one group and with two. *)
Definition findall0 (r : regex) (s : str) : list str :=
  map fst (hits (scan (length s) r 0 s)).
Definition findall1 (r : regex) (s : str) : list str :=
  map (fun h => group 1 (snd h)) (hits (scan (length s) r 0 s)).
Definition findall2 (r : regex) (s : str) : list (str * str) :=
  map (fun h => (group 1 (snd h), group 2 (snd h))) (hits (scan (length s) r 0 s)).

(** [re.sub(r, '', s)]. *)
Definition sub_empty (r : regex) (s : str) : str :=
  gaps (scan (length s) r 0 s).

(** * frontend/front.py *)

Module Front.
Section Front.
Context {U : Unicode}.

(** ** [extract_mermaid_diagrams] *)

(** [r'```\s*mermaid\s*(.*?)\s*```'] with [re.DOTALL | re.IGNORECASE]. *)
Definition fenced_mermaid : regex :=
  cat [Str (py "```"); Rep true 0 isspace; StrI (py "mermaid"); Rep true 0 isspace;
       Grp 1 (Rep false 0 any); Rep true 0 isspace; Str (py "```")].

(** [r'```(?:\w+)?\s*(.*?)\s*```'] with [re.DOTALL]. *)
Definition fenced_backticks : regex :=
  cat [Str (py "```"); Opt (Rep true 1 isword); Rep true 0 isspace;
       Grp 1 (Rep false 0 any); Rep true 0 isspace; Str (py "```")].

(** [r'~~~\s*(.*?)\s*~~~'] with [re.DOTALL]. *)
Definition fenced_tildes : regex :=
  cat [Str (py "~~~"); Rep true 0 isspace;
       Grp 1 (Rep false 0 any); Rep true 0 isspace; Str (py "~~~")].

(** [r'(?:(?:^|\n)(?:flowchart|graph)[\s\S]*?)(?=\n{2,}|$)'] with
    [re.IGNORECASE]. *)
Definition inline_block : regex :=
  cat [Alt Bos (Str (py "\n"));
       Alt (StrI (py "flowchart")) (StrI (py "graph"));
       Rep false 0 (fun c => isspace c || negb (isspace c));
       Ahead (Alt (Rep true 2 (N.eqb 10)) Eos)].

(** The test of the second loop: the block looks like a diagram. *)
Definition looks_like_mermaid (c : str) : bool :=
  let low := py_lower c in
  py_in (py "flowchart") low || py_in (py "graph") low || py_in (py "classdef") low
  || py_in (py "-->") c || (py_in (py "[") c && py_in (py "]") c).

(** The bodies of the three [for] loops, each appending to [diagrams]. *)
Definition add_mermaid (diagrams : list str) (m : str) : list str :=
  if negb (is_empty m) && negb (is_empty (py_strip m))
  then diagrams ++ [py_strip m] else diagrams.

Definition add_fenced (diagrams : list str) (code : str) : list str :=
  let c := py_strip code in
  if is_empty c then diagrams
  else if looks_like_mermaid c then diagrams ++ [c] else diagrams.

Definition add_inline (diagrams : list str) (block : str) : list str :=
  let b := py_strip block in
  if negb (is_empty b) then diagrams ++ [b] else diagrams.

Definition extract_mermaid_diagrams (response_text : str) : list str :=
  let diagrams : list str := [] in
  if is_empty response_text then diagrams
  else
    let matches := findall1 fenced_mermaid response_text in
    let diagrams := fold_left add_mermaid matches diagrams in
    let diagrams :=
      if is_empty diagrams then
        let fenced := findall1 fenced_backticks response_text in
        let fenced := fenced ++ findall1 fenced_tildes response_text in
        fold_left add_fenced fenced diagrams
      else diagrams in
    let diagrams :=
      if is_empty diagrams then
        let inline := findall0 inline_block response_text in
        fold_left add_inline inline diagrams
      else diagrams in
    diagrams.

(** ** [validate_and_clean_mermaid] *)

(** [r'^```\w*|```$']. *)
Definition fence_marks : regex :=
  Alt (cat [Bos; Str (py "```"); Rep true 0 isword])
      (cat [Str (py "```"); Eos]).

Definition color_defs : str :=
  py "classDef foundation fill:#4d94ff,color:#000,stroke:#333,stroke-width:2px\n"
  ++ py "classDef core fill:#33cc33,color:#000,stroke:#333,stroke-width:2px\n"
  ++ py "classDef practice fill:#ff9900,color:#000,stroke:#333,stroke-width:2px\n"
  ++ py "classDef project fill:#9933ff,color:#fff,stroke:#333,stroke-width:2px\n"
  ++ py "classDef review fill:#ff3333,color:#fff,stroke:#333,stroke-width:2px".

(** Lines 206 to 216: fences, quotes and spaces, then the lines. *)
Definition keep_line (ln : str) : bool :=
  negb (is_empty ln) && negb (py_startswith (py "%% mermaid") ln).

Definition clean_body (diagram_code : str) : str :=
  let cleaned := py_strip (sub_empty fence_marks diagram_code) in
  let cleaned := py_replace 8221 34 (py_replace 8220 34 cleaned) in
  let cleaned := py_replace 8217 39 (py_replace 8216 39 cleaned) in
  let cleaned := py_replace 160 32 cleaned in
  let lines := map (fun ln => py_rstrip (py_lstrip (py "> ") ln)) (py_split 10 cleaned) in
  let lines := filter keep_line lines in
  py_strip (py_join (py "\n") lines).

Definition has_header (low : str) : bool :=
  py_startswith (py "flowchart") low || py_startswith (py "graph") low
  || py_startswith (py "sequence") low || py_startswith (py "gantt") low.

(** Lines 221 to 229: the text must start with a block type. *)
Definition ensure_header (low cleaned : str) : str :=
  if negb (has_header low) then
    if py_in (py "flowchart") low then
      let idx := py_find (py "flowchart") low in
      slice_from idx cleaned
    else if py_in (py "graph") low then
      let idx := py_find (py "graph") low in
      slice_from idx cleaned
    else py "flowchart TD\n" ++ cleaned
  else cleaned.

(** Lines 232 to 243: the default class definitions. *)
Definition add_class_defs (low cleaned : str) : str :=
  if negb (py_in (py "classdef") low) && py_in (py ":::") cleaned then
    let parts := py_split 10 cleaned in
    if Nat.ltb 0 (length parts)
    then py_join (py "\n") (list_insert 1 color_defs parts)
    else cleaned
  else cleaned.

(** [None] is Python's [None]. *)
Definition validate_and_clean_mermaid (diagram_code : str) : option str :=
  if is_empty diagram_code then None
  else
    let cleaned := clean_body diagram_code in
    let low := py_lower cleaned in
    let cleaned := ensure_header low cleaned in
    let cleaned := add_class_defs low cleaned in
    Some cleaned.

(** ** [remove_mermaid_blocks] *)

(** [pattern1], line 250, with [re.DOTALL]: the fence and the word mermaid,
    white space, as few code points as possible, white space, the fence. *)
Definition pattern1 : regex :=
  cat [Str (py "```mermaid"); Rep true 0 isspace; Rep false 0 any;
       Rep true 0 isspace; Str (py "```")].

(** [pattern2], line 254, with [re.DOTALL]: the same between two fences. *)
Definition pattern2 : regex :=
  cat [Str (py "```"); Rep true 0 isspace; Rep false 0 any;
       Rep true 0 isspace; Str (py "```")].

Definition remove_mermaid_blocks (response_text : str) : str :=
  let cleaned := sub_empty pattern1 response_text in
  let cleaned := sub_empty pattern2 cleaned in
  py_strip cleaned.

End Front.
End Front.

(** * backend/database.py *)

Module Database.

(** A row of the table [roadmap_items] as [get_roadmap_items] selects it.
    [completed] is [None] when the row has no such key or holds a null. *)
Record roadmap_item : Type := {
  id : str;
  item_id : str;
  title : str;
  description : str;
  completed : option bool;
  completed_at : option str
}.

(** A Python number: [0] is an [int], a quotient is a [float]. *)
Inductive number : Type :=
| PyInt (z : Z)
| PyFloat (f : PrimFloat.float).

Record progress : Type := {
  total_items : nat;
  completed_items : nat;
  progress_percentage : number;
  items : list roadmap_item
}.

(** The answer of the store to the query of [get_roadmap_items]: the rows,
    or [None] when the client raised. *)
Definition get_roadmap_items (response : option (list roadmap_item)) : list roadmap_item :=
  match response with
  | Some data => if is_empty data then [] else data
  | None => []
  end.

(** [item.get("completed", False)] as a condition. *)
Definition is_completed (item : roadmap_item) : bool :=
  match completed item with
  | Some b => b
  | None => false
  end.

Definition float_of_nat (n : nat) : PrimFloat.float :=
  PrimFloat.of_uint63 (Uint63.of_Z (Z.of_nat n)).

(** [a / b] on two [int]s: true division, [None] for the
    [ZeroDivisionError] of a zero divisor.  (Exact for the lengths of lists:
    below 2^53.) *)
Definition true_div (a b : nat) : option PrimFloat.float :=
  match b with
  | O => None
  | S _ => Some (PrimFloat.div (float_of_nat a) (float_of_nat b))
  end.

Definition times_100 (q : PrimFloat.float) : PrimFloat.float :=
  PrimFloat.mul q (float_of_nat 100).

Definition no_progress : progress :=
  {| total_items := 0; completed_items := 0; progress_percentage := PyInt 0; items := [] |}.

(** The [except] branch answers [no_progress]. *)
Definition get_roadmap_progress (response : option (list roadmap_item)) : progress :=
  let items := get_roadmap_items response in
  let total_items := length items in
  let completed_items := length (filter is_completed items) in
  match
    (if Nat.ltb 0 total_items
     then option_map (fun q => PyFloat (times_100 q)) (true_div completed_items total_items)
     else Some (PyInt 0))
  with
  | Some percentage =>
      {| total_items := total_items;
         completed_items := completed_items;
         progress_percentage := percentage;
         items := items |}
  | None => no_progress
  end.

End Database.

(** ** The methods of [SupabaseDB] and their requests

    A method builds a request ([table(...).insert(...)], [.select(...)],
    [.delete()], [.update(...)], with its filters) and executes it.  What
    the store answers is no part of the repository: the answer to a request
    is a parameter, which may depend on the requests made before. *)

Module SupabaseDB.

(** A value of a row. *)
Inductive value : Type :=
| Null
| Text (s : str)
| Flag (b : bool).

(** A row of an answer, or a record to write: a [dict] with string keys. *)
Definition dict : Type := list (str * value).

(** [d.get(key, default)]; [d.get(key)] has the default [Null]. *)
Fixpoint get (key : str) (default : value) (d : dict) : value :=
  match d with
  | [] => default
  | (k, v) :: d' => if str_eqb k key then v else get key default d'
  end.

Inductive request : Type :=
| InsertRow (table : str) (record : dict)
| InsertRows (table : str) (records : list dict)
| Select (table columns : str) (column value : str)
         (order_by : str) (desc : option bool) (limit : option nat)
| Delete (table : str) (column value : str)
| Update (table : str) (data : dict) (column value : str).

(** An exception: its [str(e)], and its attribute [message] if it has one. *)
Record exn : Type := { text : str; message : option str }.

Inductive result (A : Type) : Type :=
| Value (a : A)
| Error (e : exn).
Arguments Value {A} a.
Arguments Error {A} e.

(** The store and the clock.  [execute] answers [response.data] (the empty
    list when there is none) or raises; [utcnow] is
    [datetime.utcnow().isoformat()] at the n-th reading of the clock. *)
Record supabase : Type := {
  execute : list request -> request -> result (list dict);
  utcnow : nat -> str
}.

(** What a method can change: the requests made, the readings of the clock,
    the attribute [_table_error_shown] and the lines printed. *)
Record state : Type := {
  requests : list request;
  readings : nat;
  _table_error_shown : bool;
  printed : list str
}.

(** A computation that reads and writes a [W] and returns or raises. *)
Definition St (W A : Type) : Type := W -> result A * W.

Definition ret {W A} (a : A) : St W A := fun w => (Value a, w).
Definition bind {W A B} (m : St W A) (f : A -> St W B) : St W B :=
  fun w => match m w with
           | (Value a, w') => f a w'
           | (Error e, w') => (Error e, w')
           end.
(** [try: m except Exception as e: h e]. *)
Definition try_except {W A} (m : St W A) (h : exn -> St W A) : St W A :=
  fun w => match m w with
           | (Value a, w') => (Value a, w')
           | (Error e, w') => h e w'
           end.
Definition raise {W A} (e : exn) : St W A := fun w => (Error e, w).
Definition when {W} (b : bool) (m : St W unit) : St W unit :=
  if b then m else ret tt.

(** The methods of [SupabaseDB]. *)
Definition DB : Type -> Type := St state.

Declare Scope db_scope.
Delimit Scope db_scope with db.
Notation "x <- m ;; k" := (bind m (fun x => k))
  (at level 61, m at next level, right associativity) : db_scope.
Notation "m ;; k" := (bind m (fun _ => k))
  (at level 61, right associativity) : db_scope.
Local Open Scope db_scope.

(** [print(line)]. *)
Definition print (line : str) : DB unit :=
  fun st => (Value tt,
             {| requests := requests st; readings := readings st;
                _table_error_shown := _table_error_shown st;
                printed := printed st ++ [line] |}).

Definition shown : DB bool := fun st => (Value (_table_error_shown st), st).
Definition set_shown : DB unit :=
  fun st => (Value tt,
             {| requests := requests st; readings := readings st;
                _table_error_shown := true; printed := printed st |}).

Definition conversations_table : str := py "conversations".
Definition messages_table : str := py "messages".
Definition roadmaps_table : str := py "roadmaps".
Definition roadmap_items_table : str := py "roadmap_items".

(** The truth value of [response.data]. *)
Definition some_rows (data : list dict) : bool :=
  negb (is_empty data) && Nat.ltb 0 (length data).

Definition head (data : list dict) : dict :=
  match data with r :: _ => r | [] => [] end.

(** The test of the handlers: the table is missing. *)
Definition table_not_found (e : exn) : bool :=
  py_in (py "PGRST205") (text e) || py_in (py "Could not find the table") (text e).

(** The two lines the handlers print for an error. *)
Definition report (what : str) (e : exn) : DB unit :=
  print (what ++ text e) ;;
  match message e with
  | Some m => print (py "Error message: " ++ m)
  | None => ret tt
  end.

Section Methods.
Context (S : supabase).

Definition now : DB str :=
  fun st => (Value (utcnow S (readings st)),
             {| requests := requests st; readings := Datatypes.S (readings st);
                _table_error_shown := _table_error_shown st;
                printed := printed st |}).

Definition run (q : request) : DB (list dict) :=
  fun st => (execute S (requests st) q,
             {| requests := requests st ++ [q]; readings := readings st;
                _table_error_shown := _table_error_shown st;
                printed := printed st |}).

(** Lines 40 to 63. *)
Definition create_conversation (session_id : str) : DB value :=
  try_except
    (created_at <- now ;;
     updated_at <- now ;;
     data <- run (InsertRow conversations_table
                    [(py "session_id", Text session_id);
                     (py "created_at", Text created_at);
                     (py "updated_at", Text updated_at)]) ;;
     if some_rows data then ret (get (py "id") Null (head data)) else ret Null)
    (fun e =>
       if table_not_found e then ret Null
       else report (py "Error creating conversation: ") e ;; ret Null).

Definition rule : str := repeat 61 70.

(** Lines 88 to 100. *)
Definition setup_notice : list str :=
  [py "\n" ++ rule;
   [9888; 65039] ++ py "  DATABASE SETUP REQUIRED";
   rule;
   py "The Supabase tables have not been created yet.";
   py "\nTo fix this:";
   py "1. Go to your Supabase project dashboard";
   py "2. Navigate to SQL Editor";
   py "3. Run the SQL script from: supabase_schema.sql";
   py "4. The script will create the 'conversations' and 'messages' tables";
   py "\nThe app will continue to work without database persistence.";
   py "(This message will only show once)";
   rule ++ py "\n"].

Fixpoint print_all (lines : list str) : DB unit :=
  match lines with
  | [] => ret tt
  | l :: ls => print l ;; print_all ls
  end.

(** Lines 65 to 108. *)
Definition get_or_create_conversation (session_id : str) : DB value :=
  try_except
    (data <- run (Select conversations_table (py "id") (py "session_id") session_id
                    (py "created_at") (Some true) (Some 1%nat)) ;;
     if some_rows data then ret (get (py "id") Null (head data))
     else create_conversation session_id)
    (fun e =>
       if table_not_found e then
         seen <- shown ;;
         when (negb seen) (print_all setup_notice ;; set_shown) ;;
         ret Null
       else report (py "Error getting/creating conversation: ") e ;; ret Null).

(** Lines 110 to 122. *)
Definition save_message (conversation_id role content : str) : DB bool :=
  try_except
    (created_at <- now ;;
     run (InsertRow messages_table
            [(py "conversation_id", Text conversation_id);
             (py "role", Text role);
             (py "content", Text content);
             (py "created_at", Text created_at)]) ;;
     ret true)
    (fun e => print (py "Error saving message: " ++ text e) ;; ret false).

(** Lines 124 to 147. *)
Definition get_conversation_history (conversation_id : str) : DB (list dict) :=
  try_except
    (data <- run (Select messages_table (py "role, content")
                    (py "conversation_id") conversation_id
                    (py "created_at") (Some false) None) ;;
     if negb (is_empty data) then
       ret (map (fun msg =>
                   [(py "role", get (py "role") (Text []) msg);
                    (py "content", get (py "content") (Text []) msg)])
                data)
     else ret [])
    (fun e => report (py "Error retrieving conversation history: ") e ;; ret []).

(** Lines 149 to 159. *)
Definition clear_conversation (conversation_id : str) : DB bool :=
  try_except
    (run (Delete messages_table (py "conversation_id") conversation_id) ;;
     ret true)
    (fun e => print (py "Error clearing conversation: " ++ text e) ;; ret false).

(** The record of an item, lines 180 to 186. *)
Definition item_record (roadmap_id : value) (item : dict) : dict :=
  [(py "roadmap_id", roadmap_id);
   (py "item_id", get (py "id") (Text []) item);
   (py "title", get (py "title") (Text []) item);
   (py "description", get (py "description") (Text []) item);
   (py "completed", Flag false)].

(** Lines 161 to 194. *)
Definition save_roadmap (conversation_id title mermaid_diagram : str)
    (items : list dict) : DB value :=
  try_except
    (created_at <- now ;;
     data <- run (InsertRow roadmaps_table
                    [(py "conversation_id", Text conversation_id);
                     (py "title", Text title);
                     (py "mermaid_diagram", Text mermaid_diagram);
                     (py "created_at", Text created_at)]) ;;
     if is_empty data || Nat.eqb (length data) 0 then ret Null
     else
       let roadmap_id := get (py "id") Null (head data) in
       let items_data := map (item_record roadmap_id) items in
       when (negb (is_empty items_data))
            (run (InsertRows roadmap_items_table items_data) ;; ret tt) ;;
       ret roadmap_id)
    (fun e => print (py "Error saving roadmap: " ++ text e) ;; ret Null).

(** Lines 196 to 208. *)
Definition get_roadmaps (conversation_id : str) : DB (list dict) :=
  try_except
    (data <- run (Select roadmaps_table (py "id, title, mermaid_diagram, created_at")
                    (py "conversation_id") conversation_id
                    (py "created_at") (Some true) None) ;;
     ret (if negb (is_empty data) then data else []))
    (fun e => print (py "Error getting roadmaps: " ++ text e) ;; ret []).

(** Lines 210 to 222. *)
Definition get_roadmap_items (roadmap_id : str) : DB (list dict) :=
  try_except
    (data <- run (Select roadmap_items_table
                    (py "id, item_id, title, description, completed, completed_at")
                    (py "roadmap_id") roadmap_id
                    (py "item_id") None None) ;;
     ret (if negb (is_empty data) then data else []))
    (fun e => print (py "Error getting roadmap items: " ++ text e) ;; ret []).

(** Lines 224 to 239: the clock is read only for a completed item. *)
Definition update_item_progress (item_id : str) (completed : bool) : DB bool :=
  try_except
    (completed_at <- (if completed then (t <- now ;; ret (Text t)) else ret Null) ;;
     let update_data := [(py "completed", Flag completed);
                         (py "completed_at", completed_at)] in
     run (Update roadmap_items_table update_data (py "id") item_id) ;;
     ret true)
    (fun e => print (py "Error updating item progress: " ++ text e) ;; ret false).

(** The truth value of a value. *)
Definition truth (v : value) : bool :=
  match v with
  | Null => false
  | Text s => negb (is_empty s)
  | Flag b => b
  end.

(** The [dict] that [get_roadmap_progress] returns. *)
Record progress : Type := {
  total_items : nat;
  completed_items : nat;
  progress_percentage : Database.number;
  items : list dict
}.

Definition no_progress : progress :=
  {| total_items := 0; completed_items := 0;
     progress_percentage := Database.PyInt 0; items := [] |}.

Definition ZeroDivisionError : exn :=
  {| text := py "division by zero"; message := None |}.

(** Lines 241 to 256. *)
Definition get_roadmap_progress (roadmap_id : str) : DB progress :=
  try_except
    (items <- get_roadmap_items roadmap_id ;;
     let total_items := length items in
     let completed_items :=
       length (filter (fun item => truth (get (py "completed") (Flag false) item))
                      items) in
     percentage <-
       (if Nat.ltb 0 total_items then
          match Database.true_div completed_items total_items with
          | Some q => ret (Database.PyFloat (Database.times_100 q))
          | None => raise ZeroDivisionError
          end
        else ret (Database.PyInt 0)) ;;
     ret {| total_items := total_items;
            completed_items := completed_items;
            progress_percentage := percentage;
            items := items |})
    (fun e => print (py "Error getting roadmap progress: " ++ text e) ;;
              ret no_progress).

End Methods.
End SupabaseDB.

(** * backend/gemini_client.py *)

Module Gemini.

(** An entry of [conversation_history]. *)
Record message : Type := { role : str; content : str }.

(** A result of [perform_web_search]. *)
Record search_result : Type := { title : str; href : str; body : str }.

(** A result as the search library yields it: any key may be missing. *)
Record raw_result : Type := {
  raw_title : option str; raw_href : option str; raw_body : option str
}.

(** [user_settings]; a key that is missing is [None]. *)
Record settings : Type := {
  duration : option str; current_level : option str; study_field : option str
}.

(** The attributes of a [GeminiClient]; [db] tells whether [self.db] is set. *)
Record client : Type := {
  system_prompt : str;
  conversation_history : list message;
  use_database : bool;
  db : bool;
  current_conversation_id : option str
}.

(** What the client asks of its collaborators, in the order asked. *)
Inductive event : Type :=
| GetOrCreateConversation (session_id : str)
| GetConversationHistory (conversation_id : str)
| SaveMessage (conversation_id : str) (role : str) (content : str)
| WebSearch (query : str) (max_results : nat)
| GenerateContent (prompt : str).

(** The result of a call: a value, or an exception with its [str(e)]. *)
Inductive outcome (A : Type) : Type :=
| Returned (a : A)
| Raised (e : str).
Arguments Returned {A} a.
Arguments Raised {A} e.

(** The collaborators.  The methods of [SupabaseDB] catch every exception
    and answer [None], [[]] or [False]; [perform_web_search] keeps the
    results yielded before an exception; the model call may raise. *)
Record collaborators : Type := {
  get_or_create_conversation : str -> option str;
  get_conversation_history : str -> list message;
  ddgs_text : str -> nat -> list raw_result;
  generate_content : str -> outcome str
}.

(** The state a method runs in: the client and the calls made so far. *)
Definition world : Type := (client * list event)%type.

Definition M (A : Type) : Type := world -> outcome A * world.

Definition ret {A} (a : A) : M A := fun w => (Returned a, w).
Definition raise {A} (e : str) : M A := fun w => (Raised e, w).
Definition bind {A B} (m : M A) (f : A -> M B) : M B :=
  fun w => match m w with
           | (Returned a, w') => f a w'
           | (Raised e, w') => (Raised e, w')
           end.
(** [try: m except Exception as e: h(str(e))]: what [m] did stays done. *)
Definition try_except {A} (m : M A) (h : str -> M A) : M A :=
  fun w => match m w with
           | (Returned a, w') => (Returned a, w')
           | (Raised e, w') => h e w'
           end.

Definition self : M client := fun w => (Returned (fst w), w).
Definition update (f : client -> client) : M unit :=
  fun w => (Returned tt, (f (fst w), snd w)).
Definition call (e : event) : M unit :=
  fun w => (Returned tt, (fst w, snd w ++ [e])).
Definition when (b : bool) (m : M unit) : M unit := if b then m else ret tt.

Declare Scope py_scope.
Delimit Scope py_scope with py_m.
Notation "x <- m ;; k" := (bind m (fun x => k))
  (at level 61, m at next level, right associativity) : py_scope.
Notation "m ;; k" := (bind m (fun _ => k))
  (at level 61, right associativity) : py_scope.
Local Open Scope py_scope.

Definition set_history (h : list message) (c : client) : client :=
  {| system_prompt := system_prompt c; conversation_history := h;
     use_database := use_database c; db := db c;
     current_conversation_id := current_conversation_id c |}.

Definition set_id (i : option str) (c : client) : client :=
  {| system_prompt := system_prompt c; conversation_history := conversation_history c;
     use_database := use_database c; db := db c;
     current_conversation_id := i |}.

(** The truth value of an [Optional[str]]. *)
Definition truthy (o : option str) : bool :=
  match o with
  | Some s => negb (is_empty s)
  | None => false
  end.

Definition the (o : option str) : str :=
  match o with Some s => s | None => [] end.

(** [str(n)] for a natural number. *)
Fixpoint digits (u : Decimal.uint) : str :=
  match u with
  | Decimal.Nil => []
  | Decimal.D0 u' => 48 :: digits u'
  | Decimal.D1 u' => 49 :: digits u'
  | Decimal.D2 u' => 50 :: digits u'
  | Decimal.D3 u' => 51 :: digits u'
  | Decimal.D4 u' => 52 :: digits u'
  | Decimal.D5 u' => 53 :: digits u'
  | Decimal.D6 u' => 54 :: digits u'
  | Decimal.D7 u' => 55 :: digits u'
  | Decimal.D8 u' => 56 :: digits u'
  | Decimal.D9 u' => 57 :: digits u'
  end.
Definition str_of_nat (n : nat) : str := digits (Nat.to_uint n).

Section Client.
Context {U : Unicode} (C : collaborators).

(** ** [perform_web_search] *)
Definition perform_web_search (query : str) (max_results : nat) : M (list search_result) :=
  call (WebSearch query max_results) ;;
  ret (map (fun result =>
              {| title := the (raw_title result);
                 href := the (raw_href result);
                 body := the (raw_body result) |})
           (ddgs_text C query max_results)).

(** ** [_detect_search_query] *)
Definition _detect_search_query (user_message : str) : option str :=
  let user_message_lower := py_strip (py_lower user_message) in
  if py_startswith (py "search:") user_message_lower
     || py_startswith (py "/search") user_message_lower
  then
    let query :=
      if py_startswith (py "search:") user_message_lower
      then py_strip (skipn (length (py "search:")) user_message)
      else py_strip (skipn (length (py "/search")) user_message) in
    if negb (is_empty query) then Some query else None
  else None.

(** ** [set_conversation_id] *)
Definition db_history (conversation_id : str) : M (list message) :=
  call (GetConversationHistory conversation_id) ;;
  ret (get_conversation_history C conversation_id).

Definition set_conversation_id (conversation_id : str) : M unit :=
  update (set_id (Some conversation_id)) ;;
  c <- self ;;
  when (use_database c && db c)
       (h <- db_history conversation_id ;; update (set_history h)).

(** ** [chat] *)

(** Lines 214 to 221. *)
Definition init_conversation (session_id : option str) : M unit :=
  c <- self ;;
  when (use_database c && db c && truthy session_id)
       (if negb (truthy (current_conversation_id c)) then
          call (GetOrCreateConversation (the session_id)) ;;
          let conversation_id := get_or_create_conversation C (the session_id) in
          when (truthy conversation_id) (set_conversation_id (the conversation_id))
        else
          when (is_empty (conversation_history c))
               (h <- db_history (the (current_conversation_id c)) ;;
                update (set_history h))).

(** Lines 232 to 236: the results as the model reads them. *)
Fixpoint format_results (idx : nat) (results : list search_result) (search_context : str) : str :=
  match results with
  | [] => search_context
  | result :: more =>
      format_results (S idx) more
        (search_context
           ++ py "\n[" ++ str_of_nat idx ++ py "] " ++ title result ++ py "\n"
           ++ py "URL: " ++ href result ++ py "\n"
           ++ py "Summary: " ++ body result ++ py "\n")
  end.

Definition no_results_note : str :=
  py "\n\n(Note: Web search did not return results. Please respond based on your knowledge.)".

(** Lines 224 to 243. *)
Definition enhance (user_message : str) : M str :=
  let search_query := _detect_search_query user_message in
  if truthy search_query then
    search_results <- perform_web_search (the search_query) 6 ;;
    if negb (is_empty search_results) then
      let search_context :=
        format_results 1 search_results (py "\n\n--- Web Search Results ---\n") in
      ret (user_message ++ py "\n\n" ++ search_context
             ++ py "\n\nPlease provide a helpful response based on these search results, citing sources with [1], [2], etc.")
    else ret (user_message ++ no_results_note)
  else ret user_message.

(** Lines 246 to 257. *)
Definition with_settings (user_settings : option settings) (enhanced_message : str) : str :=
  match user_settings with
  | Some s =>
      let settings_parts :=
        (if truthy (duration s) then [py "Study Duration: " ++ the (duration s)] else [])
        ++ (if truthy (current_level s) then [py "Current Level: " ++ the (current_level s)] else [])
        ++ (if truthy (study_field s) then [py "Study Field: " ++ the (study_field s)] else []) in
      if negb (is_empty settings_parts) then
        let settings_context :=
          py "\n\nUser Settings:\n" ++ py_join (py "\n") settings_parts ++ py "\n" in
        settings_context ++ enhanced_message
      else enhanced_message
  | None => enhanced_message
  end.

(** Lines 267 to 276. *)
Definition transcript (history : list message) (conversation_text : str) : str :=
  fold_left (fun text msg =>
               if str_eqb (role msg) (py "user")
               then text ++ py "User: " ++ content msg ++ py "\n\n"
               else text ++ py "Assistant: " ++ content msg ++ py "\n\n")
            history conversation_text.

Definition append_message (r : str) (text : str) : M unit :=
  update (fun c => set_history (conversation_history c ++ [{| role := r; content := text |}]) c).

Definition save_message (r : str) (text : str) : M unit :=
  c <- self ;;
  when (use_database c && db c && truthy (current_conversation_id c))
       (call (SaveMessage (the (current_conversation_id c)) r text)).

Definition generate (conversation_text : str) : M str :=
  call (GenerateContent conversation_text) ;;
  fun w => (generate_content C conversation_text, w).

(** Lines 214 to 276: everything before the [try]; the value is
    [conversation_text]. *)
Definition prepare (user_message : str) (session_id : option str)
    (user_settings : option settings) : M str :=
  init_conversation session_id ;;
  enhanced_message <- enhance user_message ;;
  let enhanced_message := with_settings user_settings enhanced_message in
  append_message (py "user") enhanced_message ;;
  save_message (py "user") enhanced_message ;;
  c <- self ;;
  let conversation_text := transcript (conversation_history c) (system_prompt c ++ py "\n\n") in
  ret (conversation_text ++ py "Assistant:").

(** Lines 278 to 292. *)
Definition respond (conversation_text : str) : M str :=
  try_except
    (response <- generate conversation_text ;;
     let ai_response := py_strip response in
     append_message (py "assistant") ai_response ;;
     save_message (py "assistant") ai_response ;;
     ret ai_response)
    (fun e => ret (py "Error generating response: " ++ e)).

Definition chat (user_message : str) (session_id : option str)
    (user_settings : option settings) : M str :=
  conversation_text <- prepare user_message session_id user_settings ;;
  respond conversation_text.

(** ** [parse_mermaid_diagram] *)

(** An item: the keys "id", "title" and "description" ([item_title] for the
    second, as the results of the search have a [title] too). *)
Record item : Type := { id : str; item_title : str; description : str }.

(** [node_pattern], line 308: an upper-case letter then word characters
    (group 1), an opening bracket, one or more code points other than the
    closing bracket (group 2), and the closing bracket. *)
Definition node_pattern : regex :=
  cat [Grp 1 (Seq (Chr is_upper) (Rep true 0 isword));
       Chr (N.eqb 91);
       Grp 2 (Rep true 1 (fun c => negb (c =? 93)));
       Chr (N.eqb 93)].

Definition parse_mermaid_diagram (mermaid_code : str) : list item :=
  let matches := findall2 node_pattern mermaid_code in
  map (fun m =>
         let node_id := fst m in
         let label := snd m in
         let clean_label := py_strip label in
         {| id := node_id;
            item_title := clean_label;
            description := py "Complete: " ++ clean_label |})
      matches.

End Client.
End Gemini.

(** ** The methods of [GeminiClient] on roadmaps, and [reset_conversation]

    They run on the client and on the state of its [SupabaseDB]. *)

Module GeminiClient.
Import SupabaseDB.
Local Open Scope db_scope.

Definition world : Type := (Gemini.client * state)%type.

Definition self : St world Gemini.client := fun w => (Value (fst w), w).
Definition update (f : Gemini.client -> Gemini.client) : St world unit :=
  fun w => (Value tt, (f (fst w), snd w)).
(** A method of [self.db]. *)
Definition db_call {A} (m : DB A) : St world A :=
  fun w => (fst (m (snd w)), (fst w, snd (m (snd w)))).

(** An item as the parser returns it: a [dict] of three keys. *)
Definition item_dict (it : Gemini.item) : dict :=
  [(py "id", Text (Gemini.id it));
   (py "title", Text (Gemini.item_title it));
   (py "description", Text (Gemini.description it))].

Section Methods.
Context {U : Unicode} (S : supabase).

(** Lines 294 to 299. *)
Definition reset_conversation : St world unit :=
  c <- self ;;
  when (Gemini.use_database c && Gemini.db c
        && Gemini.truthy (Gemini.current_conversation_id c))
       (db_call (clear_conversation S (Gemini.the (Gemini.current_conversation_id c))) ;;
        ret tt) ;;
  update (Gemini.set_history []) ;;
  update (Gemini.set_id None).

(** Lines 322 to 342. *)
Definition save_roadmap (title mermaid_diagram : str) : St world value :=
  c <- self ;;
  if negb (Gemini.use_database c) || negb (Gemini.db c)
     || negb (Gemini.truthy (Gemini.current_conversation_id c))
  then ret Null
  else
    try_except
      (let items := Gemini.parse_mermaid_diagram mermaid_diagram in
       roadmap_id <- db_call (SupabaseDB.save_roadmap S
                                (Gemini.the (Gemini.current_conversation_id c))
                                title mermaid_diagram (map item_dict items)) ;;
       ret roadmap_id)
      (fun e => db_call (print (py "Error saving roadmap: " ++ text e)) ;; ret Null).

(** Lines 344 to 349. *)
Definition get_roadmaps : St world (list dict) :=
  c <- self ;;
  if negb (Gemini.use_database c) || negb (Gemini.db c)
     || negb (Gemini.truthy (Gemini.current_conversation_id c))
  then ret []
  else db_call (SupabaseDB.get_roadmaps S (Gemini.the (Gemini.current_conversation_id c))).

(** Lines 351 to 356. *)
Definition get_roadmap_progress (roadmap_id : str) : St world progress :=
  c <- self ;;
  if negb (Gemini.use_database c) || negb (Gemini.db c)
  then ret {| total_items := 0; completed_items := 0;
              progress_percentage := Database.PyInt 0; items := [] |}
  else db_call (SupabaseDB.get_roadmap_progress S roadmap_id).

(** Lines 358 to 363. *)
Definition update_item_progress (item_id : str) (completed : bool) : St world bool :=
  c <- self ;;
  if negb (Gemini.use_database c) || negb (Gemini.db c)
  then ret false
  else db_call (SupabaseDB.update_item_progress S item_id completed).

End Methods.
End GeminiClient.

(** * frontend/front.py: [display_message]

    The calls to Streamlit are recorded in the order in which they are
    made.  Of these calls, the two that render a diagram may raise
    ([components.html] and [st_mermaid]); whether they do is a parameter, as
    is the clock. *)

Module Page.

(** A call to Streamlit; [Expander] holds the calls made inside its [with]. *)
#[warnings="-register-all"]
Inductive widget : Type :=
| Markdown (body : str)
| Subheader (body : str)
| ErrorBox (body : str)
| Code (body language : str)
| Html (html : str) (height : nat) (scrolling : bool)
| Success (body : str)
| Info (body : str)
| Expander (label : str) (inside : list widget)
| StMermaid (code key : str) (height : nat).

(** [time_ms] is [int(time.time() * 1000)]; the two renderers answer [None]
    when they return and the [str(e)] of their exception when they raise. *)
Record streamlit : Type := {
  time_ms : nat;
  components_html : str -> nat -> bool -> option str;
  st_mermaid : str -> str -> nat -> option str
}.

(** [st.session_state.last_raw_response] and the calls made so far. *)
Record page : Type := {
  last_raw_response : option str;
  screen : list widget
}.

(** The four parts of the page of lines 293 to 308, around the two
    occurrences of [wrapper_id] and the diagram. *)
Definition html_head : str :=
  py "<!doctype html>\n<html><head><meta charset=" ++ [34] ++ py "utf-8" ++ [34]
  ++ py "> \n    <script src=" ++ [34]
  ++ py "https://cdn.jsdelivr.net/npm/mermaid/dist/mermaid.min.js" ++ [34]
  ++ py "></script>\n    <style>.mermaid{background:transparent}</style>\n</head>\n<body>\n    <div id="
  ++ [34].

Definition html_open : str :=
  [34] ++ py "> <div class=" ++ [34] ++ py "mermaid" ++ [34] ++ py ">".

Definition html_script : str :=
  py "</div> </div>\n    <script>\n        try {\n            mermaid.initialize({ startOnLoad: false, securityLevel: 'loose' });\n            mermaid.init(undefined, document.querySelectorAll('#".

Definition html_tail : str :=
  py " .mermaid'));\n        } catch(err) {\n            console.error('mermaid init error', err);\n        }\n    </script>\n</body></html>".

Definition rule : str := py "---".

Section Display.
Context {U : Unicode} (S : streamlit).

(** Lines 285 to 330: the diagram is rendered in a page of its own, or,
    when that raises, by [st_mermaid]. *)
Definition render (diagram_clean : str) : list widget :=
  let unique_key := py "mermaid_" ++ Gemini.str_of_nat (time_ms S) in
  let wrapper_id := unique_key ++ py "_wrap" in
  let html := html_head ++ wrapper_id ++ html_open ++ diagram_clean
              ++ html_script ++ wrapper_id ++ html_tail in
  Html html 420 true
  :: match components_html S html 420 true with
     | None =>
         [Success ([9989] ++ py " Diagram displayed");
          Expander ([128221] ++ py " View Diagram Code")
                   [Code diagram_clean (py "mermaid")]]
     | Some e =>
         ErrorBox ([10060] ++ py " Mermaid rendering error: " ++ e)
         :: Expander ([128269] ++ py " Debug: Raw Diagram Code")
                     [Code diagram_clean (py "mermaid")]
         :: Info (py "Attempting fallback with `st_mermaid` component...")
         :: StMermaid diagram_clean unique_key 400
         :: match st_mermaid S diagram_clean unique_key 400 with
            | None => [Success ([9989] ++ py " Fallback st_mermaid render succeeded")]
            | Some e2 => [ErrorBox ([10060] ++ py " Fallback render failed: " ++ e2)]
            end
     end.

(** Lines 259 to 332. *)
Definition display_message (message_content : str) (p : page) : page :=
  let diagrams := Front.extract_mermaid_diagrams message_content in
  let text_content := Front.remove_mermaid_blocks message_content in
  let shown :=
    (if negb (is_empty text_content) then [Markdown text_content] else [])
    ++ match diagrams with
       | [] => []
       | diagram_raw :: _ =>
           let diagram_clean := Front.validate_and_clean_mermaid diagram_raw in
           [Markdown rule; Subheader ([128202] ++ py " Study Roadmap Diagram")]
           ++ (if negb (Gemini.truthy diagram_clean) then
                 [ErrorBox ([10060] ++ py " Could not parse Mermaid diagram");
                  Code (firstn 500 diagram_raw) (py "text")]
               else render (Gemini.the diagram_clean))
           ++ [Markdown rule]
       end in
  {| last_raw_response := Some message_content;
     screen := screen p ++ shown |}.

End Display.
End Page.

(** * Properties *)

Unset Implicit Arguments.

(** Tables that know nothing above 128: for the examples, whose subjects
    are ASCII. *)
Definition ascii_only : Unicode :=
  {| uni_isalnum := fun _ => false;
     uni_lower := fun _ c _ => [c];
     uni_ci_eq := fun _ _ => false |}.

(** ** Strings *)

Lemma is_empty_true (A : Type) (l : list A) : is_empty l = true <-> l = [].
Proof. destruct l; simpl; split; intro H; congruence. Qed.

Lemma is_empty_false (A : Type) (l : list A) : is_empty l = false <-> l <> [].
Proof. destruct l; simpl; split; intro H; congruence. Qed.

Lemma py_startswith_spec (p s : str) :
  py_startswith p s = true <-> exists t, s = p ++ t.
Proof.
  revert s; induction p as [|a p IH]; intros s; simpl.
  - split; [intros _; now exists s | trivial].
  - destruct s as [|b s].
    + split; [discriminate | intros [t Ht]; discriminate].
    + rewrite andb_true_iff, N.eqb_eq, IH. split.
      * intros [-> [t ->]]. now exists t.
      * intros [t Ht]. injection Ht as -> ->. split; [reflexivity | now exists t].
Qed.

Lemma py_in_spec (p s : str) :
  py_in p s = true <-> exists a b, s = a ++ p ++ b.
Proof.
  induction s as [|c s IH].
  - simpl. rewrite orb_false_r, py_startswith_spec. split.
    + intros [t Ht]. now exists [], t.
    + intros [a [b H]]. destruct a; [now exists b | discriminate].
  - cbn [py_in]. rewrite orb_true_iff, py_startswith_spec, IH. split.
    + intros [[t Ht] | [a [b H]]].
      * now exists [], t.
      * exists (c :: a), b. now rewrite H.
    + intros [[|a0 a] [b H]].
      * left. now exists b.
      * right. injection H as _ H. now exists a, b.
Qed.

Lemma py_in_false (p s : str) :
  py_in p s = false <-> forall a b, s <> a ++ p ++ b.
Proof.
  rewrite <- not_true_iff_false, py_in_spec. split.
  - intros H a b E. apply H. now exists a, b.
  - intros H [a [b E]]. exact (H a b E).
Qed.

Lemma py_in_mid (p a b : str) : py_in p (a ++ p ++ b) = true.
Proof. apply py_in_spec. now exists a, b. Qed.

Lemma py_in_app (p a s b : str) :
  py_in p s = true -> py_in p (a ++ s ++ b) = true.
Proof.
  rewrite !py_in_spec. intros [x [y ->]]. exists (a ++ x), (y ++ b).
  now rewrite <- !app_assoc.
Qed.

Lemma py_in_skipn (p s : str) (n : nat) :
  py_in p (skipn n s) = true -> py_in p s = true.
Proof.
  intros H. rewrite <- (firstn_skipn n s), <- (app_nil_r (skipn n s)).
  now apply py_in_app.
Qed.

(** [find] answers an index at which the text occurs. *)
Lemma py_find_spec (p s : str) :
  py_in p s = true ->
  exists n, py_find p s = Z.of_nat n /\ py_startswith p (skipn n s) = true.
Proof.
  induction s as [|c s IH]; cbn [py_in py_find]; intros H.
  - rewrite orb_false_r in H. rewrite H. now exists 0%nat.
  - destruct (py_startswith p (c :: s)) eqn:E.
    + now exists 0%nat.
    + simpl in H. destruct (IH H) as [n [Hn Hs]]. exists (S n). rewrite Hn. split.
      * destruct (Z.ltb_spec (Z.of_nat n) 0); lia.
      * exact Hs.
Qed.

Lemma slice_from_nat (n : nat) (s : str) : slice_from (Z.of_nat n) s = skipn n s.
Proof.
  unfold slice_from. destruct (Z.ltb_spec (Z.of_nat n) 0); [lia|].
  now rewrite Nat2Z.id.
Qed.

(** ** Progress *)

Definition count_completed (rows : list Database.roadmap_item) : nat :=
  count_occ bool_dec (map Database.is_completed rows) true.

Lemma length_filter_completed (rows : list Database.roadmap_item) :
  length (filter Database.is_completed rows) = count_completed rows.
Proof.
  unfold count_completed. induction rows as [|r rows IH]; simpl; [reflexivity|].
  destruct (Database.is_completed r); simpl.
  - destruct (bool_dec true true); [now rewrite IH | congruence].
  - destruct (bool_dec false true); [discriminate | exact IH].
Qed.

Lemma count_completed_le (rows : list Database.roadmap_item) :
  (count_completed rows <= length rows)%nat.
Proof.
  rewrite <- length_filter_completed. apply filter_length_le.
Qed.

(** The binary64 numbers the statements name. *)
Module FloatLit.
Import PrimFloat.
Definition third_of_100 : float := 0x1.0aaaaaaaaaaaap+5.
Definition f33_25 : float := 33.25.
Definition f33_5 : float := 33.5.
End FloatLit.

(** The quotient [a / b * 100] of the source as a binary64 number. *)
Definition ratio_percent (a b : nat) : PrimFloat.float :=
  PrimFloat.mul
    (PrimFloat.div (Database.float_of_nat a) (Database.float_of_nat b))
    (Database.float_of_nat 100).

(** C7.  Whatever rows the store answers, [get_roadmap_progress] reports
    their number as [total_items], the number of rows marked completed as
    [completed_items], and as [progress_percentage] the float
    [completed_items / total_items * 100] when there is a row and the
    integer [0] when there is none; the division is never reached with a
    zero divisor (the [except] branch is not taken, the rows are reported).
    No row gives [{0, 0, 0}]; three rows of which exactly one is completed
    give [{3, 1, 33.33...}]: the binary64 number [third_of_100], which
    Python prints as 33.33333333333333. *)
Theorem get_roadmap_progress_aggregate :
  forall response : option (list Database.roadmap_item),
    let rows := Database.get_roadmap_items response in
    let p := Database.get_roadmap_progress response in
    Database.items p = rows /\
    Database.total_items p = length rows /\
    Database.completed_items p = count_completed rows /\
    (Database.completed_items p <= Database.total_items p)%nat /\
    Database.progress_percentage p =
      (match length rows with
       | O => Database.PyInt 0
       | S _ => Database.PyFloat (ratio_percent (count_completed rows) (length rows))
       end) /\
    (rows = [] ->
     p = {| Database.total_items := 0; Database.completed_items := 0;
            Database.progress_percentage := Database.PyInt 0;
            Database.items := [] |}) /\
    (length rows = 3%nat -> count_completed rows = 1%nat ->
     Database.total_items p = 3%nat /\ Database.completed_items p = 1%nat /\
     Database.progress_percentage p = Database.PyFloat FloatLit.third_of_100 /\
     PrimFloat.ltb FloatLit.f33_25 FloatLit.third_of_100 = true /\
     PrimFloat.ltb FloatLit.third_of_100 FloatLit.f33_5 = true).
Proof.
  intros response rows p.
  assert (E : p = {| Database.total_items := length rows;
                     Database.completed_items := count_completed rows;
                     Database.progress_percentage :=
                       match length rows with
                       | O => Database.PyInt 0
                       | S _ => Database.PyFloat
                                  (ratio_percent (count_completed rows) (length rows))
                       end;
                     Database.items := rows |}).
  { subst p. unfold Database.get_roadmap_progress. fold rows.
    rewrite length_filter_completed.
    destruct (length rows) as [|k] eqn:L; simpl; reflexivity. }
  rewrite E; simpl.
  split; [reflexivity|]. split; [reflexivity|]. split; [reflexivity|].
  split; [apply count_completed_le|]. split; [reflexivity|]. split.
  - intros R. rewrite R. reflexivity.
  - intros H3 H1. rewrite H3, H1. repeat split; reflexivity.
Qed.

Definition sample_row (done : option bool) : Database.roadmap_item :=
  {| Database.id := []; Database.item_id := []; Database.title := [];
     Database.description := []; Database.completed := done;
     Database.completed_at := None |}.

Lemma get_roadmap_progress_aggregate_witness :
  Database.progress_percentage
    (Database.get_roadmap_progress
       (Some [sample_row (Some true); sample_row None; sample_row (Some false)]))
  = Database.PyFloat FloatLit.third_of_100.
Proof.
  apply (get_roadmap_progress_aggregate
           (Some [sample_row (Some true); sample_row None; sample_row (Some false)]));
    reflexivity.
Defined.

(** ** The chat turn *)

Section Turn.
Context {U : Unicode} (C : Gemini.collaborators).
Import Gemini.

(** The calls that only read the store. *)
Definition is_read (e : event) : Prop :=
  match e with
  | GetOrCreateConversation _ | GetConversationHistory _ => True
  | _ => False
  end.

(** The turn does not consult the store before it appends. *)
Definition no_reload (session_id : option str) (c : client) : Prop :=
  use_database c && db c && truthy session_id = false
  \/ (truthy (current_conversation_id c) = true /\ conversation_history c <> []).

Lemma init_conversation_run (session_id : option str) (c : client) (log : list event) :
  exists c1 ev,
    init_conversation C session_id (c, log) = (Returned tt, (c1, log ++ ev))
    /\ system_prompt c1 = system_prompt c
    /\ use_database c1 = use_database c
    /\ db c1 = db c
    /\ Forall is_read ev
    /\ (no_reload session_id c -> c1 = c /\ ev = []).
Proof.
  unfold init_conversation, no_reload, set_conversation_id, db_history, when,
    bind, self, update, call, ret; simpl.
  assert (R : forall e : event, is_read e -> Forall is_read [e])
    by (intros; now constructor).
  destruct (use_database c && db c && truthy session_id) eqn:G; simpl.
  - apply andb_true_iff in G as [G Gs].
    destruct (truthy (current_conversation_id c)) eqn:I; simpl.
    + destruct (is_empty (conversation_history c)) eqn:E; simpl.
      * apply is_empty_true in E.
        eexists _, _. split; [reflexivity|]. simpl.
        repeat split; auto; try (now apply R);
          destruct H as [H | [_ H]]; try discriminate; contradiction.
      * exists c, []. rewrite app_nil_r. repeat split; auto.
    + destruct (truthy (get_or_create_conversation C (the session_id))) eqn:T; simpl.
      * rewrite G. simpl. rewrite <- app_assoc.
        eexists _, _. split; [reflexivity|]. simpl.
        repeat split; auto; try (now repeat constructor);
          destruct H as [H | [H _]]; discriminate.
      * eexists _, _. split; [reflexivity|]. simpl.
        repeat split; auto; try (now apply R);
          destruct H as [H | [H _]]; discriminate.
  - exists c, []. rewrite app_nil_r. repeat split; auto.
Qed.

(** What [enhance] answers and asks. *)
Lemma enhance_run (user_message : str) (c : client) (log : list event) :
  exists m ev,
    enhance C user_message (c, log) = (Returned m, (c, log ++ ev))
    /\ (forall e, In e ev ->
          exists q, _detect_search_query user_message = Some q /\ e = WebSearch q 6)
    /\ (forall q, _detect_search_query user_message = Some q ->
          ev = [WebSearch q 6]
          /\ (ddgs_text C q 6 = [] -> m = user_message ++ no_results_note))
    /\ (_detect_search_query user_message = None -> ev = [] /\ m = user_message).
Proof.
  unfold enhance, perform_web_search, bind, call, ret; simpl.
  destruct (_detect_search_query user_message) as [q|] eqn:D; simpl.
  - assert (Hq : negb (is_empty q) = true).
    { unfold _detect_search_query in D.
      repeat match type of D with
             | (if ?b then _ else _) = _ => destruct b eqn:?; try discriminate
             end; injection D as <-; assumption. }
    rewrite Hq. simpl.
    destruct (ddgs_text C q 6) as [|r rs] eqn:R; simpl.
    + eexists _, [_]. split; [reflexivity|]. split; [|split].
      * intros e [<- | []]. now exists q.
      * intros q' [= <-]. split; [reflexivity|]. intros _. reflexivity.
      * discriminate.
    + eexists _, [_]. split; [reflexivity|]. split; [|split].
      * intros e [<- | []]. now exists q.
      * intros q' [= <-]. split; [reflexivity|]. rewrite R. discriminate.
      * discriminate.
  - exists user_message, []. rewrite app_nil_r. split; [reflexivity|]. split; [|split].
    + intros e [].
    + discriminate.
    + intros _. split; reflexivity.
Qed.

(** The entry of the user in [conversation_history]. *)
Definition user_entry (user_settings : option settings) (m : str) : message :=
  {| role := py "user"; content := with_settings user_settings m |}.

(** The call that stores an entry, when the turn can reach the store. *)
Definition stored (c : client) (r text : str) : list event :=
  if use_database c && db c && truthy (current_conversation_id c)
  then [SaveMessage (the (current_conversation_id c)) r text] else [].

Lemma prepare_run (user_message : str) (session_id : option str)
    (user_settings : option settings) (c : client) (log : list event) :
  exists c1 ev1 m ev2,
    init_conversation C session_id (c, log) = (Returned tt, (c1, log ++ ev1))
    /\ enhance C user_message (c1, log ++ ev1) = (Returned m, (c1, (log ++ ev1) ++ ev2))
    /\ let entry := user_entry user_settings m in
       let h := conversation_history c1 ++ [entry] in
       prepare C user_message session_id user_settings (c, log)
       = (Returned (transcript h (system_prompt c ++ py "\n\n") ++ py "Assistant:"),
          (set_history h c1,
           log ++ ev1 ++ ev2 ++ stored c1 (py "user") (content entry))).
Proof.
  destruct (init_conversation_run session_id c log)
    as [c1 [ev1 [Hi [Hs _]]]].
  destruct (enhance_run user_message c1 (log ++ ev1)) as [m [ev2 [He _]]].
  exists c1, ev1, m, ev2. split; [exact Hi|]. split; [exact He|].
  unfold prepare. unfold bind at 1. rewrite Hi.
  unfold bind at 1. rewrite He.
  unfold append_message, save_message, stored, when, bind, self, update, call, ret.
  cbn [fst snd set_history use_database db current_conversation_id
       conversation_history system_prompt].
  destruct (use_database c1 && db c1 && truthy (current_conversation_id c1));
    cbn [fst snd set_history conversation_history system_prompt];
    rewrite Hs; unfold user_entry; cbn [content].
  - now rewrite <- !app_assoc.
  - now rewrite app_nil_r, <- !app_assoc.
Qed.

End Turn.

Section Reply.
Context {U : Unicode} (C : Gemini.collaborators).
Import Gemini.

Definition error_reply (e : str) : str := py "Error generating response: " ++ e.

Lemma respond_failure (p e : str) (c : client) (log : list event) :
  generate_content C p = Raised e ->
  respond C p (c, log) = (Returned (error_reply e), (c, log ++ [GenerateContent p])).
Proof.
  intros G. unfold respond, try_except, generate, bind, call, ret. simpl.
  rewrite G. reflexivity.
Qed.

Lemma respond_success (p r : str) (c : client) (log : list event) :
  generate_content C p = Returned r ->
  respond C p (c, log)
  = (Returned (py_strip r),
     (set_history (conversation_history c
                     ++ [{| role := py "assistant"; content := py_strip r |}]) c,
      log ++ GenerateContent p :: stored c (py "assistant") (py_strip r))).
Proof.
  intros G.
  unfold respond, try_except, generate, append_message, save_message, stored,
    when, bind, self, update, call, ret.
  cbn [fst snd]. rewrite G.
  cbn [fst snd set_history use_database db current_conversation_id].
  destruct (use_database c && db c && truthy (current_conversation_id c));
    cbn [fst snd]; [rewrite <- app_assoc|]; reflexivity.
Qed.

Lemma respond_returns (p : str) (w : world) :
  exists reply w2, respond C p w = (Returned reply, w2).
Proof.
  destruct w as [c log]. destruct (generate_content C p) as [r|e] eqn:G.
  - erewrite respond_success by exact G. eauto.
  - erewrite respond_failure by exact G. eauto.
Qed.

Lemma chat_run (user_message : str) (session_id : option str)
    (user_settings : option settings) (w : world) (p : str) (w1 : world) :
  prepare C user_message session_id user_settings w = (Returned p, w1) ->
  chat C user_message session_id user_settings w = respond C p w1.
Proof. intros H. unfold chat, bind. now rewrite H. Qed.

(** C9.  A turn always builds its prompt, and always answers a string: no
    exception leaves [chat].  When the model call raises on that prompt, the
    answer is the text "Error generating response: " followed by the text of
    the exception, returned as the reply. *)
Theorem chat_generation_failure_is_a_reply :
  forall (user_message : str) (session_id : option str)
         (user_settings : option settings) (w : world),
  exists p w1,
    prepare C user_message session_id user_settings w = (Returned p, w1)
    /\ (exists reply w2,
          chat C user_message session_id user_settings w = (Returned reply, w2))
    /\ (forall e, generate_content C p = Raised e ->
          chat C user_message session_id user_settings w
          = (Returned (error_reply e), (fst w1, snd w1 ++ [GenerateContent p]))).
Proof.
  intros user_message session_id user_settings [c log].
  destruct (prepare_run C user_message session_id user_settings c log)
    as [c1 [ev1 [m [ev2 [_ [_ Hp]]]]]].
  cbv zeta in Hp. eexists _, _. split; [exact Hp|]. split.
  - erewrite chat_run by exact Hp. apply respond_returns.
  - intros e G. erewrite chat_run by exact Hp. now apply respond_failure.
Qed.

(** C10, as the code has it.  The turn first brings the history in line
    with the store ([init_conversation]: the stored history replaces the one
    in memory when the conversation id is resolved by this turn, or when the
    history in memory is empty), then appends one entry: the enhanced message
    of the user, with the role "user".  The prompt [p] is the one the turn
    builds ([prepare]) from that history.  When the model call raises on
    it, the client
    is left as it was after that append (no assistant entry), the reply is the
    error text, and the calls of the turn that write to the store save at most
    that user entry: the error text is not saved.  When the turn does not
    consult the store, the history after the turn is the history before it
    followed by the user entry. *)
Theorem failed_turn_appends_the_user_entry :
  forall (user_message : str) (session_id : option str)
         (user_settings : option settings) (c : client) (log : list event),
  exists c1 log1 m p ev,
    init_conversation C session_id (c, log) = (Returned tt, (c1, log1))
    /\ fst (enhance C user_message (c1, log1)) = Returned m
    /\ fst (prepare C user_message session_id user_settings (c, log)) = Returned p
    /\ p = transcript (conversation_history c1 ++ [user_entry user_settings m])
                      (system_prompt c ++ py "\n\n") ++ py "Assistant:"
    /\ (no_reload session_id c -> conversation_history c1 = conversation_history c)
    /\ (forall e, generate_content C p = Raised e ->
          exists c2,
            chat C user_message session_id user_settings (c, log)
            = (Returned (error_reply e), (c2, log ++ ev))
            /\ conversation_history c2
               = conversation_history c1 ++ [user_entry user_settings m]
            /\ (forall i r t, In (SaveMessage i r t) ev ->
                  r = py "user" /\ t = content (user_entry user_settings m))).
Proof.
  intros user_message session_id user_settings c log.
  destruct (prepare_run C user_message session_id user_settings c log)
    as [c1 [ev1 [m [ev2 [Hi [He Hp]]]]]].
  cbv zeta in Hp.
  destruct (init_conversation_run C session_id c log)
    as [c1' [ev1' [Hi' [_ [_ [_ [Hr Hn]]]]]]].
  rewrite Hi in Hi'. injection Hi' as <- Hev. apply app_inv_head in Hev. subst ev1'.
  destruct (enhance_run C user_message c1 (log ++ ev1)) as [m' [ev2' [He' [Hw _]]]].
  rewrite He in He'. injection He' as <- Hev. apply app_inv_head in Hev. subst ev2'.
  eexists c1, (log ++ ev1), m, _, _.
  split; [exact Hi|]. split; [now rewrite He|].
  split; [now rewrite Hp|]. split; [reflexivity|]. split.
  { intros N. now destruct (Hn N) as [-> _]. }
  intros e G. eexists. erewrite chat_run by exact Hp.
  erewrite respond_failure by exact G. split.
  - rewrite <- !app_assoc. reflexivity.
  - split; [reflexivity|]. intros i r t Hin.
    rewrite !in_app_iff in Hin. destruct Hin as [Hin | [Hin | [Hin | Hin]]].
    + rewrite Forall_forall in Hr. destruct (Hr _ Hin).
    + destruct (Hw _ Hin) as [q [_ Hq]]. discriminate.
    + unfold stored in Hin.
      destruct (use_database c1 && db c1 && truthy (current_conversation_id c1)).
      * destruct Hin as [Hin | []]. injection Hin as _ <- <-. now split.
      * destruct Hin.
    + destruct Hin as [Hin | []]. discriminate.
Qed.

End Reply.

(** ** Stripping and lower case *)

Lemma lstrip_by_app_keep (f : N -> bool) (x : str) (c : N) (y : str) :
  f c = false -> lstrip_by f (x ++ c :: y) = lstrip_by f x ++ c :: y.
Proof.
  intros Hc. induction x as [|a x IH]; simpl.
  - now rewrite Hc.
  - destruct (f a); [exact IH | reflexivity].
Qed.

Lemma rstrip_by_app_keep (f : N -> bool) (a : str) (c : N) (t : str) :
  f c = false -> rstrip_by f (a ++ c :: t) = a ++ c :: rstrip_by f t.
Proof.
  intros Hc. unfold rstrip_by.
  rewrite rev_app_distr. simpl. rewrite <- app_assoc. simpl.
  rewrite lstrip_by_app_keep by exact Hc.
  rewrite rev_app_distr. simpl. rewrite rev_involutive, <- app_assoc. reflexivity.
Qed.

Lemma py_strip_keeps (a : N) (mid : str) (z : N) (t : str) :
  isspace a = false -> isspace z = false ->
  py_strip (a :: mid ++ z :: t) = a :: mid ++ z :: py_rstrip t.
Proof.
  intros Ha Hz. unfold py_strip, py_rstrip. simpl. rewrite Ha.
  exact (rstrip_by_app_keep isspace (a :: mid) z t Hz).
Qed.

Lemma ascii_lower_is_ascii (c : N) : is_ascii (ascii_lower c) = true -> is_ascii c = true.
Proof.
  unfold is_ascii, ascii_lower, is_upper.
  destruct (N.leb_spec 65 c), (N.leb_spec c 90); simpl; rewrite !N.ltb_lt; lia.
Qed.

Section Lower.
Context {U : Unicode}.

Lemma lower_from_app_ascii (w : str) (before t : str) :
  Forall (fun c => is_ascii c = true) w ->
  lower_from before (w ++ t) = map ascii_lower w ++ lower_from (rev w ++ before) t.
Proof.
  intros H. revert before. induction H as [|c w Hc _ IH]; intros before; simpl.
  - reflexivity.
  - rewrite Hc. simpl. rewrite IH, <- app_assoc. reflexivity.
Qed.

Lemma lower_from_app (a : str) (before t : str) :
  exists x, lower_from before (a ++ t) = x ++ lower_from (rev a ++ before) t.
Proof.
  revert before. induction a as [|c a IH]; intros before; simpl.
  - now exists [].
  - destruct (IH (c :: before)) as [x Hx]. rewrite Hx, <- app_assoc. simpl.
    eexists. rewrite app_assoc. reflexivity.
Qed.

Lemma py_lower_ascii (s : str) :
  Forall (fun c => is_ascii c = true) s -> py_lower s = map ascii_lower s.
Proof.
  intros H. unfold py_lower.
  rewrite <- (app_nil_r s) at 1. rewrite lower_from_app_ascii by exact H.
  simpl. now rewrite app_nil_r.
Qed.

(** An ASCII text that occurs in [s] occurs, in lower case, in [s.lower()]. *)
Lemma py_in_lower (w s : str) :
  Forall (fun c => is_ascii c = true) w ->
  py_in w s = true -> py_in (map ascii_lower w) (py_lower s) = true.
Proof.
  intros Hw H. apply py_in_spec in H as [a [b ->]]. unfold py_lower.
  destruct (lower_from_app a [] (w ++ b)) as [x ->].
  rewrite lower_from_app_ascii by exact Hw. apply py_in_mid.
Qed.

End Lower.

Lemma map_ascii_lower_ascii (w kw : str) :
  map ascii_lower w = kw -> Forall (fun c => is_ascii c = true) kw ->
  Forall (fun c => is_ascii c = true) w.
Proof.
  intros <- H. induction w as [|c w IH]; constructor; inversion H; subst.
  - now apply ascii_lower_is_ascii.
  - now apply IH.
Qed.

(** ** The search directive *)

(** [prefix] is "search:" or "/search" in some letter case. *)
Definition is_search_prefix (prefix : str) : Prop :=
  map ascii_lower prefix = py "search:" \/ map ascii_lower prefix = py "/search".

Section Search.
Context {U : Unicode} (C : Gemini.collaborators).
Import Gemini.

Lemma detect_search_query_prefix (prefix rest : str) :
  is_search_prefix prefix ->
  _detect_search_query (prefix ++ rest)
  = if is_empty (py_strip rest) then None else Some (py_strip rest).
Proof.
  intros H.
  assert (L : length prefix = 7%nat).
  { destruct H as [H | H]; apply (f_equal (@length N)) in H;
      rewrite length_map in H; exact H. }
  assert (A : Forall (fun c => is_ascii c = true) prefix).
  { destruct H as [H | H]; (eapply map_ascii_lower_ascii; [exact H|]);
      repeat constructor. }
  assert (S7 : skipn 7 (prefix ++ rest) = rest).
  { rewrite <- L. rewrite skipn_app, skipn_all, Nat.sub_diag. reflexivity. }
  unfold _detect_search_query, py_lower.
  rewrite lower_from_app_ascii by exact A.
  generalize (lower_from (rev prefix ++ []) rest). intros t.
  destruct H as [H | H]; rewrite H.
  - change (py "search:" ++ t) with (115 :: [101; 97; 114; 99; 104] ++ 58 :: t).
    rewrite py_strip_keeps by reflexivity.
    change (115 :: [101; 97; 114; 99; 104] ++ 58 :: py_rstrip t)
      with (py "search:" ++ py_rstrip t).
    assert (E : py_startswith (py "search:") (py "search:" ++ py_rstrip t) = true)
      by (apply py_startswith_spec; eauto).
    rewrite E. cbv beta iota zeta. rewrite orb_true_l.
    change (length (py "search:")) with 7%nat. rewrite S7.
    now destruct (py_strip rest).
  - change (py "/search" ++ t) with (47 :: [115; 101; 97; 114; 99] ++ 104 :: t).
    rewrite py_strip_keeps by reflexivity.
    change (47 :: [115; 101; 97; 114; 99] ++ 104 :: py_rstrip t)
      with (py "/search" ++ py_rstrip t).
    assert (E : py_startswith (py "/search") (py "/search" ++ py_rstrip t) = true)
      by (apply py_startswith_spec; eauto).
    assert (F : py_startswith (py "search:") (py "/search" ++ py_rstrip t) = false)
      by reflexivity.
    rewrite E, F. cbv beta iota zeta. rewrite orb_true_r.
    change (length (py "/search")) with 7%nat. rewrite S7.
    now destruct (py_strip rest).
Qed.

Lemma with_settings_suffix (user_settings : option settings) (m : str) :
  exists pre, with_settings user_settings m = pre ++ m.
Proof.
  unfold with_settings. destruct user_settings as [s|]; [|exists []; reflexivity].
  match goal with |- context [is_empty ?l] => destruct (is_empty l) end;
    cbv beta iota zeta; cbn [negb].
  - exists []. reflexivity.
  - eexists. reflexivity.
Qed.

Lemma transcript_app (h1 h2 : list message) (text : str) :
  transcript (h1 ++ h2) text = transcript h2 (transcript h1 text).
Proof. unfold transcript. apply fold_left_app. Qed.

(** C8, as the code has it.  A message that begins with "search:" or
    "/search" in any letter case, and whose remainder is not blank, is a
    search directive: the turn calls the search with the trimmed remainder
    and at most 6 results, and makes no other search.  When that search
    yields no result, the entry of the user is the message followed by the
    note "(Note: Web search did not return results. ...)", with the settings
    in front and no results section, and the prompt sent to the model
    contains the note. *)
Theorem search_directive_invokes_search :
  forall (prefix rest : str) (session_id : option str)
         (user_settings : option settings) (c : client) (log : list event),
    is_search_prefix prefix ->
    py_strip rest <> [] ->
    _detect_search_query (prefix ++ rest) = Some (py_strip rest)
    /\ exists p c2 ev,
         prepare C (prefix ++ rest) session_id user_settings (c, log)
         = (Returned p, (c2, log ++ ev))
         /\ In (WebSearch (py_strip rest) 6) ev
         /\ (forall q n, In (WebSearch q n) ev -> q = py_strip rest /\ n = 6%nat)
         /\ (ddgs_text C (py_strip rest) 6 = [] ->
             (exists h, conversation_history c2
                        = h ++ [user_entry user_settings
                                  ((prefix ++ rest) ++ no_results_note)])
             /\ (exists pre, content (user_entry user_settings
                                        ((prefix ++ rest) ++ no_results_note))
                             = pre ++ (prefix ++ rest) ++ no_results_note)
             /\ py_in no_results_note p = true).
Proof.
  intros prefix rest session_id user_settings c log Hp Hq.
  assert (D : _detect_search_query (prefix ++ rest) = Some (py_strip rest)).
  { rewrite detect_search_query_prefix by exact Hp.
    destruct (py_strip rest); [contradiction | reflexivity]. }
  split; [exact D|].
  destruct (prepare_run C (prefix ++ rest) session_id user_settings c log)
    as [c1 [ev1 [m [ev2 [Hi [He Hr]]]]]].
  cbv zeta in Hr.
  destruct (init_conversation_run C session_id c log)
    as [c1' [ev1' [Hi' [_ [_ [_ [Hread _]]]]]]].
  rewrite Hi in Hi'. injection Hi' as <- Hev. apply app_inv_head in Hev. subst ev1'.
  destruct (enhance_run C (prefix ++ rest) c1 (log ++ ev1))
    as [m' [ev2' [He' [_ [Hs _]]]]].
  rewrite He in He'. injection He' as <- Hev. apply app_inv_head in Hev. subst ev2'.
  destruct (Hs _ D) as [-> Hm].
  eexists _, _, _. split; [exact Hr|]. split; [|split].
  - rewrite !in_app_iff. right. left. now left.
  - intros q n Hin. rewrite !in_app_iff in Hin.
    destruct Hin as [Hin | [Hin | Hin]].
    + rewrite Forall_forall in Hread. destruct (Hread _ Hin).
    + destruct Hin as [Hin | []]. injection Hin as <- <-. now split.
    + unfold stored in Hin.
      destruct (use_database c1 && db c1 && truthy (current_conversation_id c1));
        [destruct Hin as [Hin | []]; discriminate | destruct Hin].
  - intros R. rewrite (Hm R). cbn [conversation_history set_history].
    split; [now exists (conversation_history c1)|].
    destruct (with_settings_suffix user_settings ((prefix ++ rest) ++ no_results_note))
      as [pre Hpre].
    split; [exists pre; exact Hpre|].
    rewrite transcript_app. unfold user_entry, transcript at 1.
    cbn [fold_left role content].
    change (str_eqb (py "user") (py "user")) with true. cbv iota.
    rewrite Hpre. apply py_in_spec.
    exists (transcript (conversation_history c1) (system_prompt c ++ py "\n\n")
              ++ py "User: " ++ pre ++ prefix ++ rest),
           (py "\n\n" ++ py "Assistant:").
    rewrite <- !app_assoc. reflexivity.
Qed.

End Search.

(** ** A turn that fails, on a store that holds one message *)

Definition stored_history : list Gemini.message :=
  [{| Gemini.role := py "user"; Gemini.content := py "old" |}].

(** The store knows the session and holds one message, the search finds
    nothing, the model call raises "quota". *)
Definition failing : Gemini.collaborators :=
  {| Gemini.get_or_create_conversation := fun _ => Some (py "c1");
     Gemini.get_conversation_history := fun _ => stored_history;
     Gemini.ddgs_text := fun _ _ => [];
     Gemini.generate_content := fun _ => Gemini.Raised (py "quota") |}.

(** A client as [__init__] leaves it, with a store. *)
Definition fresh_client : Gemini.client :=
  {| Gemini.system_prompt := py "SYS";
     Gemini.conversation_history := [];
     Gemini.use_database := true;
     Gemini.db := true;
     Gemini.current_conversation_id := None |}.

Definition failed_turn (U : Unicode) : Gemini.outcome str * Gemini.world :=
  Gemini.chat failing (py "hello") (Some (py "s1")) None (fresh_client, []).

Lemma search_directive_invokes_search_witness :
  Gemini._detect_search_query (U := ascii_only)
    (py "search:" ++ py " python testing frameworks")
  = Some (py "python testing frameworks").
Proof.
  assert (H := search_directive_invokes_search (U := ascii_only) failing
                 (py "search:") (py " python testing frameworks") None None
                 fresh_client [] (or_introl eq_refl)).
  assert (Q : py_strip (py " python testing frameworks") <> [])
    by (vm_compute; discriminate).
  destruct (H Q) as [D _]. exact D.
Defined.

(** C8 as stated fails on the message "search:": its prefix is a search
    prefix and its remainder is empty, yet no query is detected and the turn
    asks nothing of the search (the log of calls is unchanged, the message
    unchanged). *)
Lemma bare_search_directive_is_not_searched :
  is_search_prefix (py "search:")
  /\ py_strip [] = []
  /\ forall (U : Unicode) (C : Gemini.collaborators)
            (c : Gemini.client) (log : list Gemini.event),
       Gemini._detect_search_query (py "search:" ++ []) = None
       /\ Gemini.enhance C (py "search:" ++ []) (c, log)
          = (Gemini.Returned (py "search:"), (c, log)).
Proof.
  split; [left; reflexivity|]. split; [reflexivity|].
  intros U C c log.
  assert (D : Gemini._detect_search_query (py "search:" ++ []) = None)
    by (vm_compute; reflexivity).
  split; [exact D|].
  unfold Gemini.enhance. rewrite D. reflexivity.
Qed.

Lemma chat_generation_failure_is_a_reply_witness :
  fst (failed_turn ascii_only) = Gemini.Returned (error_reply (py "quota")).
Proof.
  destruct (chat_generation_failure_is_a_reply (U := ascii_only) failing
              (py "hello") (Some (py "s1")) None (fresh_client, []))
    as [p [w1 [_ [_ H]]]].
  unfold failed_turn. rewrite (H (py "quota") eq_refl). reflexivity.
Defined.

(** C10 as stated fails on the first turn of a client whose store holds a
    message: the history in memory is empty before the turn and holds two
    entries after it, the stored message and the message of the user. *)
Lemma failed_turn_reloads_stored_history :
  Gemini.conversation_history fresh_client = []
  /\ forall U : Unicode,
       fst (failed_turn U) = Gemini.Returned (error_reply (py "quota"))
       /\ Gemini.conversation_history (fst (snd (failed_turn U)))
          = stored_history ++ [user_entry None (py "hello")]
       /\ Gemini.conversation_history (fst (snd (failed_turn U)))
          <> Gemini.conversation_history fresh_client ++ [user_entry None (py "hello")].
Proof.
  split; [reflexivity|]. intros U.
  assert (E : failed_turn U
              = (Gemini.Returned (error_reply (py "quota")),
                 (Gemini.set_history (stored_history ++ [user_entry None (py "hello")])
                    (Gemini.set_id (Some (py "c1")) fresh_client),
                  [Gemini.GetOrCreateConversation (py "s1");
                   Gemini.GetConversationHistory (py "c1");
                   Gemini.SaveMessage (py "c1") (py "user") (py "hello");
                   Gemini.GenerateContent
                     (py "SYS\n\nUser: old\n\nUser: hello\n\nAssistant:")])))
    by (vm_compute; reflexivity).
  rewrite E. cbn [fst snd Gemini.conversation_history Gemini.set_history].
  split; [reflexivity|]. split; [reflexivity|]. discriminate.
Qed.

Lemma failed_turn_appends_the_user_entry_witness :
  exists c2 ev,
    failed_turn ascii_only = (Gemini.Returned (error_reply (py "quota")), (c2, ev)).
Proof.
  destruct (failed_turn_appends_the_user_entry (U := ascii_only) failing
              (py "hello") (Some (py "s1")) None fresh_client [])
    as [c1 [log1 [m [p [ev [_ [_ [_ [_ [_ H]]]]]]]]]].
  destruct (H (py "quota") eq_refl) as [c2 [Hc _]].
  exists c2, ([] ++ ev). exact Hc.
Defined.

(** ** The extractor: three strategies in cascade *)

Section Cascade.
Context {U : Unicode}.
Import Front.

Definition nonblank (m : str) : bool :=
  negb (is_empty m) && negb (is_empty (py_strip m)).

Definition nonempty (m : str) : bool := negb (is_empty m).

(** The candidates of each strategy, as the design document words them:
    the fenced blocks tagged mermaid; the fenced blocks that look like a
    diagram; the unfenced blocks that start with flowchart or graph. *)
Definition strategy1 (text : str) : list str :=
  map py_strip (filter nonblank (findall1 fenced_mermaid text)).

Definition strategy2 (text : str) : list str :=
  filter looks_like_mermaid
    (filter nonempty
       (map py_strip (findall1 fenced_backticks text ++ findall1 fenced_tildes text))).

Definition strategy3 (text : str) : list str :=
  filter nonempty (map py_strip (findall0 inline_block text)).

Lemma fold_add_mermaid (l acc : list str) :
  fold_left add_mermaid l acc = acc ++ map py_strip (filter nonblank l).
Proof.
  revert acc. induction l as [|m l IH]; intros acc; simpl.
  - now rewrite app_nil_r.
  - rewrite IH. unfold add_mermaid, nonblank.
    destruct (negb (is_empty m) && negb (is_empty (py_strip m))); simpl.
    + now rewrite <- app_assoc.
    + reflexivity.
Qed.

Lemma fold_add_fenced (l acc : list str) :
  fold_left add_fenced l acc
  = acc ++ filter looks_like_mermaid (filter nonempty (map py_strip l)).
Proof.
  revert acc. induction l as [|m l IH]; intros acc; simpl.
  - now rewrite app_nil_r.
  - rewrite IH. unfold add_fenced, nonempty.
    destruct (is_empty (py_strip m)); simpl; [reflexivity|].
    destruct (looks_like_mermaid (py_strip m)); simpl.
    + now rewrite <- app_assoc.
    + reflexivity.
Qed.

Lemma fold_add_inline (l acc : list str) :
  fold_left add_inline l acc = acc ++ filter nonempty (map py_strip l).
Proof.
  revert acc. induction l as [|m l IH]; intros acc; simpl.
  - now rewrite app_nil_r.
  - rewrite IH. unfold add_inline, nonempty.
    destruct (is_empty (py_strip m)); simpl.
    + reflexivity.
    + now rewrite <- app_assoc.
Qed.

(** The extractor is the first strategy that has a candidate. *)
Lemma extract_mermaid_diagrams_cascade (text : str) :
  extract_mermaid_diagrams text =
  match strategy1 text with
  | _ :: _ => strategy1 text
  | [] => match strategy2 text with
          | _ :: _ => strategy2 text
          | [] => strategy3 text
          end
  end.
Proof.
  destruct text as [|c text]; [reflexivity|].
  unfold extract_mermaid_diagrams. cbn [is_empty].
  rewrite fold_add_mermaid. cbn [app]. fold (strategy1 (c :: text)).
  destruct (strategy1 (c :: text)) as [|d ds]; cbn [is_empty]; [|reflexivity].
  rewrite fold_add_fenced. cbn [app]. fold (strategy2 (c :: text)).
  destruct (strategy2 (c :: text)) as [|e es]; cbn [is_empty]; [|reflexivity].
  rewrite fold_add_inline. reflexivity.
Qed.

(** C2.  The three strategies are tried in order and the first that yields
    a candidate decides the result alone: when the fenced mermaid blocks
    yield a candidate the result is exactly their candidates; otherwise,
    when the generic fenced blocks yield one, the result is exactly theirs;
    otherwise the result is that of the unfenced blocks. *)
Theorem extract_stops_at_first_strategy :
  forall text : str,
    (strategy1 text <> [] -> extract_mermaid_diagrams text = strategy1 text)
    /\ (strategy1 text = [] -> strategy2 text <> [] ->
        extract_mermaid_diagrams text = strategy2 text)
    /\ (strategy1 text = [] -> strategy2 text = [] ->
        extract_mermaid_diagrams text = strategy3 text).
Proof.
  intros text. rewrite extract_mermaid_diagrams_cascade.
  split; [|split].
  - intros H. destruct (strategy1 text); [contradiction | reflexivity].
  - intros -> H. destruct (strategy2 text); [contradiction | reflexivity].
  - intros -> ->. reflexivity.
Qed.

End Cascade.

Lemma extract_stops_at_first_strategy_witness :
  Front.extract_mermaid_diagrams (U := ascii_only)
    (py "```mermaid\ngraph TD\n```\n```\nA-->B\n```\n\ngraph LR")
  = [py "graph TD"].
Proof.
  assert (H := extract_stops_at_first_strategy (U := ascii_only)
                 (py "```mermaid\ngraph TD\n```\n```\nA-->B\n```\n\ngraph LR")).
  destruct H as [H _]. rewrite H.
  - vm_compute. reflexivity.
  - vm_compute. discriminate.
Defined.

(** ** Lines *)

Definition free_of (sep : N) (l : str) : Prop := Forall (fun c => (c =? sep) = false) l.

Lemma py_split_not_nil (sep : N) (s : str) : py_split sep s <> [].
Proof.
  destruct s as [|c s]; simpl; [discriminate|].
  destruct (c =? sep); [discriminate|].
  destruct (py_split sep s); discriminate.
Qed.

Lemma py_split_free (sep : N) (l : str) : free_of sep l -> py_split sep l = [l].
Proof.
  induction 1 as [|c l Hc _ IH]; simpl; [reflexivity|]. now rewrite Hc, IH.
Qed.

Lemma py_split_app_sep (sep : N) (l t : str) :
  free_of sep l -> py_split sep (l ++ sep :: t) = l :: py_split sep t.
Proof.
  induction 1 as [|c l Hc _ IH]; simpl.
  - now rewrite N.eqb_refl.
  - now rewrite Hc, IH.
Qed.

Lemma py_split_lines_free (sep : N) (s : str) : Forall (free_of sep) (py_split sep s).
Proof.
  induction s as [|c s IH]; simpl.
  - repeat constructor.
  - destruct (c =? sep) eqn:E.
    + constructor; [constructor | exact IH].
    + destruct (py_split sep s) as [|l ls]; [repeat constructor; exact E|].
      inversion IH; subst. constructor; [constructor; assumption | assumption].
Qed.

Lemma py_join_cons (sep l : str) (ls : list str) :
  ls <> [] -> py_join sep (l :: ls) = l ++ sep ++ py_join sep ls.
Proof. destruct ls; [contradiction | reflexivity]. Qed.

Lemma py_join_split (sep : N) (s : str) : py_join [sep] (py_split sep s) = s.
Proof.
  induction s as [|c s IH]; simpl; [reflexivity|].
  destruct (c =? sep) eqn:E.
  - apply N.eqb_eq in E. subst c.
    rewrite py_join_cons by apply py_split_not_nil. simpl. now rewrite IH.
  - destruct (py_split sep s) as [|l ls] eqn:S; [now destruct (py_split_not_nil _ _ S)|].
    destruct ls as [|l' ls].
    + simpl in *. now rewrite IH.
    + change (py_join [sep] ((c :: l) :: l' :: ls))
        with (c :: (l ++ [sep] ++ py_join [sep] (l' :: ls))).
      change (py_join [sep] (l :: l' :: ls))
        with (l ++ [sep] ++ py_join [sep] (l' :: ls)) in IH.
      now rewrite IH.
Qed.

Lemma py_split_join (sep : N) (ls : list str) :
  ls <> [] -> Forall (free_of sep) ls -> py_split sep (py_join [sep] ls) = ls.
Proof.
  intros Hne H. induction H as [|l ls Hl Hls IH]; [contradiction|].
  destruct ls as [|l' ls].
  - simpl. now apply py_split_free.
  - rewrite py_join_cons by discriminate.
    change ([sep] ++ py_join [sep] (l' :: ls)) with (sep :: py_join [sep] (l' :: ls)).
    rewrite py_split_app_sep by exact Hl. rewrite IH by discriminate. reflexivity.
Qed.

(** A line of [s] is a part of [s]. *)
Lemma py_split_line_in (sep : N) (s l : str) :
  In l (py_split sep s) -> exists a b, s = a ++ l ++ b.
Proof.
  assert (G : forall ls, In l ls -> exists a b, py_join [sep] ls = a ++ l ++ b);
    [|intros H; destruct (G _ H) as [a [b E]]; rewrite py_join_split in E; eauto].
  intros ls. induction ls as [|x ls IH]; [intros []|].
  intros [-> | Hin].
  - destruct ls as [|y ls].
    + exists [], []. simpl. now rewrite app_nil_r.
    + exists [], ([sep] ++ py_join [sep] (y :: ls)). reflexivity.
  - destruct ls as [|y ls]; [destruct Hin|].
    destruct (IH Hin) as [a [b E]]. rewrite py_join_cons by discriminate.
    exists (x ++ [sep] ++ a), b. rewrite E, <- !app_assoc. reflexivity.
Qed.

(** ** What the steps of the sanitizer keep *)

Lemma Forall_lstrip_by (P : N -> Prop) (f : N -> bool) (s : str) :
  Forall P s -> Forall P (lstrip_by f s).
Proof.
  induction 1 as [|c s Hc Hs IH]; simpl; [constructor|].
  destruct (f c); [exact IH | now constructor].
Qed.

Lemma Forall_rstrip_by (P : N -> Prop) (f : N -> bool) (s : str) :
  Forall P s -> Forall P (rstrip_by f s).
Proof.
  intros H. unfold rstrip_by. apply Forall_rev, Forall_lstrip_by, Forall_rev, H.
Qed.

Lemma Forall_py_strip (P : N -> Prop) (s : str) : Forall P s -> Forall P (py_strip s).
Proof. intros H. apply Forall_rstrip_by, Forall_lstrip_by, H. Qed.

Lemma Forall_py_split (P : N -> Prop) (sep : N) (s : str) :
  Forall P s -> Forall (Forall P) (py_split sep s).
Proof.
  induction 1 as [|c s Hc Hs IH]; simpl; [repeat constructor|].
  destruct (c =? sep).
  - constructor; [constructor | exact IH].
  - destruct (py_split sep s) as [|l ls]; [repeat constructor; exact Hc|].
    inversion IH; subst. constructor; [now constructor | assumption].
Qed.

Lemma Forall_py_join (P : N -> Prop) (sep : str) (ls : list str) :
  Forall P sep -> Forall (Forall P) ls -> Forall P (py_join sep ls).
Proof.
  intros Hs H. induction H as [|l ls Hl Hls IH]; [constructor|].
  destruct ls as [|l' ls]; [exact Hl|].
  rewrite py_join_cons by discriminate. rewrite !Forall_app. auto.
Qed.

(** The scan leaves code points of the subject, in their order. *)
Lemma Forall_gaps_scan (P : N -> Prop) (n : nat) (r : regex) (s : str) :
  Forall P s -> forall skip, Forall P (gaps (scan n r skip s)).
Proof.
  induction 1 as [|c s Hc Hs IH]; intros skip.
  - destruct skip; simpl; [|constructor].
    match goal with
    | |- context [rmatch ?a ?b ?st] =>
        destruct (rmatch a b st) as [|[rest g] others]
    end; simpl; [constructor|].
    destruct (find (shorter []) others) as [[rest2 g2]|]; simpl; constructor.
  - destruct skip; simpl; [|apply IH].
    match goal with
    | |- context [rmatch ?a ?b ?st] =>
        destruct (rmatch a b st) as [|[rest g] others]
    end; simpl.
    + constructor; [exact Hc | apply IH].
    + destruct (length rest) as [|k]; simpl; [apply IH|].
      destruct (length s - k)%nat; simpl; [|apply IH].
      destruct (find (shorter (c :: s)) others) as [[rest2 g2]|]; simpl.
      * apply IH.
      * constructor; [exact Hc | apply IH].
Qed.

(** ** The sanitizer *)

(** The code points the sanitizer brings back to ASCII: ASCII itself, the
    four curly quotes and the no-break space. *)
Definition plain (c : N) : bool :=
  is_ascii c || (c =? 8220) || (c =? 8221) || (c =? 8216) || (c =? 8217) || (c =? 160).

Definition ascii_str (s : str) : Prop := Forall (fun c => is_ascii c = true) s.
Definition plain_str (s : str) : Prop := Forall (fun c => plain c = true) s.

Definition keywords : list str :=
  [py "flowchart"; py "graph"; py "sequence"; py "gantt"].

Lemma forallb_free_of (sep : N) (l : str) :
  forallb (fun c => negb (c =? sep)) l = true -> free_of sep l.
Proof.
  intros H. apply Forall_forall. intros c Hc.
  rewrite forallb_forall in H. specialize (H c Hc). now destruct (c =? sep).
Qed.

Lemma forallb_ascii_str (l : str) : forallb is_ascii l = true -> ascii_str l.
Proof.
  intros H. apply Forall_forall. intros c Hc.
  rewrite forallb_forall in H. exact (H c Hc).
Qed.

(** The five replacements of lines 209 to 211, on one code point. *)
Definition normalize (c : N) : N :=
  (fun c => if c =? 160 then 32 else c)
    ((fun c => if c =? 8217 then 39 else c)
       ((fun c => if c =? 8216 then 39 else c)
          ((fun c => if c =? 8221 then 34 else c)
             ((fun c => if c =? 8220 then 34 else c) c)))).

Lemma normalize_plain (c : N) : plain c = true -> is_ascii (normalize c) = true.
Proof.
  unfold plain, is_ascii, normalize. cbv beta.
  destruct (N.eqb_spec c 8220) as [->|H1]; [reflexivity|].
  destruct (N.eqb_spec c 8221) as [->|H2]; [reflexivity|].
  destruct (N.eqb_spec c 8216) as [->|H3]; [reflexivity|].
  destruct (N.eqb_spec c 8217) as [->|H4]; [reflexivity|].
  destruct (N.eqb_spec c 160) as [->|H5]; [reflexivity|].
  now rewrite !orb_false_r.
Qed.

Lemma has_header_keywords (low : str) :
  Front.has_header low = existsb (fun kw => py_startswith kw low) keywords.
Proof.
  unfold Front.has_header, keywords. cbn [existsb].
  now rewrite orb_false_r, !orb_assoc.
Qed.

Lemma has_header_intro (kw low : str) :
  In kw keywords -> py_startswith kw low = true -> Front.has_header low = true.
Proof.
  intros Hin H. rewrite has_header_keywords. apply existsb_exists. eauto.
Qed.

Lemma py_startswith_app (kw s t : str) :
  py_startswith kw s = true -> py_startswith kw (s ++ t) = true.
Proof.
  rewrite !py_startswith_spec. intros [x ->]. exists (x ++ t). now rewrite app_assoc.
Qed.

(** A keyword has no line break: it starts the text when it starts its
    first line. *)
Lemma py_startswith_first_line (kw l t : str) :
  free_of 10 kw ->
  py_startswith kw (map ascii_lower (l ++ 10 :: t)) = true ->
  py_startswith kw (map ascii_lower l) = true.
Proof.
  intros Hkw. revert l. induction Hkw as [|a kw Ha _ IH]; intros l; [reflexivity|].
  destruct l as [|c l]; simpl.
  - change (ascii_lower 10) with 10. rewrite Ha. discriminate.
  - rewrite !andb_true_iff. intros [E H]. split; [exact E | now apply IH].
Qed.

Lemma keywords_free (kw : str) : In kw keywords -> free_of 10 kw.
Proof.
  intros H. apply forallb_free_of.
  destruct H as [<- | [<- | [<- | [<- | []]]]]; reflexivity.
Qed.

Lemma Forall_skipn_str (P : N -> Prop) (n : nat) (s : str) :
  Forall P s -> Forall P (skipn n s).
Proof.
  revert s. induction n as [|n IH]; intros s H; [exact H|].
  destruct s as [|c s]; [constructor|]. inversion H; subst. now apply IH.
Qed.

Lemma slice_from_skipn (i : Z) (s : str) : exists k, slice_from i s = skipn k s.
Proof. unfold slice_from. destruct (i <? 0)%Z; eauto. Qed.

Lemma py_join_app (sep : str) (l1 l2 : list str) :
  l1 <> [] -> l2 <> [] ->
  py_join sep (l1 ++ l2) = py_join sep l1 ++ sep ++ py_join sep l2.
Proof.
  intros H1 H2. induction l1 as [|x l1 IH]; [contradiction|].
  destruct l1 as [|y l1].
  - simpl app. now rewrite py_join_cons.
  - change ((x :: y :: l1) ++ l2) with (x :: ((y :: l1) ++ l2)).
    rewrite py_join_cons by (destruct l2; discriminate).
    rewrite IH by discriminate.
    rewrite (py_join_cons sep x (y :: l1)) by discriminate.
    now rewrite <- !app_assoc.
Qed.

(** The five lines of [color_defs]. *)
Definition class_def_lines : list str :=
  [py "classDef foundation fill:#4d94ff,color:#000,stroke:#333,stroke-width:2px";
   py "classDef core fill:#33cc33,color:#000,stroke:#333,stroke-width:2px";
   py "classDef practice fill:#ff9900,color:#000,stroke:#333,stroke-width:2px";
   py "classDef project fill:#9933ff,color:#fff,stroke:#333,stroke-width:2px";
   py "classDef review fill:#ff3333,color:#fff,stroke:#333,stroke-width:2px"].

Lemma color_defs_lines : Front.color_defs = py_join [10] class_def_lines.
Proof. vm_compute. reflexivity. Qed.

Lemma class_def_lines_free : Forall (free_of 10) class_def_lines.
Proof. repeat (constructor; [apply forallb_free_of; vm_compute; reflexivity|]). constructor. Qed.

Lemma class_def_lines_ascii : Forall ascii_str class_def_lines.
Proof. repeat (constructor; [apply forallb_ascii_str; vm_compute; reflexivity|]). constructor. Qed.

Section Sanitizer.
Context {U : Unicode}.
Import Front.

(** The code points of the cleaned text are those of the candidate, with
    the quotes and the no-break space replaced, and line breaks. *)
Lemma clean_body_forall (P Q : N -> Prop) (x : str) :
  (forall c, Q c -> P (normalize c)) -> P 10 ->
  Forall Q x -> Forall P (clean_body x).
Proof.
  intros N0 P10 H. unfold clean_body.
  apply Forall_py_strip, Forall_py_join; [repeat constructor; exact P10|].
  apply incl_Forall with
    (l1 := map (fun ln => py_rstrip (py_lstrip (py "> ") ln))
               (py_split 10
                  (py_replace 160 32
                     (py_replace 8217 39
                        (py_replace 8216 39
                           (py_replace 8221 34
                              (py_replace 8220 34
                                 (py_strip (sub_empty fence_marks x))))))))).
  { intros l Hl. apply filter_In in Hl. exact (proj1 Hl). }
  apply Forall_map.
  eapply Forall_impl;
    [intros l Hl; apply Forall_rstrip_by, Forall_lstrip_by; exact Hl|].
  apply Forall_py_split.
  unfold py_replace. rewrite !map_map. apply Forall_map.
  eapply Forall_impl; [intros c Hc; exact (N0 c Hc)|].
  apply Forall_py_strip. unfold sub_empty. apply Forall_gaps_scan. exact H.
Qed.

Lemma clean_body_ascii (x : str) : plain_str x -> ascii_str (clean_body x).
Proof.
  apply clean_body_forall; [exact normalize_plain | reflexivity].
Qed.

Lemma ensure_header_cases (low cleaned : str) :
  ensure_header low cleaned = cleaned /\ has_header low = true
  \/ (has_header low = false
      /\ ((exists kw, In kw [py "flowchart"; py "graph"] /\ py_in kw low = true
                      /\ ensure_header low cleaned = slice_from (py_find kw low) cleaned)
          \/ (py_in (py "flowchart") low = false /\ py_in (py "graph") low = false
              /\ ensure_header low cleaned = py "flowchart TD\n" ++ cleaned))).
Proof.
  unfold ensure_header. destruct (has_header low); cbn [negb]; [now left|].
  right. split; [reflexivity|].
  destruct (py_in (py "flowchart") low) eqn:F.
  - left. exists (py "flowchart"). split; [now left|]. now split.
  - destruct (py_in (py "graph") low) eqn:G.
    + left. exists (py "graph"). split; [right; now left|]. now split.
    + right. now repeat split.
Qed.

(** After the header step the text starts with a block type, when the
    cleaned text is ASCII. *)
Lemma ensure_header_has_header (cleaned : str) :
  ascii_str cleaned ->
  let body := ensure_header (py_lower cleaned) cleaned in
  ascii_str body /\ has_header (map ascii_lower body) = true.
Proof.
  intros A body. subst body. rewrite (py_lower_ascii cleaned A).
  destruct (ensure_header_cases (map ascii_lower cleaned) cleaned)
    as [[-> H] | [_ [[kw [Hkw [Hin ->]]] | [_ [_ ->]]]]].
  - now split.
  - destruct (py_find_spec kw _ Hin) as [n [-> Hs]]. rewrite slice_from_nat.
    split; [now apply Forall_skipn_str|].
    rewrite <- skipn_map. apply (has_header_intro kw); [|exact Hs].
    destruct Hkw as [<- | [<- | []]]; [now left | right; now left].
  - split.
    + apply Forall_app. split; [apply forallb_ascii_str; reflexivity | exact A].
    + rewrite map_app. apply (has_header_intro (py "flowchart")); [now left|].
      apply py_startswith_app. reflexivity.
Qed.

Lemma add_class_defs_cases (low body : str) :
  (add_class_defs low body = body
   /\ negb (py_in (py "classdef") low) && py_in (py ":::") body = false)
  \/ (exists header rest,
        py_split 10 body = header :: rest
        /\ negb (py_in (py "classdef") low) && py_in (py ":::") body = true
        /\ add_class_defs low body
           = py_join [10] (header :: class_def_lines ++ rest)).
Proof.
  unfold add_class_defs.
  destruct (negb (py_in (py "classdef") low) && py_in (py ":::") body);
    [right | now left].
  destruct (py_split 10 body) as [|header rest] eqn:S;
    [now destruct (py_split_not_nil _ _ S)|].
  exists header, rest. split; [reflexivity|]. split; [reflexivity|].
  cbn [length Nat.ltb Nat.leb]. unfold list_insert. cbn [firstn skipn app].
  change (py "\n") with [10]. rewrite color_defs_lines.
  rewrite (py_join_cons [10] header (class_def_lines ++ rest)) by discriminate.
  rewrite py_join_cons by discriminate. f_equal. f_equal.
  destruct rest as [|r rest].
  - now rewrite app_nil_r.
  - rewrite py_join_app by discriminate. now rewrite py_join_cons by discriminate.
Qed.

Lemma add_class_defs_has_header (low body : str) :
  ascii_str body -> has_header (map ascii_lower body) = true ->
  ascii_str (add_class_defs low body)
  /\ has_header (map ascii_lower (add_class_defs low body)) = true.
Proof.
  intros A H.
  destruct (add_class_defs_cases low body) as [[-> _] | [header [rest [S [_ ->]]]]];
    [now split|].
  assert (B : body = py_join [10] (header :: rest))
    by (rewrite <- S; symmetry; apply py_join_split).
  assert (Fh : free_of 10 header).
  { pose proof (py_split_lines_free 10 body) as F. rewrite S in F. now inversion F. }
  assert (Al : Forall ascii_str (header :: rest)).
  { rewrite <- S. apply Forall_py_split. exact A. }
  split.
  - apply Forall_py_join; [repeat constructor|].
    inversion Al; subst. constructor; [assumption|].
    apply Forall_app. split; [apply class_def_lines_ascii | assumption].
  - rewrite py_join_cons by discriminate.
    rewrite has_header_keywords in H. apply existsb_exists in H as [kw [Hkw Hs]].
    apply (has_header_intro kw _ Hkw). rewrite map_app. apply py_startswith_app.
    destruct rest as [|r rest].
    + now rewrite B in Hs.
    + rewrite B, py_join_cons in Hs by discriminate.
      apply (py_startswith_first_line kw header (py_join [10] (r :: rest)));
        [now apply keywords_free | exact Hs].
Qed.

(** *** Lower case that keeps the place of the code points

    [low.find] answers an index in the lower-cased text, and line 224 (or
    227) cuts the text itself at that index: the two agree when the lower
    case of every code point is one code point.  As the lower case of a code
    point may depend on its neighbours, which the cut changes, a code point
    outside ASCII is asked to have the same lower case everywhere, or a
    lower case outside ASCII everywhere (no keyword has such a letter). *)
Definition lower_one (c : N) : Prop :=
  is_ascii c = true
  \/ (exists l, forall before after, uni_lower before c after = [l])
  \/ (forall before after,
        exists l, uni_lower before c after = [l] /\ is_ascii l = false).

(** The lower case of a code point that stands alone. *)
Definition lower_alone (c : N) : N :=
  if is_ascii c then ascii_lower c else hd c (uni_lower [] c []).

(** Two code points that no ASCII letter tells apart. *)
Definition alike (l l' : N) : Prop :=
  l = l' \/ (is_ascii l = false /\ is_ascii l' = false).

Lemma lower_from_alike (s : str) :
  Forall lower_one s ->
  forall before, Forall2 alike (lower_from before s) (map lower_alone s).
Proof.
  induction 1 as [|c s Hc _ IH]; intros before; cbn [lower_from map]; [constructor|].
  unfold lower_alone at 1.
  destruct (is_ascii c) eqn:A.
  - constructor; [now left | apply IH].
  - destruct Hc as [Hc | [[l Hl] | Hn]]; [congruence | |].
    + rewrite !Hl. constructor; [now left | apply IH].
    + destruct (Hn before s) as [l [-> Al]]. destruct (Hn [] []) as [l' [-> Al']].
      constructor; [right; now split | apply IH].
Qed.

Lemma py_startswith_alike (kw a b : str) :
  ascii_str kw -> Forall2 alike a b -> py_startswith kw a = py_startswith kw b.
Proof.
  intros Hkw. revert a b. induction Hkw as [|k kw Hk _ IH]; intros a b H; [reflexivity|].
  destruct H as [|l l' a b Hl H]; [reflexivity|]. cbn [py_startswith].
  rewrite (IH a b H). f_equal.
  destruct Hl as [-> | [Al Al']]; [reflexivity|].
  destruct (N.eqb_spec k l) as [->|_]; [congruence|].
  destruct (N.eqb_spec k l') as [->|_]; [congruence | reflexivity].
Qed.

Lemma py_in_alike (kw a b : str) :
  ascii_str kw -> Forall2 alike a b -> py_in kw a = py_in kw b.
Proof.
  intros Hkw H. induction H as [|l l' a b Hl H IH].
  - reflexivity.
  - cbn [py_in]. rewrite IH.
    now rewrite (py_startswith_alike kw (l :: a) (l' :: b) Hkw (Forall2_cons _ _ Hl H)).
Qed.

Lemma py_find_alike (kw a b : str) :
  ascii_str kw -> Forall2 alike a b -> py_find kw a = py_find kw b.
Proof.
  intros Hkw H. induction H as [|l l' a b Hl H IH].
  - reflexivity.
  - cbn [py_find]. rewrite IH.
    now rewrite (py_startswith_alike kw (l :: a) (l' :: b) Hkw (Forall2_cons _ _ Hl H)).
Qed.

Lemma has_header_alike (a b : str) :
  Forall2 alike a b -> has_header a = has_header b.
Proof.
  intros H. unfold has_header.
  rewrite !(fun kw A => py_startswith_alike kw a b A H)
    by (apply forallb_ascii_str; reflexivity).
  reflexivity.
Qed.

Lemma ensure_header_alike (a b cleaned : str) :
  Forall2 alike a b -> ensure_header a cleaned = ensure_header b cleaned.
Proof.
  intros H. unfold ensure_header.
  rewrite (has_header_alike a b H).
  rewrite !(fun kw A => py_in_alike kw a b A H)
    by (apply forallb_ascii_str; reflexivity).
  rewrite !(fun kw A => py_find_alike kw a b A H)
    by (apply forallb_ascii_str; reflexivity).
  reflexivity.
Qed.

Lemma lower_one_normalize (c : N) : lower_one c -> lower_one (normalize c).
Proof.
  intros H. unfold normalize. cbv beta.
  destruct (N.eqb_spec c 8220) as [->|H1]; [now left|].
  destruct (N.eqb_spec c 8221) as [->|H2]; [now left|].
  destruct (N.eqb_spec c 8216) as [->|H3]; [now left|].
  destruct (N.eqb_spec c 8217) as [->|H4]; [now left|].
  destruct (N.eqb_spec c 160) as [->|H5]; [now left | exact H].
Qed.

Lemma lower_one_ascii (s : str) : ascii_str s -> Forall lower_one s.
Proof. apply Forall_impl. intros c Hc. now left. Qed.

Lemma py_startswith_first_line_map (f : N -> N) (kw l t : str) :
  f 10 = 10 -> free_of 10 kw ->
  py_startswith kw (map f (l ++ 10 :: t)) = true ->
  py_startswith kw (map f l) = true.
Proof.
  intros F Hkw. revert l. induction Hkw as [|a kw Ha _ IH]; intros l; [reflexivity|].
  destruct l as [|c l]; cbn [app map py_startswith].
  - rewrite F, Ha. discriminate.
  - rewrite !andb_true_iff. intros [E H]. split; [exact E | now apply IH].
Qed.

(** After the header step the text starts with a block type, in lower
    case. *)
Lemma ensure_header_starts (cleaned : str) :
  Forall lower_one cleaned ->
  let body := ensure_header (py_lower cleaned) cleaned in
  Forall lower_one body /\ has_header (map lower_alone body) = true.
Proof.
  intros A body. subst body. unfold py_lower.
  rewrite (ensure_header_alike _ _ cleaned (lower_from_alike cleaned A [])).
  destruct (ensure_header_cases (map lower_alone cleaned) cleaned)
    as [[-> H] | [_ [[kw [Hkw [Hin ->]]] | [_ [_ ->]]]]].
  - now split.
  - destruct (py_find_spec kw _ Hin) as [n [-> Hs]]. rewrite slice_from_nat.
    split; [now apply Forall_skipn_str|].
    rewrite <- skipn_map. apply (has_header_intro kw); [|exact Hs].
    destruct Hkw as [<- | [<- | []]]; [now left | right; now left].
  - split.
    + apply Forall_app. split; [|exact A].
      apply lower_one_ascii, forallb_ascii_str. reflexivity.
    + rewrite map_app. apply (has_header_intro (py "flowchart")); [now left|].
      apply py_startswith_app. reflexivity.
Qed.

(** The first line of a text that starts with a block type starts with
    it. *)
Lemma first_line_starts (body header : str) (rest : list str) :
  py_split 10 body = header :: rest ->
  has_header (map lower_alone body) = true ->
  has_header (map lower_alone header) = true.
Proof.
  intros S H.
  assert (B : body = py_join [10] (header :: rest))
    by (rewrite <- S; symmetry; apply py_join_split).
  rewrite has_header_keywords in H. apply existsb_exists in H as [kw [Hkw Hs]].
  apply (has_header_intro kw _ Hkw).
  destruct rest as [|r rest].
  - now rewrite B in Hs.
  - rewrite B, py_join_cons in Hs by discriminate.
    apply (py_startswith_first_line_map lower_alone kw header
             (py_join [10] (r :: rest))); [reflexivity | | exact Hs].
    now apply keywords_free.
Qed.

Lemma add_class_defs_starts (low body : str) :
  Forall lower_one body -> has_header (map lower_alone body) = true ->
  Forall lower_one (add_class_defs low body)
  /\ has_header (map lower_alone (add_class_defs low body)) = true.
Proof.
  intros A H.
  destruct (add_class_defs_cases low body) as [[-> _] | [header [rest [S [_ ->]]]]];
    [now split|].
  assert (Al : Forall (Forall lower_one) (header :: rest)).
  { rewrite <- S. apply Forall_py_split. exact A. }
  split.
  - apply Forall_py_join; [repeat constructor; now left|].
    inversion Al; subst. constructor; [assumption|].
    apply Forall_app. split; [|assumption].
    eapply Forall_impl; [exact lower_one_ascii | exact class_def_lines_ascii].
  - rewrite py_join_cons by discriminate.
    pose proof (first_line_starts body header rest S H) as Hh.
    rewrite has_header_keywords in Hh. apply existsb_exists in Hh as [kw [Hkw Hs]].
    apply (has_header_intro kw _ Hkw). rewrite map_app. now apply py_startswith_app.
Qed.

End Sanitizer.

Section ClassDefs.
Context {U : Unicode}.
Import Front.

Lemma py_in_line (w : str) (sep : N) (s l : str) :
  In l (py_split sep s) -> py_in w l = true -> py_in w s = true.
Proof.
  intros Hin H. destruct (py_split_line_in sep s l Hin) as [a [b ->]].
  now apply py_in_app.
Qed.

(** The header step keeps a part of the cleaned text, or puts the default
    header in front: it brings no class definition. *)
Lemma ensure_header_no_class_def (low cleaned : str) :
  py_in (py "classDef") cleaned = false ->
  py_in (py "classDef") (ensure_header low cleaned) = false.
Proof.
  intros H. apply not_true_iff_false. intros E. apply not_true_iff_false in H.
  apply H. clear H.
  destruct (ensure_header_cases low cleaned)
    as [[R _] | [_ [[kw [_ [_ R]]] | [_ [_ R]]]]]; rewrite R in E.
  - exact E.
  - destruct (slice_from_skipn (py_find kw low) cleaned) as [k K]. rewrite K in E.
    now apply py_in_skipn in E.
  - exact E.
Qed.

(** The lines of the result when the definitions are added. *)
Lemma class_defs_after_first_line :
  forall x : str,
    x <> [] ->
    py_in (py ":::") (ensure_header (py_lower (clean_body x)) (clean_body x)) = true ->
    py_in (py "classdef") (py_lower (clean_body x)) = false ->
    exists header rest,
      py_split 10 (ensure_header (py_lower (clean_body x)) (clean_body x))
      = header :: rest
      /\ validate_and_clean_mermaid x
         = Some (py_join (py "\n") (header :: class_def_lines ++ rest))
      /\ py_split 10 (py_join (py "\n") (header :: class_def_lines ++ rest))
         = header :: class_def_lines ++ rest
      /\ filter (py_in (py "classDef")) (header :: class_def_lines ++ rest)
         = class_def_lines.
Proof.
  intros x Hx. unfold validate_and_clean_mermaid.
  destruct x as [|c x]; [contradiction|]. cbn [is_empty]. clear Hx.
  generalize (clean_body (c :: x)). intros cleaned.
  remember (py_lower cleaned) as low eqn:El.
  remember (ensure_header low cleaned) as body eqn:Eb.
  intros Hm Hc.
  destruct (add_class_defs_cases low body) as [[_ F] | [header [rest [S [_ R]]]]].
  { rewrite Hc, Hm in F. discriminate F. }
  exists header, rest. split; [exact S|].
  assert (Fl : Forall (free_of 10) (header :: rest)).
  { rewrite <- S. apply py_split_lines_free. }
  assert (Nc : py_in (py "classDef") body = false).
  { rewrite Eb. apply ensure_header_no_class_def. apply not_true_iff_false. intros E.
    apply (py_in_lower (py "classDef")) in E;
      [|apply forallb_ascii_str; reflexivity].
    change (map ascii_lower (py "classDef")) with (py "classdef") in E.
    rewrite <- El, Hc in E. discriminate E. }
  assert (Nl : forall l, In l (header :: rest) -> py_in (py "classDef") l = false).
  { intros l Hl. apply not_true_iff_false. intros E. rewrite <- S in Hl.
    rewrite (py_in_line _ _ _ _ Hl E) in Nc. discriminate Nc. }
  split; [|split].
  - now rewrite R.
  - change (py "\n") with [10]. apply py_split_join; [intros N0; discriminate N0|].
    inversion Fl; subst. constructor; [assumption|].
    apply Forall_app. split; [apply class_def_lines_free | assumption].
  - cbn [filter]. rewrite (Nl header) by now left.
    rewrite filter_app.
    assert (Fr : filter (py_in (py "classDef")) rest = []).
    { assert (Nr : forall l, In l rest -> py_in (py "classDef") l = false)
        by (intros l Hl; apply Nl; now right).
      clear - Nr. induction rest as [|r rest IH]; [reflexivity|].
      cbn [filter]. rewrite (Nr r) by now left.
      apply IH. intros l Hl. apply Nr. now right. }
    rewrite Fr, app_nil_r. vm_compute. reflexivity.
Qed.

(** C5, as the code has it.  When the text left by the header step
    contains ":::" and the cleaned text before that step has no "classdef" in
    any letter case, the result is the first line of that text, then the
    five class definitions (foundation, core, practice, project, review),
    then the other lines; these five are the only lines of the result that
    contain "classDef".  That first line is the header line (its lower case
    starts with flowchart, graph, sequence or gantt) when the lower case of
    each code point of the candidate is one code point ([lower_one]). *)
Theorem default_class_defs_inserted :
  forall x : str,
    x <> [] ->
    py_in (py ":::") (ensure_header (py_lower (clean_body x)) (clean_body x)) = true ->
    py_in (py "classdef") (py_lower (clean_body x)) = false ->
    exists header rest,
      py_split 10 (ensure_header (py_lower (clean_body x)) (clean_body x))
      = header :: rest
      /\ validate_and_clean_mermaid x
         = Some (py_join (py "\n") (header :: class_def_lines ++ rest))
      /\ py_split 10 (py_join (py "\n") (header :: class_def_lines ++ rest))
         = header :: class_def_lines ++ rest
      /\ filter (py_in (py "classDef")) (header :: class_def_lines ++ rest)
         = class_def_lines
      /\ (Forall lower_one x -> has_header (py_lower header) = true).
Proof.
  intros x Hx Hm Hc.
  destruct (class_defs_after_first_line x Hx Hm Hc) as [header [rest [S [V [P F]]]]].
  exists header, rest. repeat (split; [assumption|]).
  intros Hp.
  assert (A : Forall lower_one (clean_body x)).
  { apply clean_body_forall with (Q := lower_one);
      [exact lower_one_normalize | now left | exact Hp]. }
  destruct (ensure_header_starts _ A) as [A1 H1]. cbv zeta in A1, H1.
  assert (Ah : Forall lower_one header).
  { pose proof (Forall_py_split lower_one 10 _ A1) as Al. rewrite S in Al.
    now inversion Al. }
  unfold py_lower. rewrite (has_header_alike _ _ (lower_from_alike _ Ah [])).
  exact (first_line_starts _ header rest S H1).
Qed.

End ClassDefs.

Lemma default_class_defs_inserted_witness :
  Front.validate_and_clean_mermaid (U := ascii_only) (py "graph TD\nA[x]:::core")
  = Some (py_join (py "\n") (py "graph TD" :: class_def_lines ++ [py "A[x]:::core"]))
  /\ Front.has_header (py_lower (U := ascii_only) (py "graph TD")) = true.
Proof.
  destruct (default_class_defs_inserted (U := ascii_only) (py "graph TD\nA[x]:::core"))
    as [header [rest [S [V [_ [_ H]]]]]].
  - discriminate.
  - vm_compute. reflexivity.
  - vm_compute. reflexivity.
  - vm_compute in S. injection S as <- <-. split; [exact V|].
    apply H. apply Forall_forall. intros c Hc. right. left. exists c. reflexivity.
Defined.

(** C5 as stated fails.  The candidate "A:::b flowchart TD" has a class
    marker and no class definition, in any letter case; so has its cleaned
    body; the result is "flowchart TD", without any class definition: the
    marker stood before the header and went with the text before it.  (Read
    on the text left by the header step, the claim fails on
    "classDef x\nflowchart TD\nA:::b": that text, "flowchart TD\nA:::b", has a
    marker and no class definition, and is the result.) *)
Lemma class_marker_without_default_defs :
  (py_in (py ":::") (py "A:::b flowchart TD") = true
   /\ py_in (py "classdef") (map ascii_lower (py "A:::b flowchart TD")) = false
   /\ forall U : Unicode,
        Front.clean_body (py "A:::b flowchart TD") = py "A:::b flowchart TD"
        /\ Front.validate_and_clean_mermaid (py "A:::b flowchart TD")
           = Some (py "flowchart TD"))
  /\ (py_in (py ":::") (py "flowchart TD\nA:::b") = true
      /\ py_in (py "classdef") (map ascii_lower (py "flowchart TD\nA:::b")) = false
      /\ forall U : Unicode,
           Front.validate_and_clean_mermaid (py "classDef x\nflowchart TD\nA:::b")
           = Some (py "flowchart TD\nA:::b")).
Proof.
  split; (split; [reflexivity|]); (split; [reflexivity|]); intros U.
  - split; vm_compute; reflexivity.
  - vm_compute. reflexivity.
Qed.

(** ** The matcher *)

(** [st'] is the first state in which [r] ends: the match of Python. *)
Definition first_match (n : nat) (r : regex) (st st' : mstate) : Prop :=
  exists others, rmatch n r st = st' :: others.

Lemma first_match_seq (n : nat) (r1 r2 : regex) (st st1 st2 : mstate) :
  first_match n r1 st st1 -> first_match n r2 st1 st2 ->
  first_match n (Seq r1 r2) st st2.
Proof.
  intros [o1 H1] [o2 H2]. unfold first_match. cbn [rmatch].
  rewrite H1. cbn [flat_map]. rewrite H2. simpl. eauto.
Qed.

Lemma first_match_chr (n : nat) (p : charset) (c : N) (s : str) (g : captures) :
  p c = true -> first_match n (Chr p) (c :: s, g) (s, g).
Proof. intros H. exists []. cbn [rmatch fst snd]. now rewrite H. Qed.

Lemma first_match_grp (n i : nat) (r : regex) (m s : str) (g g' : captures) :
  first_match n r (m ++ s, g) (s, g') ->
  first_match n (Grp i r) (m ++ s, g) (s, (i, m) :: g').
Proof.
  intros [o H]. unfold first_match. cbn [rmatch]. rewrite H. cbn [map fst snd].
  rewrite length_app. replace (length m + length s - length s)%nat with (length m) by lia.
  rewrite firstn_app, firstn_all, Nat.sub_diag. cbn [firstn]. rewrite app_nil_r.
  eauto.
Qed.

(** The greedy repetition goes first as far as the class allows. *)
Lemma rep_greedy_stop (p : charset) (s : str) :
  match s with [] => True | c :: _ => p c = false end ->
  rep_greedy p 0 s = [s].
Proof. destruct s as [|c s]; simpl; [reflexivity|]. now intros ->. Qed.

Lemma rep_greedy_first (p : charset) (w t : str) (min : nat) :
  Forall (fun c => p c = true) w ->
  match t with [] => True | c :: _ => p c = false end ->
  (min <= length w)%nat ->
  exists others, rep_greedy p min (w ++ t) = t :: others.
Proof.
  intros Hw Ht. revert min. induction Hw as [|c w Hc _ IH]; intros min Hmin.
  - simpl in Hmin. replace min with 0%nat by lia. simpl app.
    rewrite rep_greedy_stop by exact Ht. eauto.
  - cbn [app rep_greedy]. rewrite Hc.
    destruct (IH (Nat.pred min)) as [o Ho]; [simpl in Hmin; lia|].
    rewrite Ho. simpl. eauto.
Qed.

Lemma first_match_rep_greedy (n : nat) (p : charset) (min : nat) (w t : str)
    (g : captures) :
  Forall (fun c => p c = true) w ->
  match t with [] => True | c :: _ => p c = false end ->
  (min <= length w)%nat ->
  first_match n (Rep true min p) (w ++ t, g) (t, g).
Proof.
  intros Hw Ht Hmin. destruct (rep_greedy_first p w t min Hw Ht Hmin) as [o Ho].
  unfold first_match. cbn [rmatch fst snd]. rewrite Ho. simpl. eauto.
Qed.

Lemma cat_cons (r : regex) (rs : list regex) :
  rs <> [] -> cat (r :: rs) = Seq r (cat rs).
Proof. destruct rs; [contradiction | reflexivity]. Qed.

Lemma first_match_str (n : nat) (w : str) (f : N -> charset) (m s : str)
    (g : captures) :
  Forall2 (fun a c => f a c = true) w m ->
  first_match n (cat (map (fun a => Chr (f a)) w)) (m ++ s, g) (s, g).
Proof.
  induction 1 as [|a c w m Hac Hwm IH].
  - exists []. reflexivity.
  - destruct w as [|a' w].
    + inversion Hwm; subst. cbn [map cat app]. now apply first_match_chr.
    + cbn [map]. rewrite cat_cons by discriminate.
      eapply first_match_seq; [apply first_match_chr; exact Hac | exact IH].
Qed.

Lemma first_match_Str (n : nat) (w s : str) (g : captures) :
  first_match n (Str w) (w ++ s, g) (s, g).
Proof.
  apply (first_match_str n w N.eqb). induction w; constructor.
  - apply N.eqb_refl.
  - assumption.
Qed.

(** Every state in which a pattern ends is a suffix of the state in which
    it started. *)
Lemma rep_lazy_suffix (p : charset) (s s' : str) (min : nat) :
  In s' (rep_lazy p min s) ->
  exists m, s = m ++ s' /\ Forall (fun c => p c = true) m /\ (min <= length m)%nat.
Proof.
  revert min. induction s as [|c s IH]; intros min; cbn [rep_lazy].
  - rewrite app_nil_r. destruct min; [|intros []].
    intros [<- | []]. exists []. repeat split; [constructor | reflexivity].
  - rewrite in_app_iff. intros [H | H].
    + destruct min; [|destruct H]. destruct H as [<- | []].
      exists []. repeat split; [constructor | reflexivity].
    + destruct (p c) eqn:E; [|destruct H].
      destruct (IH _ H) as [m [-> [Hm Hl]]]. exists (c :: m).
      repeat split; [now constructor | simpl; lia].
Qed.

Lemma rep_greedy_suffix (p : charset) (s s' : str) (min : nat) :
  In s' (rep_greedy p min s) ->
  exists m, s = m ++ s' /\ Forall (fun c => p c = true) m /\ (min <= length m)%nat.
Proof.
  revert min. induction s as [|c s IH]; intros min; cbn [rep_greedy].
  - cbn [app]. destruct min; [|intros []].
    intros [<- | []]. exists []. repeat split; [constructor | reflexivity].
  - rewrite in_app_iff. intros [H | H].
    + destruct (p c) eqn:E; [|destruct H].
      destruct (IH _ H) as [m [-> [Hm Hl]]]. exists (c :: m).
      repeat split; [now constructor | simpl; lia].
    + destruct min; [|destruct H]. destruct H as [<- | []].
      exists []. repeat split; [constructor | reflexivity].
Qed.

Lemma rmatch_suffix (n : nat) (r : regex) (st st' : mstate) :
  In st' (rmatch n r st) -> exists m, fst st = m ++ fst st'.
Proof.
  revert st st'. induction r as [|p|r1 IH1 r2 IH2|r1 IH1 r2 IH2|gr min p|r1 IH1|i r1 IH1| | |r1 IH1];
    intros [s g] st'; cbn [rmatch fst snd].
  - intros [<- | []]. now exists [].
  - destruct s as [|c s]; [intros []|]. destruct (p c); [|intros []].
    intros [<- | []]. now exists [c].
  - rewrite in_flat_map. intros [st1 [H1 H2]].
    destruct (IH1 _ _ H1) as [m1 E1]. destruct (IH2 _ _ H2) as [m2 E2].
    simpl in E1. exists (m1 ++ m2). now rewrite <- app_assoc, <- E2.
  - rewrite in_app_iff. intros [H | H]; [apply (IH1 _ _ H) | apply (IH2 _ _ H)].
  - rewrite in_map_iff. intros [s' [<- H]]. cbn [fst].
    destruct gr.
    + destruct (rep_greedy_suffix _ _ _ _ H) as [m [E _]]. eauto.
    + destruct (rep_lazy_suffix _ _ _ _ H) as [m [E _]]. eauto.
  - rewrite in_app_iff. intros [H | [<- | []]]; [apply (IH1 _ _ H) | now exists []].
  - rewrite in_map_iff. intros [st1 [<- H]]. cbn [fst]. apply (IH1 _ _ H).
  - destruct (Nat.eqb (length s) n); [|intros []]. intros [<- | []]. now exists [].
  - destruct s as [|c s]; [intros [<- | []]; now exists []|].
    destruct s; [|intros []]. destruct (c =? 10); [|intros []].
    intros [<- | []]. now exists [].
  - destruct (rmatch n r1 (s, g)); [intros []|]. intros [<- | []]. now exists [].
Qed.

Lemma in_rmatch_seq (n : nat) (r1 r2 : regex) (st st' : mstate) :
  In st' (rmatch n (Seq r1 r2) st) <->
  exists st1, In st1 (rmatch n r1 st) /\ In st' (rmatch n r2 st1).
Proof. cbn [rmatch]. apply in_flat_map. Qed.

(** A literal, matched in any way, stands at the head of the input. *)
Lemma in_rmatch_str (n : nat) (w : str) (f : N -> charset) (st st' : mstate) :
  In st' (rmatch n (cat (map (fun a => Chr (f a)) w)) st) ->
  exists m, fst st = m ++ fst st' /\ Forall2 (fun a c => f a c = true) w m.
Proof.
  revert st. induction w as [|a w IH]; intros [s g].
  - cbn [map cat rmatch]. intros [<- | []]. exists []. split; [reflexivity | constructor].
  - assert (One : forall st0, In st' (rmatch n (Chr (f a)) st0) ->
                   exists c, fst st0 = c :: fst st' /\ f a c = true).
    { intros [s0 g0]. cbn [rmatch fst snd]. destruct s0 as [|c s0]; [intros []|].
      destruct (f a c) eqn:E; [|intros []]. intros [<- | []]. eauto. }
    destruct w as [|a' w].
    + cbn [map cat]. intros H. destruct (One _ H) as [c [E Hc]].
      exists [c]. split; [exact E | repeat constructor; exact Hc].
    + cbn [map]. rewrite cat_cons by discriminate. rewrite in_rmatch_seq.
      intros [st1 [H1 H2]]. destruct (IH _ H2) as [m [E Hm]].
      assert (One1 : exists c, s = c :: fst st1 /\ f a c = true).
      { clear - H1. cbn [rmatch fst snd] in H1. destruct s as [|c s]; [destruct H1|].
        destruct (f a c) eqn:E; [|destruct H1]. destruct H1 as [<- | []]. eauto. }
      destruct One1 as [c [Es Hc]]. exists (c :: m). cbn [fst]. split.
      * now rewrite Es, E.
      * now constructor.
Qed.

Lemma in_rmatch_Str (n : nat) (w : str) (st st' : mstate) :
  In st' (rmatch n (Str w) st) -> fst st = w ++ fst st'.
Proof.
  intros H. destruct (in_rmatch_str n w N.eqb st st' H) as [m [E Hm]].
  rewrite E. f_equal. clear - Hm. induction Hm as [|a c w m Hac _ IH]; [reflexivity|].
  apply N.eqb_eq in Hac. now subst.
Qed.

(** A pattern that ends with a literal leaves the literal before the rest. *)
Lemma in_rmatch_ends_with (n : nat) (rs : list regex) (w : str) (st st' : mstate) :
  In st' (rmatch n (cat (rs ++ [Str w])) st) ->
  exists m, fst st = m ++ w ++ fst st'.
Proof.
  revert st. induction rs as [|r rs IH]; intros st.
  - cbn [app cat]. intros H. exists []. exact (in_rmatch_Str n w st st' H).
  - change ((r :: rs) ++ [Str w]) with (r :: (rs ++ [Str w])).
    rewrite cat_cons by (destruct rs; discriminate). rewrite in_rmatch_seq.
    intros [st1 [H1 H2]]. destruct (rmatch_suffix _ _ _ _ H1) as [m1 E1].
    destruct (IH _ H2) as [m2 E2]. exists (m1 ++ m2).
    now rewrite E1, E2, <- app_assoc.
Qed.

(** ** The scan *)

(** Rewrites the call of the matcher in the goal with the equation [H],
    whatever names its types are written with. *)
Ltac rewrite_rmatch H :=
  match goal with
  | |- context [rmatch ?a ?b ?st] =>
      let X := fresh "X" in
      pose proof (H : rmatch a b st = _) as X; rewrite X; clear X
  end.

Lemma scan_skip (n : nat) (r : regex) (a t : str) :
  scan n r (length a) (a ++ t) = scan n r 0 t.
Proof. induction a as [|c a IH]; [reflexivity | exact IH]. Qed.

Lemma scan_miss (n : nat) (r : regex) (c : N) (s : str) :
  rmatch n r (c :: s, []) = [] -> scan n r 0 (c :: s) = Gap c :: scan n r 0 s.
Proof. intros H. cbn [scan]. now rewrite_rmatch H. Qed.

Lemma scan_end (n : nat) (r : regex) :
  rmatch n r ([], []) = [] -> scan n r 0 [] = [].
Proof. intros H. cbn [scan]. now rewrite_rmatch H. Qed.

Lemma scan_hit (n : nat) (r : regex) (m rest : str) (g : captures) :
  first_match n r (m ++ rest, []) (rest, g) -> m <> [] ->
  scan n r 0 (m ++ rest) = Hit m g :: scan n r 0 rest.
Proof.
  intros [others H] Hm. destruct m as [|c m]; [contradiction|].
  cbn [app] in *. cbn [scan]. rewrite_rmatch H.
  cbn [length]. rewrite length_app.
  replace (S (length m + length rest) - length rest)%nat with (S (length m)) by lia.
  cbn [firstn]. rewrite firstn_app, firstn_all, Nat.sub_diag. cbn [firstn].
  rewrite app_nil_r, scan_skip. reflexivity.
Qed.

(** A stretch of the subject in which no match starts is passed code point
    by code point. *)
Lemma scan_run (n : nat) (r : regex) (sep rest : str) :
  (forall a b, sep = a ++ b -> b <> [] -> rmatch n r (b ++ rest, []) = []) ->
  scan n r 0 (sep ++ rest) = map Gap sep ++ scan n r 0 rest.
Proof.
  induction sep as [|c sep IH]; intros H; [reflexivity|].
  cbn [app map]. rewrite scan_miss.
  - rewrite IH; [reflexivity|]. intros a b E Hb. apply (H (c :: a) b); [|exact Hb].
    now rewrite E.
  - apply (H [] (c :: sep)); [reflexivity | discriminate].
Qed.

Lemma hits_app (p q : list piece) : hits (p ++ q) = hits p ++ hits q.
Proof. unfold hits. apply flat_map_app. Qed.

Lemma gaps_app (p q : list piece) : gaps (p ++ q) = gaps p ++ gaps q.
Proof. unfold gaps. apply flat_map_app. Qed.

Lemma hits_map_Gap (s : str) : hits (map Gap s) = [].
Proof. induction s; [reflexivity | exact IHs]. Qed.

Lemma gaps_map_Gap (s : str) : gaps (map Gap s) = s.
Proof. induction s as [|c s IH]; [reflexivity|]. simpl. now rewrite IH. Qed.

(** No match anywhere: the scan passes the whole subject. *)
Lemma scan_no_match (n : nat) (r : regex) (s : str) :
  (forall a b, s = a ++ b -> rmatch n r (b, []) = []) ->
  scan n r 0 s = map Gap s.
Proof.
  intros H. rewrite <- (app_nil_r s) at 1. rewrite scan_run.
  - rewrite scan_end; [now rewrite app_nil_r|]. apply (H s []). now rewrite app_nil_r.
  - intros a b E _. rewrite app_nil_r. now apply (H a b).
Qed.

(** ** The parser *)

Section Parser.
Context {U : Unicode}.
Import Gemini.

(** An upper-case letter, then word characters. *)
Definition identifier (i : str) : bool :=
  match i with
  | u :: w => is_upper u && forallb isword w
  | [] => false
  end.

(** A label: not empty, without closing bracket. *)
Definition label (l : str) : bool :=
  negb (is_empty l) && forallb (fun c => negb (c =? 93)) l.

Lemma is_upper_isword (c : N) : is_upper c = true -> isword c = true.
Proof.
  unfold isword, is_ascii, is_upper. intros H. rewrite H.
  apply andb_true_iff in H as [_ H]. apply N.leb_le in H.
  destruct (N.ltb_spec c 128); [reflexivity | lia].
Qed.

Lemma cons_not_nil (A : Type) (l : list A) (x : A) (o : list A) :
  l = x :: o -> l <> [].
Proof. intros ->. discriminate. Qed.

Lemma node_first (n : nat) (i l post : str) :
  identifier i = true -> label l = true ->
  first_match n node_pattern (i ++ 91 :: l ++ 93 :: post, [])
    (post, [(2%nat, l); (1%nat, i)]).
Proof.
  intros Hi Hl. destruct i as [|u w]; [discriminate|].
  apply andb_true_iff in Hi as [Hu Hw]. apply andb_true_iff in Hl as [Hne Hl].
  rewrite forallb_forall in Hw, Hl.
  unfold node_pattern. cbn [cat].
  eapply first_match_seq; [|eapply first_match_seq; [|eapply first_match_seq]].
  - apply (first_match_grp n 1 _ (u :: w) (91 :: l ++ 93 :: post) [] []).
    eapply first_match_seq; [apply first_match_chr; exact Hu|].
    apply first_match_rep_greedy; [|reflexivity|apply Nat.le_0_l].
    apply Forall_forall. exact Hw.
  - apply first_match_chr. reflexivity.
  - apply (first_match_grp n 2 _ l (93 :: post)).
    apply first_match_rep_greedy; [|reflexivity|].
    + apply Forall_forall. exact Hl.
    + destruct l; [discriminate | simpl; lia].
  - apply first_match_chr. reflexivity.
Qed.

End Parser.

(** ** Trimmed strings *)

(** Neither the first nor the last code point is white space. *)
Definition trimmed (t : str) : Prop :=
  match t with [] => True | c :: _ => isspace c = false end
  /\ match rev t with [] => True | c :: _ => isspace c = false end.

Lemma lstrip_by_split (f : N -> bool) (s : str) :
  exists l, s = l ++ lstrip_by f s
            /\ Forall (fun c => f c = true) l
            /\ match lstrip_by f s with [] => True | c :: _ => f c = false end.
Proof.
  induction s as [|c s [l [E [Hl Hh]]]]; simpl.
  - exists []. repeat split. constructor.
  - destruct (f c) eqn:Fc.
    + exists (c :: l). repeat split;
        [simpl; f_equal; exact E | now constructor | exact Hh].
    + exists []. repeat split; [constructor | exact Fc].
Qed.

Lemma rstrip_by_split (f : N -> bool) (s : str) :
  exists l, s = rstrip_by f s ++ l
            /\ Forall (fun c => f c = true) l
            /\ match rev (rstrip_by f s) with [] => True | c :: _ => f c = false end.
Proof.
  unfold rstrip_by. destruct (lstrip_by_split f (rev s)) as [l [E [Hl Hh]]].
  exists (rev l). rewrite rev_involutive. repeat split.
  - rewrite <- rev_app_distr, <- E. now rewrite rev_involutive.
  - now apply Forall_rev.
  - exact Hh.
Qed.

Lemma py_strip_decompose (s : str) :
  exists lead trail,
    s = lead ++ py_strip s ++ trail
    /\ Forall (fun c => isspace c = true) lead
    /\ Forall (fun c => isspace c = true) trail
    /\ trimmed (py_strip s).
Proof.
  unfold py_strip.
  destruct (lstrip_by_split isspace s) as [lead [E1 [H1 Hh]]].
  destruct (rstrip_by_split isspace (lstrip_by isspace s)) as [trail [E2 [H2 Hr]]].
  exists lead, trail. split; [now rewrite <- E2|]. split; [exact H1|].
  split; [exact H2|]. split; [|exact Hr].
  destruct (rstrip_by isspace (lstrip_by isspace s)) as [|c t] eqn:R; [exact I|].
  rewrite E2 in Hh. exact Hh.
Qed.

Lemma lstrip_by_all (f : N -> bool) (s : str) :
  Forall (fun c => f c = true) s -> lstrip_by f s = [].
Proof. induction 1 as [|c s Hc _ IH]; simpl; [reflexivity|]. now rewrite Hc. Qed.

Lemma lstrip_by_app_all (f : N -> bool) (l s : str) :
  Forall (fun c => f c = true) l -> lstrip_by f (l ++ s) = lstrip_by f s.
Proof. induction 1 as [|c l Hc _ IH]; simpl; [reflexivity|]. now rewrite Hc. Qed.

Lemma lstrip_by_stop (f : N -> bool) (s : str) :
  match s with [] => True | c :: _ => f c = false end -> lstrip_by f s = s.
Proof. destruct s as [|c s]; simpl; [reflexivity|]. now intros ->. Qed.

Lemma rstrip_by_app_all (f : N -> bool) (s l : str) :
  Forall (fun c => f c = true) l -> rstrip_by f (s ++ l) = rstrip_by f s.
Proof.
  intros H. unfold rstrip_by. rewrite rev_app_distr.
  rewrite lstrip_by_app_all by now apply Forall_rev. reflexivity.
Qed.

Lemma rstrip_by_stop (f : N -> bool) (s : str) :
  match rev s with [] => True | c :: _ => f c = false end -> rstrip_by f s = s.
Proof.
  intros H. unfold rstrip_by. rewrite lstrip_by_stop by exact H. apply rev_involutive.
Qed.

Lemma py_strip_trimmed (t : str) : trimmed t -> py_strip t = t.
Proof.
  intros [H1 H2]. unfold py_strip. rewrite lstrip_by_stop by exact H1.
  now apply rstrip_by_stop.
Qed.

(** Trimming takes the white space off both ends and nothing else. *)
Lemma py_strip_around (lead t trail : str) :
  Forall (fun c => isspace c = true) lead ->
  Forall (fun c => isspace c = true) trail ->
  trimmed t -> py_strip (lead ++ t ++ trail) = t.
Proof.
  intros Hl Ht [H1 H2]. unfold py_strip. rewrite lstrip_by_app_all by exact Hl.
  destruct t as [|c t].
  - simpl. rewrite lstrip_by_all by exact Ht. reflexivity.
  - rewrite lstrip_by_stop by exact H1. rewrite rstrip_by_app_all by exact Ht.
    now apply rstrip_by_stop.
Qed.

Lemma py_strip_idempotent (s : str) : py_strip (py_strip s) = py_strip s.
Proof.
  destruct (py_strip_decompose s) as [_ [_ [_ [_ [_ T]]]]]. now apply py_strip_trimmed.
Qed.

Lemma py_strip_nil_all_space (s : str) :
  py_strip s = [] -> Forall (fun c => isspace c = true) s.
Proof.
  intros H. destruct (py_strip_decompose s) as [lead [trail [E [Hl [Ht _]]]]].
  rewrite H in E. rewrite E. apply Forall_app. now split.
Qed.

Lemma py_startswith_cut (p x y : str) :
  py_startswith p (x ++ y) = true -> (length p <= length x)%nat ->
  py_startswith p x = true.
Proof.
  revert x. induction p as [|a p IH]; intros x H L; [reflexivity|].
  destruct x as [|c x]; [simpl in L; lia|]. simpl in *.
  apply andb_true_iff in H as [-> H]. simpl. apply IH; [exact H | lia].
Qed.

(** ** What the sanitizer answers *)

Section Validity.
Context {U : Unicode}.
Import Front.

(** A candidate of white space only is cleaned to the empty text. *)
Lemma clean_body_blank (x : str) : py_strip x = [] -> clean_body x = [].
Proof.
  intros B. pose proof (py_strip_nil_all_space x B) as W.
  assert (E : sub_empty fence_marks x = x).
  { unfold sub_empty. generalize (length x). intros n.
    assert (G : scan n fence_marks 0 x = map Gap x).
    { apply scan_no_match. intros a b ->. apply Forall_app in W as [_ W].
      unfold fence_marks. change (py "```") with [96; 96; 96].
      cbn [cat Str map rmatch fst snd length].
      destruct W as [|c b Hc _].
      - destruct (Nat.eqb _ n); reflexivity.
      - assert (Hq : (96 =? c) = false).
        { destruct (N.eqb_spec 96 c) as [<-|]; [discriminate Hc | reflexivity]. }
        destruct (Nat.eqb _ n); cbn [flat_map app rmatch fst snd];
          rewrite Hq; reflexivity. }
    rewrite G. apply gaps_map_Gap. }
  unfold clean_body. rewrite E, B. reflexivity.
Qed.

(** C3, as the code has it.  The sanitizer answers [None] exactly for the
    empty candidate.  A candidate of white space only is not refused: it is
    given the default header, "flowchart TD" and a line break.  For every
    non-empty candidate in which the lower case of each code point is one
    code point ([lower_one]), the result is a non-empty string whose lower
    case starts with flowchart, graph, sequence or gantt. *)
Theorem sanitize_valid_or_none :
  forall x : str,
    (validate_and_clean_mermaid x = None <-> x = [])
    /\ (x <> [] -> py_strip x = [] ->
        validate_and_clean_mermaid x = Some (py "flowchart TD\n"))
    /\ (x <> [] -> Forall lower_one x ->
        exists out,
          validate_and_clean_mermaid x = Some out
          /\ out <> []
          /\ has_header (py_lower out) = true).
Proof.
  intros x. split; [|split].
  - unfold validate_and_clean_mermaid. destruct x; simpl; split; congruence.
  - intros Hx B. unfold validate_and_clean_mermaid.
    destruct x as [|c x]; [contradiction|]. cbn [is_empty].
    rewrite (clean_body_blank _ B). reflexivity.
  - intros Hx Hp. unfold validate_and_clean_mermaid.
    destruct x as [|c x]; [contradiction|]. cbn [is_empty].
    eexists. split; [reflexivity|].
    assert (A : Forall lower_one (clean_body (c :: x))).
    { apply clean_body_forall with (Q := lower_one);
        [exact lower_one_normalize | now left | exact Hp]. }
    destruct (ensure_header_starts _ A) as [A1 H1]. cbv zeta in A1, H1.
    destruct (add_class_defs_starts (py_lower (clean_body (c :: x))) _ A1 H1)
      as [A2 H2].
    assert (H3 : has_header (py_lower (add_class_defs (py_lower (clean_body (c :: x)))
                   (ensure_header (py_lower (clean_body (c :: x)))
                      (clean_body (c :: x))))) = true).
    { unfold py_lower at 1.
      rewrite (has_header_alike _ _ (lower_from_alike _ A2 [])). exact H2. }
    split; [|exact H3].
    intros E. rewrite E in H3. discriminate H3.
Qed.

End Validity.

(** The candidate "A[café] --> B", whose é is outside ASCII, with tables in
    which a code point outside ASCII is its own lower case. *)
Lemma sanitize_valid_or_none_witness :
  exists out,
    Front.validate_and_clean_mermaid (U := ascii_only)
      (py "A[caf" ++ [233] ++ py "] --> B") = Some out
    /\ out <> []
    /\ Front.has_header (py_lower (U := ascii_only) out) = true.
Proof.
  apply (sanitize_valid_or_none (U := ascii_only) (py "A[caf" ++ [233] ++ py "] --> B")).
  - discriminate.
  - apply Forall_forall. intros c Hc. right. left. exists c. reflexivity.
Defined.

(** C3 as stated fails on a candidate of one space: it is white space only,
    and the sanitizer answers the default header instead of [None].  It
    fails too on a candidate that starts with a code point whose lower case
    is two code points (as that of U+0130 is): the index found in the
    lower-cased text cuts the text one code point too far, and the result,
    "lowchart TD", starts with no block type. *)
Lemma sanitize_blank_is_not_invalid :
  py_strip (py " ") = []
  /\ (forall U : Unicode,
        Front.validate_and_clean_mermaid (py " ") = Some (py "flowchart TD\n"))
  /\ (forall U : Unicode,
        (forall before after, uni_lower before 304 after = [105; 775]) ->
        Front.validate_and_clean_mermaid (304 :: py "flowchart TD")
        = Some (py "lowchart TD")
        /\ Front.has_header (py_lower (py "lowchart TD")) = false).
Proof.
  split; [reflexivity|]. split; [intros U; vm_compute; reflexivity|].
  intros U H. split; [|reflexivity].
  unfold Front.validate_and_clean_mermaid. cbn [is_empty].
  assert (C : Front.clean_body (304 :: py "flowchart TD") = 304 :: py "flowchart TD")
    by (vm_compute; reflexivity).
  rewrite C.
  assert (L : py_lower (304 :: py "flowchart TD") = 105 :: 775 :: py "flowchart td").
  { unfold py_lower. cbn [lower_from]. change (is_ascii 304) with false. cbv iota.
    rewrite H. reflexivity. }
  rewrite L. reflexivity.
Qed.

(** ** The extractor on texts without diagram *)

Definition fence : str := py "```".
Definition tildes : str := py "~~~".

(** [f] stands twice in [s], the second time after the first. *)
Fixpoint has_two (f s : str) : bool :=
  (py_startswith f s && py_in f (skipn (length f) s))
  || match s with
     | [] => false
     | _ :: s' => has_two f s'
     end.

Lemma has_two_false (f s : str) :
  has_two f s = false -> forall a b c, s <> a ++ f ++ b ++ f ++ c.
Proof.
  intros H a. revert s H. induction a as [|x a IH]; intros s H b c E.
  - assert (T : py_startswith f s && py_in f (skipn (length f) s) = true).
    { rewrite E. cbn [app]. apply andb_true_iff. split.
      - apply py_startswith_spec. eauto.
      - rewrite skipn_app, skipn_all, Nat.sub_diag. cbn [skipn app].
        apply py_in_mid. }
    destruct s; cbn [has_two] in H; rewrite T in H; discriminate H.
  - destruct s as [|y s]; [discriminate E|]. injection E as _ E.
    cbn [has_two] in H. apply orb_false_iff in H as [_ H].
    exact (IH s H b c E).
Qed.

(** A pattern that opens and closes with the literal [f] matches only
    where [f] stands twice. *)
Lemma fenced_shape (n : nat) (f : str) (rs : list regex) (s : str) (g : captures) :
  rmatch n (cat (Str f :: rs ++ [Str f])) (s, g) <> [] ->
  exists m rest, s = f ++ m ++ f ++ rest.
Proof.
  intros H.
  destruct (rmatch n (cat (Str f :: rs ++ [Str f])) (s, g)) as [|st' o] eqn:E;
    [contradiction|].
  assert (Hin : In st' (rmatch n (cat (Str f :: rs ++ [Str f])) (s, g)))
    by (rewrite E; now left).
  rewrite cat_cons in Hin by (destruct rs; discriminate).
  apply in_rmatch_seq in Hin as [st1 [H1 H2]].
  apply in_rmatch_Str in H1. apply in_rmatch_ends_with in H2 as [m E2].
  cbn [fst] in H1. exists m, (fst st'). now rewrite H1, E2.
Qed.

Lemma fenced_no_match (n : nat) (f : str) (rs : list regex) (text a b : str) :
  has_two f text = false -> text = a ++ b ->
  rmatch n (cat (Str f :: rs ++ [Str f])) (b, []) = [].
Proof.
  intros H E.
  destruct (rmatch n (cat (Str f :: rs ++ [Str f])) (b, [])) as [|st o] eqn:R;
    [reflexivity|].
  exfalso. destruct (fenced_shape n f rs b []) as [m [rest Eb]];
    [exact (cons_not_nil _ _ _ _ R)|].
  apply (has_two_false f text H a m rest). now rewrite E, Eb.
Qed.

Section NoDiagram.
Context {U : Unicode}.
Import Front.

(** [s] starts with the letters of [kw], in any case. *)
Fixpoint starts_ci (kw s : str) : bool :=
  match kw, s with
  | [], _ => true
  | _ :: _, [] => false
  | p :: kw', c :: s' => ci_eq p c && starts_ci kw' s'
  end.

Definition starts_keyword (s : str) : bool :=
  starts_ci (py "flowchart") s || starts_ci (py "graph") s.

(** Some line after the first satisfies [f]. *)
Fixpoint later_line (f : str -> bool) (s : str) : bool :=
  match s with
  | [] => false
  | c :: s' => ((c =? 10) && f s') || later_line f s'
  end.

(** The text, or one of its lines, starts with flowchart or graph. *)
Definition keyword_line (text : str) : bool :=
  starts_keyword text || later_line starts_keyword text.

Lemma later_line_false (f : str -> bool) (s a b : str) :
  later_line f s = false -> s = a ++ 10 :: b -> f b = false.
Proof.
  revert s. induction a as [|x a IH]; intros s H E; rewrite E in H;
    cbn [app later_line] in H; apply orb_false_iff in H as [H1 H2].
  - now rewrite N.eqb_refl in H1.
  - exact (IH _ H2 eq_refl).
Qed.

Lemma starts_ci_intro (kw m s : str) :
  Forall2 (fun a c => ci_eq a c = true) kw m -> starts_ci kw (m ++ s) = true.
Proof.
  induction 1 as [|a c kw m Hac _ IH]; [reflexivity|]. cbn [app starts_ci].
  now rewrite Hac, IH.
Qed.

Lemma in_rmatch_StrI (n : nat) (kw : str) (st st' : mstate) :
  In st' (rmatch n (StrI kw) st) -> starts_ci kw (fst st) = true.
Proof.
  intros H. destruct (in_rmatch_str n kw ci_eq st st' H) as [m [E Hm]].
  rewrite E. now apply starts_ci_intro.
Qed.

Lemma inline_no_match (text a b : str) :
  keyword_line text = false -> text = a ++ b ->
  rmatch (length text) inline_block (b, []) = [].
Proof.
  intros H E. apply orb_false_iff in H as [H0 Hl].
  destruct (rmatch (length text) inline_block (b, [])) as [|st o] eqn:R;
    [reflexivity|].
  exfalso.
  assert (Hin : In st (rmatch (length text) inline_block (b, [])))
    by (rewrite R; now left).
  clear R. unfold inline_block in Hin. rewrite cat_cons in Hin by discriminate.
  apply in_rmatch_seq in Hin as [st1 [H1 H2]].
  rewrite cat_cons in H2 by discriminate.
  apply in_rmatch_seq in H2 as [st2 [H2 _]].
  assert (K : starts_keyword (fst st1) = true).
  { cbn [rmatch] in H2. apply in_app_iff in H2 as [H2 | H2];
      apply in_rmatch_StrI in H2; unfold starts_keyword; rewrite H2;
      [reflexivity | apply orb_true_r]. }
  cbn [rmatch] in H1. apply in_app_iff in H1 as [H1 | H1].
  - cbn [fst] in H1. destruct (Nat.eqb_spec (length b) (length text)) as [L|L];
      [|destruct H1].
    destruct H1 as [<- | []]. cbn [fst] in K.
    assert (a = []).
    { rewrite E, length_app in L. destruct a; [reflexivity | simpl in L; lia]. }
    subst a. cbn [app] in E. subst b. rewrite K in H0. discriminate H0.
  - apply (in_rmatch_Str (length text) (py "\n")) in H1. cbn [fst app] in H1.
    change (py "\n") with [10] in H1. cbn [app] in H1.
    rewrite (later_line_false starts_keyword text a (fst st1) Hl) in K;
      [discriminate K|]. now rewrite E, H1.
Qed.

(** On a text without two fences of either kind and without a line that
    starts with flowchart or graph, no strategy finds a candidate. *)
Lemma extract_nothing (text : str) :
  has_two fence text = false -> has_two tildes text = false ->
  keyword_line text = false ->
  extract_mermaid_diagrams text = [].
Proof.
  intros Hf Ht Hk.
  assert (S1 : findall1 fenced_mermaid text = []).
  { unfold findall1. rewrite scan_no_match; [now rewrite hits_map_Gap|].
    intros a b E.
    exact (fenced_no_match (length text) fence
             [Rep true 0 isspace; StrI (py "mermaid"); Rep true 0 isspace;
              Grp 1 (Rep false 0 any); Rep true 0 isspace] text a b Hf E). }
  assert (S2 : findall1 fenced_backticks text = []).
  { unfold findall1. rewrite scan_no_match; [now rewrite hits_map_Gap|].
    intros a b E.
    exact (fenced_no_match (length text) fence
             [Opt (Rep true 1 isword); Rep true 0 isspace;
              Grp 1 (Rep false 0 any); Rep true 0 isspace] text a b Hf E). }
  assert (S3 : findall1 fenced_tildes text = []).
  { unfold findall1. rewrite scan_no_match; [now rewrite hits_map_Gap|].
    intros a b E.
    exact (fenced_no_match (length text) tildes
             [Rep true 0 isspace; Grp 1 (Rep false 0 any); Rep true 0 isspace]
             text a b Ht E). }
  assert (S4 : findall0 inline_block text = []).
  { unfold findall0. rewrite scan_no_match; [now rewrite hits_map_Gap|].
    intros a b E. now apply (inline_no_match text a b). }
  rewrite extract_mermaid_diagrams_cascade.
  unfold strategy1, strategy2, strategy3. rewrite S1, S2, S3, S4. reflexivity.
Qed.

End NoDiagram.

(** ** The extractor on fenced mermaid blocks *)

(** A fenced block: the text before it, the white space between the fence
    and the tag, the tag, and what stands between the tag and the closing
    fence. *)
Record block : Type := {
  blk_sep : str; blk_ws : str; blk_tag : str; blk_inner : str
}.

Definition block_text (b : block) : str :=
  fence ++ blk_ws b ++ blk_tag b ++ blk_inner b ++ fence.

Fixpoint document (bs : list block) (tail : str) : str :=
  match bs with
  | [] => tail
  | b :: bs' => blk_sep b ++ block_text b ++ document bs' tail
  end.

(** "mermaid" in some letter case. *)
Definition is_mermaid_tag (t : str) : bool :=
  str_eqb (map ascii_lower t) (py "mermaid").

(** No fence begins in [s], even one completed by the fence that follows. *)
Definition fence_free (s : str) : bool := negb (py_in fence (s ++ py "``")).

Definition block_ok (b : block) : bool :=
  fence_free (blk_sep b) && forallb isspace (blk_ws b)
  && is_mermaid_tag (blk_tag b) && fence_free (blk_inner b).

(** The inner content, trimmed. *)
Definition content (b : block) : str := py_strip (blk_inner b).

Lemma str_eqb_eq (a b : str) : str_eqb a b = true -> a = b.
Proof. unfold str_eqb. destruct (list_eq_dec N.eq_dec a b); [trivial | discriminate]. Qed.

Section Blocks.
Context {U : Unicode}.
Import Front.

Lemma letters_ci (kw tag : str) :
  map ascii_lower tag = kw -> ascii_str kw ->
  Forall2 (fun a c => ci_eq a c = true) kw tag.
Proof.
  intros <- H. induction tag as [|c tag IH]; [constructor|].
  inversion H; subst. constructor; [|now apply IH].
  unfold ci_eq. rewrite (ascii_lower_is_ascii c) by assumption. apply N.eqb_refl.
Qed.

(** The closing part of the pattern: white space, then the fence. *)
Definition closing : regex := Seq (Rep true 0 isspace) (Str fence).

Lemma closing_shape (n : nat) (s : str) (g : captures) :
  rmatch n closing (s, g) <> [] ->
  exists w r, s = w ++ fence ++ r /\ Forall (fun c => isspace c = true) w.
Proof.
  intros H. destruct (rmatch n closing (s, g)) as [|st o] eqn:E; [contradiction|].
  assert (Hin : In st (rmatch n closing (s, g))) by (rewrite E; now left).
  apply in_rmatch_seq in Hin as [st1 [H1 H2]].
  cbn [rmatch fst snd] in H1. apply in_map_iff in H1 as [s1 [<- H1]].
  destruct (rep_greedy_suffix _ _ _ _ H1) as [w [-> [Hw _]]].
  apply in_rmatch_Str in H2. cbn [fst] in H2. exists w, (fst st). now rewrite H2.
Qed.

Lemma closing_first (n : nat) (trail post : str) (g : captures) :
  Forall (fun c => isspace c = true) trail ->
  first_match n closing (trail ++ fence ++ post, g) (post, g).
Proof.
  intros H. eapply first_match_seq.
  - apply first_match_rep_greedy; [exact H | reflexivity | apply Nat.le_0_l].
  - apply first_match_Str.
Qed.

(** The closing part does not match inside a trimmed body in which no
    fence begins. *)
Lemma closing_not_inside (n : nat) (body trail post a b : str) (g : captures) :
  trimmed body -> Forall (fun c => isspace c = true) trail ->
  py_in fence (body ++ trail ++ py "``") = false ->
  body = a ++ b -> b <> [] ->
  rmatch n closing (b ++ trail ++ fence ++ post, g) = [].
Proof.
  intros [_ Hlast] Ht Hf E Hb.
  destruct (rmatch n closing (b ++ trail ++ fence ++ post, g)) as [|st o] eqn:R;
    [reflexivity|].
  exfalso.
  destruct (closing_shape n (b ++ trail ++ fence ++ post) g)
    as [w [r [Eq Hw]]]; [exact (cons_not_nil _ _ _ _ R)|].
  (* the last code point of [b] is that of [body]: not white space *)
  assert (Hbl : exists b' c, b = b' ++ [c] /\ isspace c = false).
  { destruct (rev b) as [|c rb] eqn:Rb.
    - apply (f_equal (@rev N)) in Rb. rewrite rev_involutive in Rb. contradiction.
    - exists (rev rb), c. split.
      + apply (f_equal (@rev N)) in Rb. rewrite rev_involutive in Rb. exact Rb.
      + rewrite E, rev_app_distr, Rb in Hlast. exact Hlast. }
  destruct Hbl as [b' [c [Eb Hc]]].
  apply app_eq_app in Eq as [l [[E1 E2] | [E1 E2]]].
  - (* a fence begins in [b] *)
    destruct l as [|x l].
    + rewrite app_nil_r in E1. rewrite Forall_forall in Hw.
      assert (H : In c w) by (rewrite <- E1, Eb; apply in_or_app; right; now left).
      rewrite (Hw c H) in Hc. discriminate Hc.
    + assert (S : py_startswith fence ((x :: l) ++ trail ++ py "``") = true).
      { apply (py_startswith_cut fence _ (py "`" ++ post)).
        - rewrite <- !app_assoc. apply py_startswith_spec. exists r.
          rewrite E2. reflexivity.
        - rewrite !length_app. simpl. lia. }
      apply py_startswith_spec in S as [t S].
      apply not_true_iff_false in Hf. apply Hf. apply py_in_spec.
      exists (a ++ w), t. rewrite E, E1, <- !app_assoc. now rewrite S.
  - (* the white space would cover [b] *)
    rewrite Forall_forall in Hw.
    assert (H : In c w) by (rewrite E1, Eb; apply in_or_app; left;
                            apply in_or_app; right; now left).
    rewrite (Hw c H) in Hc. discriminate Hc.
Qed.

(** The lazy group: it grows up to the first place where the closing
    part matches. *)
Lemma lazy_walk (n i : nat) (k : regex) (rest : str) (g : captures)
    (whole : str) (body : str) :
  (forall a b g', body = a ++ b -> b <> [] -> rmatch n k (b ++ rest, g') = []) ->
  flat_map (rmatch n k)
    (map (fun st' : mstate =>
            (fst st', (i, firstn (length whole - length (fst st')) whole) :: snd st'))
       (map (fun s' => (s', g)) (rep_lazy any 0 (body ++ rest))))
  = flat_map (rmatch n k)
      (map (fun st' : mstate =>
              (fst st', (i, firstn (length whole - length (fst st')) whole) :: snd st'))
         (map (fun s' => (s', g)) (rep_lazy any 0 rest))).
Proof.
  induction body as [|c body IH]; intros H; [reflexivity|].
  cbn [app rep_lazy any Nat.pred map flat_map fst snd].
  rewrite (H [] (c :: body)) by (reflexivity || discriminate). cbn [app].
  apply IH. intros a b g' E Hb. apply (H (c :: a) b g'); [now rewrite E | exact Hb].
Qed.

Lemma first_match_lazy_group (n : nat) (k : regex) (body rest : str)
    (g : captures) (st' : mstate) :
  (forall a b g', body = a ++ b -> b <> [] -> rmatch n k (b ++ rest, g') = []) ->
  first_match n k (rest, (1%nat, body) :: g) st' ->
  first_match n (Seq (Grp 1 (Rep false 0 any)) k) (body ++ rest, g) st'.
Proof.
  intros H [o Hk]. unfold first_match. cbn [rmatch fst snd].
  pose proof (lazy_walk n 1 k rest g (body ++ rest) body H) as W.
  match goal with
  | |- exists others, ?L = _ =>
      match type of W with ?A = _ => change L with A end
  end.
  rewrite W. clear W.
  destruct rest as [|c rest].
  - cbn [rep_lazy map flat_map fst snd app length].
    rewrite ?Nat.sub_0_r, ?firstn_all, ?app_nil_r.
    rewrite_rmatch Hk. eauto.
  - cbn [rep_lazy map flat_map fst snd app any Nat.pred].
    rewrite length_app.
    replace (length body + length (c :: rest) - length (c :: rest))%nat
      with (length body) by lia.
    rewrite firstn_app, firstn_all, Nat.sub_diag. cbn [firstn]. rewrite app_nil_r.
    rewrite_rmatch Hk. simpl. eauto.
Qed.

Lemma letter_m_not_space (c : N) : ascii_lower c = 109 -> isspace c = false.
Proof.
  unfold ascii_lower. destruct (is_upper c); intros H.
  - assert (c = 77) by lia. now subst.
  - now subst.
Qed.

Lemma fence_free_part (lead s : str) :
  fence_free (lead ++ s) = true -> fence_free s = true.
Proof.
  unfold fence_free. rewrite !negb_true_iff. intros H.
  apply not_true_iff_false. intros E. apply not_true_iff_false in H. apply H.
  replace ((lead ++ s) ++ py "``") with (lead ++ (s ++ py "``") ++ [])
    by (now rewrite app_nil_r, app_assoc).
  apply py_in_app. exact E.
Qed.

(** The inner content of a block: white space, the trimmed content, white
    space; after an empty content no white space is left. *)
Lemma inner_decompose (inner : str) :
  exists lead trail,
    inner = lead ++ py_strip inner ++ trail
    /\ Forall (fun c => isspace c = true) lead
    /\ Forall (fun c => isspace c = true) trail
    /\ trimmed (py_strip inner)
    /\ (py_strip inner = [] -> trail = []).
Proof.
  destruct (py_strip_decompose inner) as [lead [trail [E [Hl [Ht T]]]]].
  destruct (py_strip inner) as [|c body] eqn:S.
  - exists inner, []. rewrite app_nil_r. repeat split; try exact I.
    + rewrite E. apply Forall_app. now split.
    + constructor.
  - exists lead, trail. repeat split; try assumption; try apply T. discriminate.
Qed.

Lemma block_first (n : nat) (b : block) (post : str) :
  block_ok b = true ->
  first_match n fenced_mermaid (block_text b ++ post, [])
    (post, [(1%nat, content b)]).
Proof.
  unfold block_ok, content, block_text. destruct b as [sep ws tag inner].
  cbn [blk_sep blk_ws blk_tag blk_inner].
  intros H. apply andb_true_iff in H as [H Hi]. apply andb_true_iff in H as [H Htag].
  apply andb_true_iff in H as [_ Hws]. rewrite forallb_forall in Hws.
  apply str_eqb_eq in Htag.
  destruct (inner_decompose inner) as [lead [trail [E [Hl [Ht [T Hnil]]]]]].
  rewrite E in Hi. apply fence_free_part in Hi.
  rewrite E at 1. generalize dependent (py_strip inner). intros body Hi _ T Hnil.
  unfold fence_free in Hi. rewrite negb_true_iff, <- app_assoc in Hi.
  replace ((fence ++ ws ++ tag ++ (lead ++ body ++ trail) ++ fence) ++ post)
    with (fence ++ ws ++ tag ++ lead ++ body ++ trail ++ fence ++ post)
    by (now rewrite <- !app_assoc).
  unfold fenced_mermaid. cbn [cat].
  eapply first_match_seq; [apply first_match_Str|].
  eapply first_match_seq.
  { apply first_match_rep_greedy; [now apply Forall_forall | | apply Nat.le_0_l].
    destruct tag as [|c tag]; [discriminate Htag|]. cbn [app].
    injection Htag as Hc _. now apply letter_m_not_space. }
  eapply first_match_seq.
  { apply (first_match_str n (py "mermaid") ci_eq tag).
    apply letters_ci; [exact Htag | apply forallb_ascii_str; reflexivity]. }
  eapply first_match_seq.
  { apply first_match_rep_greedy; [exact Hl | | apply Nat.le_0_l].
    destruct body as [|c body]; [rewrite (Hnil eq_refl); reflexivity | apply T]. }
  apply (first_match_lazy_group n closing body (trail ++ fence ++ post) []).
  - intros a b0 g' Eb Hb. now apply (closing_not_inside n body trail post a b0 g').
  - now apply closing_first.
Qed.

Definition mermaid_middle : list regex :=
  [Rep true 0 isspace; StrI (py "mermaid"); Rep true 0 isspace;
   Grp 1 (Rep false 0 any); Rep true 0 isspace].

Lemma no_block_in_separator (n : nat) (sep a b rest : str) :
  fence_free sep = true -> sep = a ++ b -> b <> [] ->
  py_startswith (py "``") rest = true ->
  rmatch n fenced_mermaid (b ++ rest, []) = [].
Proof.
  intros Hs E Hb Hr.
  destruct (rmatch n fenced_mermaid (b ++ rest, [])) as [|st o] eqn:R; [reflexivity|].
  exfalso.
  destruct (fenced_shape n fence mermaid_middle (b ++ rest) []) as [m [r Eq]];
    [exact (cons_not_nil _ _ _ _ R)|].
  apply py_startswith_spec in Hr as [rest' ->].
  unfold fence_free in Hs. rewrite negb_true_iff in Hs.
  apply not_true_iff_false in Hs. apply Hs. rewrite E.
  replace ((a ++ b) ++ py "``") with (a ++ (b ++ py "``") ++ [])
    by (now rewrite app_nil_r, app_assoc).
  apply (py_in_app fence a (b ++ py "``") []).
  assert (S : py_startswith fence (b ++ py "``") = true).
  { apply (py_startswith_cut fence _ rest').
    - rewrite <- app_assoc. apply py_startswith_spec. eauto.
    - rewrite length_app. destruct b; [contradiction | simpl; lia]. }
  apply py_startswith_spec in S as [t ->]. apply py_in_spec. now exists [], t.
Qed.

Lemma no_block_without_fence (n : nat) (tail a b : str) :
  py_in fence tail = false -> tail = a ++ b ->
  rmatch n fenced_mermaid (b, []) = [].
Proof.
  intros H E.
  destruct (rmatch n fenced_mermaid (b, [])) as [|st o] eqn:R; [reflexivity|].
  exfalso.
  destruct (fenced_shape n fence mermaid_middle b []) as [m [r Eq]];
    [exact (cons_not_nil _ _ _ _ R)|].
  apply not_true_iff_false in H. apply H. apply py_in_spec.
  exists a, (m ++ fence ++ r). now rewrite E, Eq.
Qed.

Lemma scan_document (n : nat) (bs : list block) (tail : str) :
  forallb block_ok bs = true -> py_in fence tail = false ->
  hits (scan n fenced_mermaid 0 (document bs tail))
  = map (fun b => (block_text b, [(1%nat, content b)])) bs.
Proof.
  intros Hb Ht. induction bs as [|b bs IH]; cbn [document map].
  - rewrite scan_no_match; [apply hits_map_Gap|].
    intros a b E. now apply (no_block_without_fence n tail a b).
  - cbn [forallb] in Hb. apply andb_true_iff in Hb as [Hb Hbs].
    rewrite scan_run.
    + rewrite hits_app, hits_map_Gap. cbn [app].
      rewrite scan_hit with (g := [(1%nat, content b)]).
      * cbn [hits flat_map app]. fold (hits (scan n fenced_mermaid 0 (document bs tail))).
        now rewrite IH.
      * now apply block_first.
      * unfold block_text, fence. discriminate.
    + intros a b0 E Hb0. apply (no_block_in_separator n (blk_sep b) a b0); auto.
      unfold block_ok in Hb. now repeat (apply andb_true_iff in Hb as [Hb _]).
Qed.

Lemma nonblank_content (b : block) : nonblank (content b) = nonempty (content b).
Proof.
  unfold nonblank, nonempty, content. rewrite py_strip_idempotent.
  now destruct (py_strip (blk_inner b)).
Qed.

(** The candidates of the first strategy on a document of mermaid blocks:
    the trimmed inner contents that are not empty, in order. *)
Lemma strategy1_document (bs : list block) (tail : str) :
  forallb block_ok bs = true -> py_in fence tail = false ->
  strategy1 (document bs tail) = filter nonempty (map content bs).
Proof.
  intros Hb Ht. unfold strategy1, findall1. rewrite scan_document by assumption.
  rewrite map_map. cbn [snd group Nat.eqb].
  clear. induction bs as [|b bs IH]; [reflexivity|].
  cbn [map filter]. rewrite nonblank_content.
  destruct (nonempty (content b)); cbn [map]; rewrite IH; [|reflexivity].
  unfold content. now rewrite py_strip_idempotent.
Qed.

End Blocks.

(** ** The fenced mermaid blocks of any text *)

Section AnyText.
Context {U : Unicode}.
Import Front.

(** The text before the first fence of [s], and the text after that
    fence. *)
Fixpoint upto_fence (s : str) : option (str * str) :=
  if py_startswith fence s then Some ([], skipn (length fence) s)
  else match s with
       | [] => None
       | c :: s' =>
           match upto_fence s' with
           | Some (a, b) => Some (c :: a, b)
           | None => None
           end
       end.

(** The tag and the inner content that open the text, if they do: the
    letters of "mermaid" in any case, and a fence further on.  The answer is
    the inner content, which is the text between the tag and the next fence,
    and the text after that fence. *)
Definition tagged_content (s : str) : option (str * str) :=
  if starts_ci (py "mermaid") s
  then upto_fence (skipn (length (py "mermaid")) s)
  else None.

(** The same after white space, as much of it as can be passed. *)
Fixpoint after_space (s : str) : option (str * str) :=
  match s with
  | c :: s' =>
      if isspace c then
        match after_space s' with
        | Some b => Some b
        | None => tagged_content s
        end
      else tagged_content s
  | [] => None
  end.

(** The block tagged mermaid that opens the text, if there is one: a
    fence, white space if any, the tag, the inner content and a fence. *)
Definition mermaid_block_at (s : str) : option (str * str) :=
  if py_startswith fence s then after_space (skipn (length fence) s) else None.

(** The inner contents of the blocks tagged mermaid met when the text is
    read from left to right: a block that opens where the reading stands is
    taken and the reading goes on after its closing fence; otherwise the
    reading moves one code point on.  [fuel] bounds the number of steps. *)
Fixpoint mermaid_blocks_from (fuel : nat) (s : str) : list str :=
  match fuel with
  | O => []
  | S k =>
      match mermaid_block_at s with
      | Some (inner, post) => inner :: mermaid_blocks_from k post
      | None =>
          match s with
          | [] => []
          | _ :: s' => mermaid_blocks_from k s'
          end
      end
  end.

Definition mermaid_blocks (s : str) : list str :=
  mermaid_blocks_from (length s) s.

Lemma upto_fence_some (s a b : str) :
  upto_fence s = Some (a, b) -> s = a ++ fence ++ b /\ fence_free a = true.
Proof.
  revert a b. induction s as [|c s IH]; intros a b; cbn [upto_fence].
  - discriminate.
  - destruct (py_startswith fence (c :: s)) eqn:S.
    + intros [= <- <-]. split; [|reflexivity].
      apply py_startswith_spec in S as [t S].
      change fence with [96; 96; 96] in *. cbn [app] in S.
      injection S as -> ->. reflexivity.
    + destruct (upto_fence s) as [[a0 b0]|]; [|discriminate].
      intros [= <- <-]. destruct (IH a0 b0 eq_refl) as [-> Hf]. split; [reflexivity|].
      unfold fence_free in *. rewrite negb_true_iff in *. cbn [app py_in].
      rewrite Hf, orb_false_r. apply not_true_iff_false. intros E.
      apply (py_startswith_app fence _ (py "`" ++ b0)) in E.
      replace ((c :: a0 ++ py "``") ++ py "`" ++ b0) with (c :: a0 ++ fence ++ b0) in E
        by (cbn [app]; rewrite <- app_assoc; reflexivity).
      rewrite E in S. discriminate S.
Qed.

Lemma upto_fence_found (x r : str) :
  upto_fence (x ++ fence ++ r) <> None.
Proof.
  induction x as [|c x IH].
  - cbn [app]. destruct r; discriminate.
  - cbn [app upto_fence]. destruct (py_startswith fence (c :: x ++ fence ++ r));
      [discriminate|].
    destruct (upto_fence (x ++ fence ++ r)) as [[a b]|]; [discriminate | exact IH].
Qed.

Lemma starts_ci_elim (kw s : str) :
  starts_ci kw s = true ->
  exists m t, s = m ++ t /\ Forall2 (fun a c => ci_eq a c = true) kw m.
Proof.
  revert s. induction kw as [|a kw IH]; intros s; cbn [starts_ci].
  - intros _. exists [], s. split; [reflexivity | constructor].
  - destruct s as [|c s]; [discriminate|]. intros H.
    apply andb_true_iff in H as [Hc H]. destruct (IH s H) as [m [t [-> Hm]]].
    exists (c :: m), t. split; [reflexivity | now constructor].
Qed.

(** The pattern after the fence and the white space: the tag, white
    space, the group, white space, the fence. *)
Definition tag_and_content : regex :=
  cat [StrI (py "mermaid"); Rep true 0 isspace;
       Grp 1 (Rep false 0 any); Rep true 0 isspace; Str (py "```")].

Lemma fenced_mermaid_parts :
  fenced_mermaid = Seq (Str fence) (Seq (Rep true 0 isspace) tag_and_content).
Proof. reflexivity. Qed.

(** However the pattern matches from the tag on, the tag stands first and
    a fence further on. *)
Lemma tagged_shape (n : nat) (t : str) (g : captures) (st' : mstate) :
  In st' (rmatch n tag_and_content (t, g)) ->
  exists tag x r,
    t = tag ++ x ++ fence ++ r
    /\ Forall2 (fun a c => ci_eq a c = true) (py "mermaid") tag.
Proof.
  unfold tag_and_content. rewrite cat_cons by discriminate. intros H.
  apply in_rmatch_seq in H as [st3 [H3 H]].
  destruct (in_rmatch_str n (py "mermaid") ci_eq _ _ H3) as [tag [E3 Htag]].
  apply (in_rmatch_ends_with n
           [Rep true 0 isspace; Grp 1 (Rep false 0 any); Rep true 0 isspace]
           fence st3 st') in H as [x E4].
  cbn [fst] in E3. exists tag, x, (fst st'). split; [|exact Htag].
  now rewrite E3, E4.
Qed.

Lemma tagged_content_some (t inner post : str) :
  tagged_content t = Some (inner, post) ->
  exists tag,
    t = tag ++ inner ++ fence ++ post
    /\ Forall2 (fun a c => ci_eq a c = true) (py "mermaid") tag
    /\ fence_free inner = true.
Proof.
  unfold tagged_content.
  destruct (starts_ci (py "mermaid") t) eqn:C; [|discriminate].
  apply starts_ci_elim in C as [tag [t' [-> Htag]]].
  assert (L : length tag = length (py "mermaid"))
    by (symmetry; exact (Forall2_length Htag)).
  rewrite <- L, skipn_app, skipn_all, Nat.sub_diag. cbn [skipn app].
  intros H. apply upto_fence_some in H as [-> Hf]. exists tag. now repeat split.
Qed.

(** The match from the tag on: the group is the trimmed inner content. *)
Lemma tagged_first (n : nat) (t inner post : str) :
  tagged_content t = Some (inner, post) ->
  first_match n tag_and_content (t, []) (post, [(1%nat, py_strip inner)]).
Proof.
  intros H. apply tagged_content_some in H as [tag [-> [Htag Hi]]].
  destruct (inner_decompose inner) as [lead [trail [E [Hl [Ht [T Hnil]]]]]].
  rewrite E in Hi. apply fence_free_part in Hi.
  rewrite E at 1. generalize dependent (py_strip inner). intros body Hi _ T Hnil.
  unfold fence_free in Hi. rewrite negb_true_iff, <- app_assoc in Hi.
  replace (tag ++ (lead ++ body ++ trail) ++ fence ++ post)
    with (tag ++ lead ++ body ++ trail ++ fence ++ post)
    by (now rewrite <- !app_assoc).
  unfold tag_and_content. cbn [cat].
  eapply first_match_seq.
  { apply (first_match_str n (py "mermaid") ci_eq tag). exact Htag. }
  eapply first_match_seq.
  { apply first_match_rep_greedy; [exact Hl | | apply Nat.le_0_l].
    destruct body as [|c body]; [rewrite (Hnil eq_refl); reflexivity | apply T]. }
  apply (first_match_lazy_group n closing body (trail ++ fence ++ post) []).
  - intros a b0 g' Eb Hb. now apply (closing_not_inside n body trail post a b0 g').
  - now apply closing_first.
Qed.

Lemma tagged_none (n : nat) (t : str) (g : captures) :
  tagged_content t = None -> rmatch n tag_and_content (t, g) = [].
Proof.
  intros H. destruct (rmatch n tag_and_content (t, g)) as [|st o] eqn:R;
    [reflexivity|]. exfalso.
  assert (Hin : In st (rmatch n tag_and_content (t, g)))
    by (rewrite_rmatch R; now left).
  apply tagged_shape in Hin as [tag [x [r [-> Htag]]]].
  unfold tagged_content in H. rewrite (starts_ci_intro _ tag _ Htag) in H.
  assert (L : length tag = length (py "mermaid"))
    by (symmetry; exact (Forall2_length Htag)).
  rewrite <- L, skipn_app, skipn_all, Nat.sub_diag in H. cbn [skipn app] in H.
  exact (upto_fence_found x r H).
Qed.

(** The white space before the tag: the pattern passes as much as it can,
    and gives back one code point after the other when what follows does not
    match. *)
Lemma greedy_step (n : nat) (p : charset) (k : regex) (c : N) (s : str)
    (g : captures) :
  rmatch n (Seq (Rep true 0 p) k) (c :: s, g)
  = (if p c then rmatch n (Seq (Rep true 0 p) k) (s, g) else [])
    ++ rmatch n k (c :: s, g).
Proof.
  cbn [rmatch fst snd rep_greedy Nat.pred].
  destruct (p c); cbn [app map flat_map]; [|now rewrite app_nil_r].
  rewrite map_app, flat_map_app. cbn [map flat_map]. now rewrite app_nil_r.
Qed.

Lemma greedy_end (n : nat) (p : charset) (k : regex) (g : captures) :
  rmatch n (Seq (Rep true 0 p) k) ([], g) = rmatch n k ([], g).
Proof. cbn [rmatch fst snd rep_greedy app map flat_map]. now rewrite app_nil_r. Qed.

Lemma after_space_match (n : nat) (t : str) :
  (forall inner post,
      after_space t = Some (inner, post) ->
      first_match n (Seq (Rep true 0 isspace) tag_and_content) (t, [])
        (post, [(1%nat, py_strip inner)]))
  /\ (after_space t = None ->
      rmatch n (Seq (Rep true 0 isspace) tag_and_content) (t, []) = []).
Proof.
  induction t as [|c t [IHs IHn]].
  - split; [discriminate|]. intros _.
    pose proof (greedy_end n isspace tag_and_content []) as E.
    rewrite_rmatch E. now apply tagged_none.
  - pose proof (greedy_step n isspace tag_and_content c t []) as E.
    cbn [after_space]. unfold first_match. split.
    + intros inner post H. rewrite_rmatch E.
      destruct (isspace c).
      * destruct (after_space t) as [[i0 p0]|].
        -- injection H as <- <-. destruct (IHs i0 p0 eq_refl) as [o Ho].
           rewrite_rmatch Ho. cbn [app]. eauto.
        -- rewrite_rmatch (IHn eq_refl). cbn [app].
           exact (tagged_first n _ _ _ H).
      * cbn [app]. exact (tagged_first n _ _ _ H).
    + intros H. rewrite_rmatch E.
      destruct (isspace c).
      * destruct (after_space t) as [[i0 p0]|]; [discriminate|].
        rewrite_rmatch (IHn eq_refl). cbn [app]. now apply tagged_none.
      * cbn [app]. now apply tagged_none.
Qed.

Lemma mermaid_block_at_first (n : nat) (s inner post : str) :
  mermaid_block_at s = Some (inner, post) ->
  first_match n fenced_mermaid (s, []) (post, [(1%nat, py_strip inner)])
  /\ exists m, s = fence ++ m ++ post.
Proof.
  unfold mermaid_block_at. destruct (py_startswith fence s) eqn:S; [|discriminate].
  apply py_startswith_spec in S as [t ->].
  rewrite skipn_app, skipn_all, Nat.sub_diag. cbn [skipn app]. intros H.
  pose proof (proj1 (after_space_match n t) inner post H) as F. split.
  - rewrite fenced_mermaid_parts.
    eapply first_match_seq; [apply first_match_Str | exact F].
  - destruct F as [o Ho].
    destruct (rmatch_suffix n (Seq (Rep true 0 isspace) tag_and_content)
                (t, []) (post, [(1%nat, py_strip inner)])) as [m E].
    + rewrite_rmatch Ho. now left.
    + cbn [fst] in E. exists m. now rewrite E.
Qed.

Lemma mermaid_block_at_none (n : nat) (s : str) :
  mermaid_block_at s = None -> rmatch n fenced_mermaid (s, []) = [].
Proof.
  intros H. destruct (rmatch n fenced_mermaid (s, [])) as [|st o] eqn:R;
    [reflexivity|]. exfalso.
  assert (Hin : In st (rmatch n fenced_mermaid (s, [])))
    by (rewrite_rmatch R; now left).
  rewrite fenced_mermaid_parts in Hin.
  apply in_rmatch_seq in Hin as [st1 [H1 H2]]. destruct st1 as [t g].
  pose proof (in_rmatch_Str n fence _ _ H1) as E. cbn [fst] in E. subst s.
  assert (G : g = []).
  { clear - H1. unfold Str, fence in H1. change (py "```") with [96; 96; 96] in H1.
    cbn in H1. destruct H1 as [H1 | []]. congruence. }
  subst g. unfold mermaid_block_at in H.
  rewrite (proj2 (py_startswith_spec fence _)) in H by eauto.
  rewrite skipn_app, skipn_all, Nat.sub_diag in H. cbn [skipn app] in H.
  match type of H2 with
  | In _ ?L =>
      replace L with (@nil mstate) in H2
        by (symmetry; exact (proj2 (after_space_match n t) H))
  end.
  destruct H2.
Qed.

(** The first groups of the matches of the pattern are the trimmed inner
    contents of the blocks read from left to right. *)
Lemma groups_scan_blocks (n : nat) (fuel : nat) :
  forall s : str,
    (length s <= fuel)%nat ->
    map (fun h => group 1 (snd h)) (hits (scan n fenced_mermaid 0 s))
    = map py_strip (mermaid_blocks_from fuel s).
Proof.
  induction fuel as [|k IH]; intros s Hs.
  - destruct s; [|simpl in Hs; lia]. rewrite scan_end; [reflexivity|].
    now apply mermaid_block_at_none.
  - cbn [mermaid_blocks_from].
    destruct (mermaid_block_at s) as [[inner post]|] eqn:A.
    + destruct (mermaid_block_at_first n _ _ _ A) as [F [m E]]. subst s.
      replace (fence ++ m ++ post) with ((fence ++ m) ++ post) in *
        by (now rewrite <- app_assoc).
      rewrite scan_hit with (g := [(1%nat, py_strip inner)]);
        [|exact F | unfold fence; discriminate].
      cbn [hits flat_map app map snd group Nat.eqb].
      fold (hits (scan n fenced_mermaid 0 post)). rewrite IH; [reflexivity|].
      rewrite !length_app in Hs. change (length fence) with 3%nat in Hs. lia.
    + destruct s as [|c s].
      * rewrite scan_end; [reflexivity | now apply mermaid_block_at_none].
      * rewrite scan_miss by now apply mermaid_block_at_none.
        cbn [hits flat_map app]. fold (hits (scan n fenced_mermaid 0 s)).
        apply IH. simpl in Hs. lia.
Qed.

(** The candidates of the first strategy on any text. *)
Lemma strategy1_blocks (text : str) :
  strategy1 text = filter nonempty (map py_strip (mermaid_blocks text)).
Proof.
  unfold strategy1, findall1, mermaid_blocks.
  rewrite (groups_scan_blocks (length text) (length text) text (Nat.le_refl _)).
  induction (mermaid_blocks_from (length text) text) as [|b bs IH]; [reflexivity|].
  cbn [map filter]. unfold nonblank, nonempty in *. rewrite py_strip_idempotent.
  destruct (py_strip b) as [|c t] eqn:S; cbn [is_empty negb andb map].
  - exact IH.
  - rewrite <- S, py_strip_idempotent, S. now rewrite IH.
Qed.

End AnyText.

(** C1, as the code has it.  Whatever the text, the fenced-mermaid
    strategy finds the inner content of every block tagged "mermaid" met when
    the text is read from left to right (a fence, white space if any, the tag
    in any letter case; the inner content runs up to the next fence), trimmed,
    once, in the order of the text, and skips the blocks whose inner content
    is blank; when some block is not blank this is the result of the
    extractor.  On a text that holds neither two fences of backticks, nor two
    of tildes, nor a line starting with flowchart or graph, the result is
    empty. *)
Theorem extract_fenced_mermaid_blocks :
  forall U : Unicode,
    (forall text : str,
       let found := filter nonempty (map py_strip (mermaid_blocks text)) in
       strategy1 text = found
       /\ (found <> [] -> Front.extract_mermaid_diagrams text = found))
    /\ (forall text : str,
          has_two fence text = false -> has_two tildes text = false ->
          keyword_line text = false ->
          Front.extract_mermaid_diagrams text = []).
Proof.
  intros U. split; [|exact extract_nothing].
  intros text found. subst found.
  pose proof (strategy1_blocks text) as S. split; [exact S|].
  intros Hne. rewrite extract_mermaid_diagrams_cascade, S.
  destruct (filter nonempty (map py_strip (mermaid_blocks text))); [contradiction|].
  reflexivity.
Qed.

(** A python block, a mermaid block, a blank mermaid block and a mermaid
    block after a fence left open. *)
Definition sample_text : str :=
  py "Setup:\n```python\nimport x\n```\n``` Mermaid\ngraph TD\nA-->B\n```\n"
  ++ py "```MERMAID \n ```\nand ``` ```mermaid flowchart LR ```\nbye".

Lemma extract_fenced_mermaid_blocks_witness :
  Front.extract_mermaid_diagrams (U := ascii_only) sample_text
  = [py "graph TD\nA-->B"; py "flowchart LR"]
  /\ Front.extract_mermaid_diagrams (U := ascii_only) (py "no diagram in `this` text")
     = [].
Proof.
  destruct (extract_fenced_mermaid_blocks ascii_only) as [B N0].
  split.
  - destruct (B sample_text) as [_ E]. cbv zeta in E. rewrite E.
    + vm_compute. reflexivity.
    + vm_compute. discriminate.
  - apply N0; reflexivity.
Defined.

(** C1 as stated fails on a fenced mermaid block whose inner content is
    blank.  The text "```mermaid```" is one such block, and the result is
    empty: the (empty) content is not returned.  When the blank block is
    followed by another fenced block, the result is the content of that
    other block, which is not tagged mermaid. *)
Lemma blank_mermaid_block_is_not_returned :
  block_ok {| blk_sep := []; blk_ws := []; blk_tag := py "mermaid"; blk_inner := [] |}
  = true
  /\ document [{| blk_sep := []; blk_ws := []; blk_tag := py "mermaid";
                  blk_inner := [] |}] []
     = py "```mermaid```"
  /\ forall U : Unicode,
       Front.extract_mermaid_diagrams (py "```mermaid```") = []
       /\ Front.extract_mermaid_diagrams (py "```mermaid\n```\n```text\nA-->B\n```")
          = [py "A-->B"].
Proof.
  split; [reflexivity|]. split; [reflexivity|]. intros U.
  split; vm_compute; reflexivity.
Qed.

(** ** The sanitizer on canonical text *)

(** A line the sanitizer leaves as it is: not empty, not starting with [>]
    or a space, not ending in white space, not a "%% mermaid" marker. *)
Definition line_ok (ln : str) : bool :=
  match ln with
  | [] => false
  | c :: _ => negb (c =? 62) && negb (c =? 32)
  end
  && match rev ln with
     | [] => false
     | c :: _ => negb (isspace c)
     end
  && negb (py_startswith (py "%% mermaid") ln).

(** The curly quotes and the no-break space. *)
Definition special (c : N) : bool :=
  (c =? 8220) || (c =? 8221) || (c =? 8216) || (c =? 8217) || (c =? 160).

Lemma py_replace_absent (a b : N) (s : str) :
  forallb (fun c => negb (c =? a)) s = true -> py_replace a b s = s.
Proof.
  intros H. unfold py_replace. rewrite <- (map_id s) at 2. apply map_ext_in.
  intros c Hc. rewrite forallb_forall in H. specialize (H c Hc).
  now destruct (c =? a).
Qed.

Lemma forallb_weaken (f g : N -> bool) (s : str) :
  (forall c, f c = true -> g c = true) ->
  forallb f s = true -> forallb g s = true.
Proof.
  intros W H. rewrite forallb_forall in *. intros c Hc. apply W. now apply H.
Qed.

Lemma py_split_snoc_sep (sep : N) (s : str) :
  py_split sep (s ++ [sep]) = py_split sep s ++ [[]].
Proof.
  induction s as [|c s IH]; simpl.
  - now rewrite N.eqb_refl.
  - destruct (c =? sep); rewrite IH; [reflexivity|].
    destruct (py_split sep s) as [|l ls] eqn:S; [now destruct (py_split_not_nil _ _ S)|].
    reflexivity.
Qed.

(** The last line of a text is its end. *)
Lemma py_split_last (sep : N) (s : str) :
  exists ls l p, py_split sep s = ls ++ [l] /\ s = p ++ l.
Proof.
  destruct (exists_last (py_split_not_nil sep s)) as [ls [l E]].
  exists ls, l.
  assert (J : s = py_join [sep] (ls ++ [l]))
    by (rewrite <- E; symmetry; apply py_join_split).
  destruct ls as [|x ls].
  - exists []. split; [exact E | exact J].
  - exists (py_join [sep] (x :: ls) ++ [sep]). split; [exact E|].
    transitivity (py_join [sep] ((x :: ls) ++ [l])); [exact J|].
    rewrite py_join_app by discriminate. now rewrite <- app_assoc.
Qed.

Lemma filter_all (A : Type) (f : A -> bool) (l : list A) :
  forallb f l = true -> filter f l = l.
Proof.
  induction l as [|x l IH]; [reflexivity|]. cbn [forallb filter].
  intros H. apply andb_true_iff in H as [-> H]. now rewrite IH.
Qed.

Section Canonical.
Context {U : Unicode}.
Import Front.

(** The canonical texts: they start with a block type; their lines are
    [line_ok]; they do not end with a fence; they hold neither curly quote
    nor no-break space; they define their classes when they use one. *)
Definition canonical (y : str) : bool :=
  has_header (py_lower y)
  && match y with [] => false | c :: _ => negb (isspace c) end
  && forallb line_ok (py_split 10 y)
  && negb (py_startswith (rev fence) (rev y))
  && forallb (fun c => negb (special c)) y
  && negb (negb (py_in (py "classdef") (py_lower y)) && py_in (py ":::") y).

Lemma header_not_fence (t : str) : has_header (py_lower (fence ++ t)) = false.
Proof. reflexivity. Qed.

Lemma fence_marks_no_match (y a b : str) :
  has_header (py_lower y) = true ->
  forallb line_ok (py_split 10 y) = true ->
  py_startswith (rev fence) (rev y) = false ->
  y = a ++ b ->
  rmatch (length y) fence_marks (b, []) = [].
Proof.
  intros Hh Hl He E.
  destruct (rmatch (length y) fence_marks (b, [])) as [|st o] eqn:R; [reflexivity|].
  exfalso.
  assert (Hin : In st (rmatch (length y) fence_marks (b, [])))
    by (rewrite R; now left).
  clear R. unfold fence_marks in Hin. cbn [rmatch] in Hin.
  apply in_app_iff in Hin as [Hin | Hin].
  - change (cat [Bos; Str (py "```"); Rep true 0 isword])
      with (Seq Bos (Seq (Str fence) (Rep true 0 isword))) in Hin.
    apply in_rmatch_seq in Hin as [st1 [H1 H2]].
    apply in_rmatch_seq in H2 as [st2 [H2 _]].
    apply in_rmatch_Str in H2.
    cbn [rmatch fst] in H1.
    destruct (Nat.eqb_spec (length b) (length y)) as [L|L]; [|destruct H1].
    destruct H1 as [<- | []]. cbn [fst] in H2.
    assert (a = []).
    { rewrite E, length_app in L. destruct a; [reflexivity | simpl in L; lia]. }
    subst a. cbn [app] in E. subst b. rewrite H2, header_not_fence in Hh.
    discriminate Hh.
  - change (cat [Str (py "```"); Eos]) with (Seq (Str fence) Eos) in Hin.
    apply in_rmatch_seq in Hin as [st1 [H1 H2]].
    apply in_rmatch_Str in H1. cbn [fst] in H1.
    destruct st1 as [s1 g1]. cbn [rmatch fst snd] in H2. cbn [fst] in H1.
    destruct s1 as [|c s1].
    + rewrite app_nil_r in H1. subst b. rewrite E, rev_app_distr in He.
      assert (T : py_startswith (rev fence) (rev fence ++ rev a) = true)
        by (apply py_startswith_spec; eauto).
      rewrite T in He. discriminate He.
    + destruct s1; [|destruct H2].
      destruct (N.eqb_spec c 10) as [->|]; [|destruct H2].
      rewrite E, H1 in Hl.
      replace (a ++ fence ++ [10]) with ((a ++ fence) ++ [10]) in Hl
        by (now rewrite <- app_assoc).
      rewrite py_split_snoc_sep, forallb_app in Hl.
      apply andb_true_iff in Hl as [_ Hl]. discriminate Hl.
Qed.

Lemma line_ok_unchanged (ln : str) :
  line_ok ln = true -> py_rstrip (py_lstrip (py "> ") ln) = ln /\ keep_line ln = true.
Proof.
  unfold line_ok, keep_line. intros H.
  apply andb_true_iff in H as [H Hm]. apply andb_true_iff in H as [Hf Hl].
  destruct ln as [|c ln]; [discriminate Hf|].
  apply andb_true_iff in Hf as [H1 H2]. split; [|now rewrite Hm].
  unfold py_lstrip, py_rstrip. rewrite lstrip_by_stop.
  - apply rstrip_by_stop. destruct (rev (c :: ln)); [discriminate Hl|].
    now apply negb_true_iff.
  - cbn [existsb lit]. apply negb_true_iff in H1, H2.
    change (N_of_ascii ">") with 62. change (N_of_ascii " ") with 32.
    now rewrite H1, H2.
Qed.

Lemma canonical_trimmed (y : str) :
  match y with [] => false | c :: _ => negb (isspace c) end = true ->
  forallb line_ok (py_split 10 y) = true -> trimmed y.
Proof.
  intros Hf Hl. split.
  - destruct y; [exact I | now apply negb_true_iff].
  - destruct (py_split_last 10 y) as [ls [l [p [E Ey]]]].
    rewrite E, forallb_app in Hl. apply andb_true_iff in Hl as [_ Hl].
    cbn [forallb] in Hl. rewrite andb_true_r in Hl. unfold line_ok in Hl.
    apply andb_true_iff in Hl as [Hl _]. apply andb_true_iff in Hl as [_ Hl].
    rewrite Ey, rev_app_distr. destruct (rev l) as [|c rl]; [discriminate Hl|].
    cbn [app]. now apply negb_true_iff.
Qed.

(** A canonical text is a fixed point of the sanitizer. *)
Lemma sanitize_canonical (y : str) :
  canonical y = true -> validate_and_clean_mermaid y = Some y.
Proof.
  unfold canonical. intros H.
  apply andb_true_iff in H as [H Hc]. apply andb_true_iff in H as [H Hs].
  apply andb_true_iff in H as [H He]. apply andb_true_iff in H as [H Hl].
  apply andb_true_iff in H as [Hh Hf]. apply negb_true_iff in He, Hc.
  pose proof (canonical_trimmed y Hf Hl) as T.
  assert (S0 : sub_empty fence_marks y = y).
  { unfold sub_empty. rewrite scan_no_match; [apply gaps_map_Gap|].
    intros a b E. now apply (fence_marks_no_match y a b). }
  assert (R : forall a b, In a [8220; 8221; 8216; 8217; 160] -> py_replace a b y = y).
  { intros a b Ha. apply py_replace_absent. revert Hs. apply forallb_weaken.
    intros c Hcs. apply negb_true_iff in Hcs. unfold special in Hcs.
    repeat (apply orb_false_iff in Hcs as [Hcs ?]).
    apply negb_true_iff.
    destruct Ha as [<- | [<- | [<- | [<- | [<- | []]]]]]; assumption. }
  assert (L : map (fun ln => py_rstrip (py_lstrip (py "> ") ln)) (py_split 10 y)
              = py_split 10 y).
  { rewrite <- (map_id (py_split 10 y)) at 2. apply map_ext_in. intros ln Hin.
    rewrite forallb_forall in Hl. now apply line_ok_unchanged, Hl. }
  assert (K : filter keep_line (py_split 10 y) = py_split 10 y).
  { apply filter_all. rewrite forallb_forall in *. intros ln Hin.
    now apply line_ok_unchanged, Hl. }
  assert (B : clean_body y = y).
  { unfold clean_body. rewrite S0, (py_strip_trimmed y T).
    rewrite !R by (simpl; tauto). rewrite L, K.
    change (py "\n") with [10]. rewrite py_join_split. now apply py_strip_trimmed. }
  unfold validate_and_clean_mermaid. destruct y as [|c y]; [discriminate Hf|].
  cbn [is_empty]. rewrite B. f_equal.
  unfold ensure_header. rewrite Hh. cbn [negb].
  unfold add_class_defs. now rewrite Hc.
Qed.

(** *** The results that are canonical *)

(** A candidate of ASCII code points, curly quotes and no-break spaces,
    without backtick. *)
Definition diagram_char (c : N) : bool := plain c && negb (c =? 96).

Definition tidy (c : N) : Prop := is_ascii c = true /\ (c =? 96) = false.

Lemma normalize_tidy (c : N) : diagram_char c = true -> tidy (normalize c).
Proof.
  unfold diagram_char. intros H. apply andb_true_iff in H as [Hp H96].
  split; [now apply normalize_plain|]. apply negb_true_iff in H96.
  unfold normalize. cbv beta.
  destruct (c =? 8220); [reflexivity|]. destruct (c =? 8221); [reflexivity|].
  destruct (c =? 8216); [reflexivity|]. destruct (c =? 8217); [reflexivity|].
  destruct (c =? 160); [reflexivity | exact H96].
Qed.

Lemma clean_body_tidy (x : str) :
  forallb diagram_char x = true -> Forall tidy (clean_body x).
Proof.
  intros H. apply (clean_body_forall tidy (fun c => diagram_char c = true)).
  - exact normalize_tidy.
  - split; reflexivity.
  - apply Forall_forall. rewrite forallb_forall in H. exact H.
Qed.

Lemma tidy_ascii (s : str) : Forall tidy s -> ascii_str s.
Proof. apply Forall_impl. intros c [H _]. exact H. Qed.

Lemma tidy_no_fence_end (s : str) :
  Forall tidy s -> py_startswith (rev fence) (rev s) = false.
Proof.
  intros H. apply Forall_rev in H. destruct (rev s) as [|c r]; [reflexivity|].
  inversion H as [|? ? [_ Hc] _]; subst. cbn [rev fence lit app py_startswith].
  change (N_of_ascii "`") with 96. rewrite N.eqb_sym, Hc. reflexivity.
Qed.

Lemma ascii_not_special (s : str) :
  ascii_str s -> forallb (fun c => negb (special c)) s = true.
Proof.
  intros H. apply forallb_forall. intros c Hc.
  unfold ascii_str in H. rewrite Forall_forall in H. specialize (H c Hc).
  unfold is_ascii in H. apply N.ltb_lt in H. unfold special.
  destruct (N.eqb_spec c 8220); [lia|]. destruct (N.eqb_spec c 8221); [lia|].
  destruct (N.eqb_spec c 8216); [lia|]. destruct (N.eqb_spec c 8217); [lia|].
  destruct (N.eqb_spec c 160); [lia|]. reflexivity.
Qed.

(** The first code point of a text that starts with a block type. *)
Lemma header_head (c : N) (t : str) :
  has_header (map ascii_lower (c :: t)) = true ->
  isspace c = false /\ (c =? 62) = false /\ (c =? 32) = false /\ (37 =? c) = false.
Proof.
  rewrite has_header_keywords. intros H. apply existsb_exists in H as [kw [Hin H]].
  assert (L : ascii_lower c = 102 \/ ascii_lower c = 103 \/ ascii_lower c = 115).
  { destruct Hin as [<- | [<- | [<- | [<- | []]]]];
      cbn [map py_startswith lit] in H; apply andb_true_iff in H as [H _];
      apply N.eqb_eq in H; cbn in H; rewrite <- H; auto. }
  unfold ascii_lower in L. destruct (is_upper c).
  - assert (E : c = 70 \/ c = 71 \/ c = 83) by lia.
    destruct E as [-> | [-> | ->]]; repeat split.
  - destruct L as [-> | [-> | ->]]; repeat split.
Qed.

Lemma lstrip_by_nonempty (f : N -> bool) (l : str) :
  match rev l with [] => False | c :: _ => f c = false end -> lstrip_by f l <> [].
Proof.
  intros H E. destruct (lstrip_by_split f l) as [l0 [El [Hl _]]].
  rewrite E, app_nil_r in El. subst l0. apply Forall_rev in Hl.
  destruct (rev l) as [|c r]; [exact H|]. inversion Hl; subst. congruence.
Qed.

Lemma lstrip_by_app_nonempty (f : N -> bool) (a b : str) :
  lstrip_by f a <> [] -> lstrip_by f (a ++ b) = lstrip_by f a ++ b.
Proof.
  induction a as [|c a IH]; simpl; [contradiction|].
  destruct (f c); [exact IH | reflexivity].
Qed.

Lemma rev_suffix_head (l0 l : str) :
  l <> [] ->
  match rev (l0 ++ l) with [] => None | c :: _ => Some c end
  = match rev l with [] => None | c :: _ => Some c end.
Proof.
  intros H. rewrite rev_app_distr. destruct (rev l) as [|c r] eqn:R; [|reflexivity].
  apply (f_equal (@rev N)) in R. rewrite rev_involutive in R. contradiction.
Qed.

(** A line that the sanitizer keeps is [line_ok]. *)
Lemma stripped_line_ok (ln : str) :
  free_of 10 ln ->
  keep_line (py_rstrip (py_lstrip (py "> ") ln)) = true ->
  line_ok (py_rstrip (py_lstrip (py "> ") ln)) = true
  /\ free_of 10 (py_rstrip (py_lstrip (py "> ") ln)).
Proof.
  intros Hf Hk. split; [|now apply Forall_rstrip_by, Forall_lstrip_by].
  unfold py_rstrip, py_lstrip in *.
  destruct (lstrip_by_split (fun c => existsb (N.eqb c) (py "> ")) ln)
    as [l0 [_ [_ Hh]]].
  set (t := lstrip_by (fun c => existsb (N.eqb c) (py "> ")) ln) in *.
  destruct (rstrip_by_split isspace t) as [sp [Et [_ Hr]]].
  set (l := rstrip_by isspace t) in *.
  unfold keep_line in Hk. apply andb_true_iff in Hk as [Hne Hm].
  unfold line_ok. rewrite Hm, andb_true_r.
  destruct l as [|c l']; [discriminate Hne|].
  rewrite Et in Hh. cbn [app] in Hh. cbn [existsb lit] in Hh.
  change (N_of_ascii ">") with 62 in Hh. change (N_of_ascii " ") with 32 in Hh.
  apply orb_false_iff in Hh as [H1 H2]. apply orb_false_iff in H2 as [H2 _].
  rewrite H1, H2. cbn [negb andb].
  destruct (rev (c :: l')) as [|d r] eqn:R; [|now rewrite Hr].
  apply (f_equal (@rev N)) in R. rewrite rev_involutive in R. discriminate R.
Qed.

Lemma line_ok_last (l : str) :
  line_ok l = true -> match rev l with [] => False | c :: _ => isspace c = false end.
Proof.
  unfold line_ok. intros H. apply andb_true_iff in H as [H _].
  apply andb_true_iff in H as [_ H]. destruct (rev l); [discriminate H|].
  now apply negb_true_iff.
Qed.

Lemma py_join_last (sep : N) (ls : list str) :
  ls <> [] -> exists p l, In l ls /\ py_join [sep] ls = p ++ l.
Proof.
  intros H. destruct (exists_last H) as [ls0 [l ->]].
  exists (match ls0 with [] => [] | _ => py_join [sep] ls0 ++ [sep] end), l.
  split; [apply in_or_app; right; now left|].
  destruct ls0 as [|x ls0]; [reflexivity|].
  rewrite py_join_app by discriminate. now rewrite <- app_assoc.
Qed.

(** The lines of a cleaned text that starts with a block type. *)
Lemma cleaned_lines_ok (x : str) :
  ascii_str (clean_body x) ->
  has_header (py_lower (clean_body x)) = true ->
  forallb line_ok (py_split 10 (clean_body x)) = true.
Proof.
  intros A. rewrite (py_lower_ascii _ A). clear A. unfold clean_body.
  match goal with
  | |- context [py_split 10 ?s0] => generalize s0
  end.
  intros s.
  set (ls := filter keep_line
               (map (fun ln => py_rstrip (py_lstrip (py "> ") ln)) (py_split 10 s))).
  assert (Hls : Forall (fun l => line_ok l = true /\ free_of 10 l) ls).
  { apply Forall_forall. intros l Hl. apply filter_In in Hl as [Hin Hk].
    apply in_map_iff in Hin as [ln [<- Hin]]. apply stripped_line_ok; [|exact Hk].
    pose proof (py_split_lines_free 10 s) as F. rewrite Forall_forall in F.
    now apply F. }
  clearbody ls. change (py "\n") with [10]. intros Hh.
  destruct ls as [|l1 rest]; [discriminate Hh|].
  inversion Hls as [|? ? [Hok1 Hfree1] Hrest]; subst.
  set (l1' := lstrip_by isspace l1).
  assert (Hne : l1' <> []) by (apply lstrip_by_nonempty, line_ok_last, Hok1).
  assert (E : py_strip (py_join [10] (l1 :: rest)) = py_join [10] (l1' :: rest)).
  { unfold py_strip.
    assert (L : lstrip_by isspace (py_join [10] (l1 :: rest))
                = py_join [10] (l1' :: rest)).
    { destruct rest as [|r rest]; [reflexivity|].
      rewrite !py_join_cons by discriminate. now apply lstrip_by_app_nonempty. }
    rewrite L. apply rstrip_by_stop.
    destruct (py_join_last 10 (l1' :: rest)) as [p [l [Hin ->]]]; [discriminate|].
    assert (Hl : match rev l with [] => False | c :: _ => isspace c = false end).
    { destruct Hin as [<- | Hin].
      - destruct (lstrip_by_split isspace l1) as [l0 [El _]]. fold l1' in El.
        pose proof (line_ok_last l1 Hok1) as H1. rewrite El in H1.
        pose proof (rev_suffix_head l0 l1' Hne) as R.
        destruct (rev (l0 ++ l1')) as [|c r]; [destruct H1|].
        destruct (rev l1') as [|c' r']; [discriminate R|]. now injection R as <-.
      - rewrite Forall_forall in Hrest. now apply line_ok_last, Hrest. }
    rewrite rev_app_distr. destruct (rev l) as [|c r]; [destruct Hl|]. exact Hl. }
  rewrite E in Hh |- *.
  assert (Hfree1' : free_of 10 l1') by now apply Forall_lstrip_by.
  rewrite py_split_join;
    [|discriminate|constructor; [exact Hfree1'|]; revert Hrest; apply Forall_impl; tauto].
  cbn [forallb]. apply andb_true_iff. split.
  - destruct l1' as [|c t] eqn:El1; [contradiction|].
    assert (Hhead : has_header (map ascii_lower (c :: t ++
                      match rest with [] => [] | _ => [10] ++ py_join [10] rest end))
                    = true).
    { destruct rest; [now rewrite app_nil_r|].
      now rewrite py_join_cons in Hh by discriminate. }
    apply header_head in Hhead as [_ [H62 [H32 H37]]].
    unfold line_ok. rewrite H62, H32. cbn [negb andb py_startswith lit].
    change (N_of_ascii "%") with 37. rewrite H37. cbn [andb negb].
    rewrite andb_true_r.
    destruct (lstrip_by_split isspace l1) as [l0 [El _]]. fold l1' in El.
    rewrite El1 in El.
    pose proof (line_ok_last l1 Hok1) as H1. rewrite El in H1.
    pose proof (rev_suffix_head l0 (c :: t)) as R.
    destruct (rev (l0 ++ c :: t)) as [|d r]; [destruct H1|].
    destruct (rev (c :: t)) as [|d' r'];
      [specialize (R ltac:(discriminate)); discriminate R|].
    specialize (R ltac:(discriminate)). injection R as <-. now rewrite H1.
  - apply forallb_forall. intros l Hl. rewrite Forall_forall in Hrest.
    now apply Hrest.
Qed.

Lemma class_def_lines_ok : forallb line_ok class_def_lines = true.
Proof. vm_compute. reflexivity. Qed.

Lemma class_def_lines_tidy : Forall (Forall tidy) class_def_lines.
Proof.
  assert (H : forallb (forallb (fun c => is_ascii c && negb (c =? 96))) class_def_lines
              = true) by (vm_compute; reflexivity).
  apply Forall_forall. intros l Hl. apply Forall_forall. intros c Hc.
  rewrite forallb_forall in H. specialize (H l Hl).
  rewrite forallb_forall in H. specialize (H c Hc).
  apply andb_true_iff in H as [H1 H2]. split; [exact H1 | now apply negb_true_iff].
Qed.

(** The result for a diagram is canonical: a candidate without backtick
    whose cleaned text starts with a block type. *)
Lemma sanitize_diagram_canonical (x : str) :
  x <> [] -> forallb diagram_char x = true ->
  has_header (py_lower (clean_body x)) = true ->
  exists y, validate_and_clean_mermaid x = Some y /\ canonical y = true.
Proof.
  intros Hx Hd Hh. unfold validate_and_clean_mermaid.
  destruct x as [|c0 x0]; [contradiction|]. cbn [is_empty].
  eexists. split; [reflexivity|].
  pose proof (clean_body_tidy _ Hd) as T. pose proof (tidy_ascii _ T) as A.
  pose proof (cleaned_lines_ok _ A Hh) as Hl.
  revert Hh T A Hl. generalize (clean_body (c0 :: x0)). intros cleaned Hh T A Hl.
  assert (Eh : ensure_header (py_lower cleaned) cleaned = cleaned)
    by (unfold ensure_header; now rewrite Hh).
  rewrite Eh.
  assert (Hh' : has_header (map ascii_lower cleaned) = true)
    by (now rewrite <- (py_lower_ascii _ A)).
  destruct (add_class_defs_has_header (py_lower cleaned) cleaned A Hh') as [A2 H2].
  assert (Hy : forall y, add_class_defs (py_lower cleaned) cleaned = y ->
               Forall tidy y -> forallb line_ok (py_split 10 y) = true ->
               negb (negb (py_in (py "classdef") (py_lower y)) && py_in (py ":::") y)
               = true ->
               canonical y = true).
  { intros y Ey Ty Ly Cy. rewrite Ey in A2, H2. unfold canonical.
    rewrite (py_lower_ascii _ A2) in *. rewrite H2, Ly, Cy.
    rewrite (tidy_no_fence_end _ Ty), (ascii_not_special _ A2).
    destruct y as [|c t]; [discriminate H2|].
    destruct (header_head c t H2) as [-> _]. reflexivity. }
  destruct (add_class_defs_cases (py_lower cleaned) cleaned)
    as [[E F] | [header [rest [S [_ E]]]]].
  - apply Hy; [reflexivity | now rewrite E | now rewrite E |].
    rewrite E. now rewrite F.
  - assert (Sy : py_split 10 (py_join [10] (header :: class_def_lines ++ rest))
                 = header :: class_def_lines ++ rest).
    { apply py_split_join; [discriminate|].
      pose proof (py_split_lines_free 10 cleaned) as F. rewrite S in F.
      inversion F; subst. constructor; [assumption|].
      apply Forall_app. split; [apply class_def_lines_free | assumption]. }
    rewrite S in Hl. cbn [forallb] in Hl. apply andb_true_iff in Hl as [Hl1 Hl2].
    apply Hy; [reflexivity | | |]; rewrite E.
    + pose proof (Forall_py_split tidy 10 cleaned T) as Ts. rewrite S in Ts.
      inversion Ts; subst. apply Forall_py_join; [repeat constructor|].
      constructor; [assumption|]. apply Forall_app.
      split; [apply class_def_lines_tidy | assumption].
    + rewrite Sy. cbn [forallb]. rewrite Hl1, forallb_app, class_def_lines_ok, Hl2.
      reflexivity.
    + assert (I : py_in (py "classDef")
                    (py_join [10] (header :: class_def_lines ++ rest)) = true).
      { apply (py_in_line _ 10 _
                 (py "classDef foundation fill:#4d94ff,color:#000,stroke:#333,stroke-width:2px")).
        - rewrite Sy. right. now left.
        - reflexivity. }
      apply (py_in_lower (py "classDef")) in I;
        [|apply forallb_ascii_str; reflexivity].
      change (map ascii_lower (py "classDef")) with (py "classdef") in I.
      now rewrite I.
Qed.

(** C4, as the code has it.  Sanitizing twice is sanitizing once whenever
    the first result is canonical: it starts with a block type, does not end
    with a fence, has no empty line, no line starting with [>] or a space or
    ending in white space, no "%% mermaid" marker, no curly quote or no-break
    space, and defines its classes if it uses one.  The result is canonical,
    and sanitizing it again returns it unchanged, for every candidate that is
    a diagram: made of ASCII code points, curly quotes and no-break spaces,
    without backtick, and with a cleaned text that starts with flowchart,
    graph, sequence or gantt. *)
Theorem sanitize_idempotent_on_canonical :
  (forall x y : str,
     validate_and_clean_mermaid x = Some y ->
     canonical y = true ->
     validate_and_clean_mermaid y = validate_and_clean_mermaid x)
  /\ (forall x : str,
        x <> [] -> forallb diagram_char x = true ->
        has_header (py_lower (clean_body x)) = true ->
        exists y,
          validate_and_clean_mermaid x = Some y
          /\ canonical y = true
          /\ validate_and_clean_mermaid y = Some y).
Proof.
  split.
  - intros x y Hx Hy. rewrite Hx. now apply sanitize_canonical.
  - intros x Hx Hd Hh.
    destruct (sanitize_diagram_canonical x Hx Hd Hh) as [y [Ey Cy]].
    exists y. split; [exact Ey|]. split; [exact Cy | now apply sanitize_canonical].
Qed.

End Canonical.

Lemma sanitize_idempotent_on_canonical_witness :
  Front.validate_and_clean_mermaid (U := ascii_only)
    (py "flowchart TD\nclassDef core fill:#33cc33\nA[Learn]:::core --> B[Build]")
  = Front.validate_and_clean_mermaid (U := ascii_only)
      (py "```mermaid\n> flowchart TD  \n\n classDef core fill:#33cc33\nA[Learn]:::core --> B[Build]\n```")
  /\ exists y,
       Front.validate_and_clean_mermaid (U := ascii_only)
         (py "> graph TD \n\n  A[Learn]:::core --> B[Build]\n") = Some y
       /\ canonical (U := ascii_only) y = true
       /\ Front.validate_and_clean_mermaid (U := ascii_only) y = Some y.
Proof.
  destruct (sanitize_idempotent_on_canonical (U := ascii_only)) as [F D]. split.
  - apply F.
    + vm_compute. reflexivity.
    + vm_compute. reflexivity.
  - apply D.
    + discriminate.
    + vm_compute. reflexivity.
    + vm_compute. reflexivity.
Defined.

(** C4 as stated fails.  The candidate "graph TD``` " is sanitized to
    "graph TD```" (the fence is not at the end of the candidate, a space
    follows it), which is sanitized to "graph TD".  The candidate that
    defines a class before its header is sanitized to the text from the
    header on, to which a second pass adds the default definitions. *)
Lemma sanitize_twice_differs :
  py "graph TD```" <> py "graph TD"
  /\ forall U : Unicode,
       (Front.validate_and_clean_mermaid (py "graph TD``` ")
        = Some (py "graph TD```")
        /\ Front.validate_and_clean_mermaid (py "graph TD```")
           = Some (py "graph TD"))
       /\ (Front.validate_and_clean_mermaid (py "classDef x\nflowchart TD\nA:::b")
           = Some (py "flowchart TD\nA:::b")
           /\ Front.validate_and_clean_mermaid (py "flowchart TD\nA:::b")
              = Some (py_join (py "\n")
                        (py "flowchart TD" :: class_def_lines ++ [py "A:::b"]))).
Proof.
  split; [discriminate|]. intros U.
  repeat split; vm_compute; reflexivity.
Qed.

(** * Further properties of the code *)

(** ** The candidates of the extractor *)

Section Candidates.
Context {U : Unicode}.
Import Front.

Lemma Forall_map_strip_filter (l : list str) :
  Forall (fun d => d <> [] /\ py_strip d = d) (filter nonempty (map py_strip l)).
Proof.
  apply Forall_forall. intros d Hd. apply filter_In in Hd as [Hd Hn].
  apply in_map_iff in Hd as [m [<- _]]. split.
  - unfold nonempty in Hn. now destruct (py_strip m).
  - apply py_strip_idempotent.
Qed.

(** X1.  Whatever the text, every candidate the extractor returns is a
    non-empty string without white space at either end: [d.strip() == d]. *)
Theorem extracted_candidates_are_trimmed :
  forall text : str,
    Forall (fun d => d <> [] /\ py_strip d = d) (extract_mermaid_diagrams text).
Proof.
  intros text. rewrite extract_mermaid_diagrams_cascade.
  assert (S1 : Forall (fun d => d <> [] /\ py_strip d = d) (strategy1 text)).
  { unfold strategy1. apply Forall_forall. intros d Hd.
    apply in_map_iff in Hd as [m [<- Hm]]. apply filter_In in Hm as [_ Hm].
    unfold nonblank in Hm. apply andb_true_iff in Hm as [_ Hm]. split.
    - now destruct (py_strip m).
    - apply py_strip_idempotent. }
  assert (S2 : Forall (fun d => d <> [] /\ py_strip d = d) (strategy2 text)).
  { unfold strategy2. apply incl_Forall with
      (l1 := filter nonempty
               (map py_strip (findall1 fenced_backticks text
                              ++ findall1 fenced_tildes text))).
    - intros d Hd. apply filter_In in Hd. exact (proj1 Hd).
    - apply Forall_map_strip_filter. }
  assert (S3 : Forall (fun d => d <> [] /\ py_strip d = d) (strategy3 text)).
  { unfold strategy3. apply Forall_map_strip_filter. }
  destruct (strategy1 text); [|exact S1].
  destruct (strategy2 text); [exact S3 | exact S2].
Qed.

(** No candidate is empty. *)
Lemma extracted_candidates_nonempty (text : str) :
  Forall (fun d => d <> []) (extract_mermaid_diagrams text).
Proof.
  rewrite extract_mermaid_diagrams_cascade.
  assert (F : forall l, Forall (fun d : str => d <> []) (filter nonempty l)).
  { intros l. apply Forall_forall. intros d Hd. apply filter_In in Hd as [_ Hd].
    unfold nonempty in Hd. now destruct d. }
  assert (S1 : Forall (fun d : str => d <> []) (strategy1 text)).
  { unfold strategy1. apply Forall_forall. intros d Hd.
    apply in_map_iff in Hd as [m [<- Hm]]. apply filter_In in Hm as [_ Hm].
    unfold nonblank in Hm. apply andb_true_iff in Hm as [_ Hm].
    now destruct (py_strip m). }
  assert (S2 : Forall (fun d : str => d <> []) (strategy2 text)).
  { unfold strategy2. apply Forall_forall. intros d Hd.
    apply filter_In in Hd as [Hd _]. apply filter_In in Hd as [_ Hd].
    unfold nonempty in Hd. now destruct d. }
  destruct (strategy1 text); [|exact S1].
  destruct (strategy2 text); [apply F | exact S2].
Qed.

End Candidates.

(** ** The quotes and spaces the sanitizer replaces *)

(** The code points replaced at lines 209 to 211: the curly double and
    single quotes and the no-break space. *)
Definition curly (c : N) : bool :=
  (c =? 8220) || (c =? 8221) || (c =? 8216) || (c =? 8217) || (c =? 160).

Lemma normalize_not_curly (c : N) : curly (normalize c) = false.
Proof.
  unfold curly, normalize. cbv beta.
  destruct (N.eqb_spec c 8220) as [->|H1]; [reflexivity|].
  destruct (N.eqb_spec c 8221) as [->|H2]; [reflexivity|].
  destruct (N.eqb_spec c 8216) as [->|H3]; [reflexivity|].
  destruct (N.eqb_spec c 8217) as [->|H4]; [reflexivity|].
  destruct (N.eqb_spec c 160) as [->|H5]; [reflexivity|].
  repeat match goal with
         | |- context [c =? ?k] =>
             destruct (N.eqb_spec c k); [contradiction|]
         end.
  reflexivity.
Qed.

Lemma ascii_not_curly (s : str) :
  ascii_str s -> Forall (fun c => curly c = false) s.
Proof.
  apply Forall_impl. intros c H. unfold is_ascii in H. apply N.ltb_lt in H.
  unfold curly.
  repeat match goal with
         | |- context [c =? ?k] =>
             destruct (N.eqb_spec c k); [lia|]
         end.
  reflexivity.
Qed.

Section Quotes.
Context {U : Unicode}.
Import Front.

(** X2.  Whatever the candidate, the text the sanitizer returns holds none
    of the curly quotes and no no-break space. *)
Theorem sanitized_text_has_no_curly_quote :
  forall x y : str,
    validate_and_clean_mermaid x = Some y ->
    Forall (fun c => curly c = false) y.
Proof.
  intros x y. unfold validate_and_clean_mermaid.
  destruct (is_empty x); [discriminate|]. intros [= <-].
  assert (B : Forall (fun c => curly c = false) (clean_body x)).
  { apply (clean_body_forall (fun c => curly c = false) (fun _ => True)).
    - intros c _. apply normalize_not_curly.
    - reflexivity.
    - apply Forall_forall. trivial. }
  set (low := py_lower (clean_body x)). clearbody low.
  assert (H : Forall (fun c => curly c = false) (ensure_header low (clean_body x))).
  { destruct (ensure_header_cases low (clean_body x))
      as [[-> _] | [_ [[kw [_ [_ ->]]] | [_ [_ ->]]]]].
    - exact B.
    - destruct (slice_from_skipn (py_find kw low) (clean_body x)) as [k ->].
      now apply Forall_skipn_str.
    - apply Forall_app. split; [|exact B].
      apply ascii_not_curly, forallb_ascii_str. reflexivity. }
  generalize dependent (ensure_header low (clean_body x)). intros body H.
  destruct (add_class_defs_cases low body) as [[-> _] | [header [rest [S [_ ->]]]]];
    [exact H|].
  assert (L : Forall (Forall (fun c => curly c = false)) (header :: rest)).
  { rewrite <- S. now apply Forall_py_split. }
  apply Forall_py_join; [repeat constructor|].
  inversion L; subst. constructor; [assumption|].
  apply Forall_app. split; [|assumption].
  eapply Forall_impl; [|exact class_def_lines_ascii].
  intros l. apply ascii_not_curly.
Qed.

End Quotes.

Lemma sanitized_text_has_no_curly_quote_witness :
  Forall (fun c => curly c = false)
         (py "flowchart TD\n" ++ [34; 65; 34] ++ py " --> 'B'").
Proof.
  apply (sanitized_text_has_no_curly_quote (U := ascii_only)
           ([8220; 65; 8221; 160] ++ py "-->" ++ [160; 8216; 66; 8217])).
  vm_compute. reflexivity.
Defined.

(** ** The query of a search directive *)

Section Query.
Context {U : Unicode}.
Import Gemini.

(** X3.  When a search query is detected it is not empty, it has no white
    space at either end, it is the trimmed text of the message from its
    eighth code point on, and the message, in lower case and trimmed, starts
    with "search:" or "/search". *)
Theorem detected_query_is_trimmed :
  forall m q : str,
    _detect_search_query m = Some q ->
    q <> [] /\ py_strip q = q /\ q = py_strip (skipn 7 m)
    /\ (py_startswith (py "search:") (py_strip (py_lower m)) = true
        \/ py_startswith (py "/search") (py_strip (py_lower m)) = true).
Proof.
  intros m q. unfold _detect_search_query.
  destruct (py_startswith (py "search:") (py_strip (py_lower m))) eqn:S1;
    destruct (py_startswith (py "/search") (py_strip (py_lower m))) eqn:S2;
    cbn [orb]; try discriminate;
    change (length (py "search:")) with 7%nat;
    change (length (py "/search")) with 7%nat;
    (destruct (is_empty (py_strip (skipn 7 m))) eqn:E; cbn [negb]; [discriminate|]);
    intros [= <-]; apply is_empty_false in E;
    (split; [exact E|]); (split; [apply py_strip_idempotent|]);
    (split; [reflexivity|]); auto.
Qed.

End Query.

Lemma detected_query_is_trimmed_witness :
  py "roadmaps for Rust" <> []
  /\ py_strip (py "roadmaps for Rust") = py "roadmaps for Rust"
  /\ py "roadmaps for Rust" = py_strip (skipn 7 (py "Search:  roadmaps for Rust \n"))
  /\ (py_startswith (py "search:")
        (py_strip (py_lower (U := ascii_only) (py "Search:  roadmaps for Rust \n"))) = true
      \/ py_startswith (py "/search")
           (py_strip (py_lower (U := ascii_only) (py "Search:  roadmaps for Rust \n"))) = true).
Proof.
  apply (detected_query_is_trimmed (U := ascii_only)
           (py "Search:  roadmaps for Rust \n") (py "roadmaps for Rust")).
  vm_compute. reflexivity.
Defined.

(** ** The matches of a scan *)

(** Every match the scan reports is one of the ways the pattern matches at
    some place of the subject, and its text is what that way consumes. *)
Lemma in_hits_scan (n : nat) (r : regex) (s : str) :
  forall (skip : nat) (m : str) (g : captures),
    In (m, g) (hits (scan n r skip s)) ->
    exists a rest, s = a ++ m ++ rest /\ In (rest, g) (rmatch n r (m ++ rest, [])).
Proof.
  assert (Pre : forall (b rest : str) (g : captures) (k : nat),
             In (rest, g) (rmatch n r (b, [])) ->
             (length b - length rest)%nat = k ->
             b = firstn k b ++ rest).
  { intros b rest g k Hin <-. destruct (rmatch_suffix _ _ _ _ Hin) as [m E].
    cbn [fst] in E. rewrite E at 2. rewrite E, length_app.
    replace (length m + length rest - length rest)%nat with (length m) by lia.
    now rewrite firstn_app, firstn_all, Nat.sub_diag, firstn_O, app_nil_r. }
  assert (Up : forall (c : N) (s' : str) (m : str) (g : captures),
             (exists a rest, s' = a ++ m ++ rest
                             /\ In (rest, g) (rmatch n r (m ++ rest, []))) ->
             exists a rest, c :: s' = a ++ m ++ rest
                            /\ In (rest, g) (rmatch n r (m ++ rest, []))).
  { intros c s' m g [a [rest [E H]]]. exists (c :: a), rest. split; [now rewrite E | exact H]. }
  induction s as [|c s IH]; intros skip m g.
  - destruct skip; cbn [scan]; [|intros []].
    match goal with
    | |- context [rmatch ?x ?y ?st] =>
        destruct (rmatch x y st) as [|[rest g0] others] eqn:R
    end; [intros []|].
    assert (Hin : In (rest, g0) (rmatch n r ([], []))) by (rewrite_rmatch R; now left).
    destruct (rmatch_suffix _ _ _ _ Hin) as [m0 E]. cbn [fst] in E.
    symmetry in E. apply app_eq_nil in E as [_ ->]. cbn [length Nat.sub].
    replace (find (shorter []) others) with (@None mstate).
    + cbn [hits flat_map app]. intros [[= <- <-] | []]. exists [], []. now split.
    + clear. induction others as [|o os IH]; [reflexivity|]. cbn [find].
      unfold shorter at 1. cbn [length]. rewrite Nat.ltb_irrefl || simpl; exact IH.
  - destruct skip as [|k]; cbn [scan]; [|intros H; apply Up; exact (IH k m g H)].
    match goal with
    | |- context [rmatch ?x ?y ?st] =>
        destruct (rmatch x y st) as [|[rest g0] others] eqn:R
    end.
    + cbn [hits flat_map app]. intros H. apply Up. exact (IH 0%nat m g H).
    + assert (Hin : In (rest, g0) (rmatch n r (c :: s, []))) by (rewrite_rmatch R; now left).
      destruct (length (c :: s) - length rest)%nat as [|k] eqn:L.
      * cbn [hits flat_map app]. intros [[= <- <-] | H].
        { exists [], (c :: s). cbn [app]. split; [reflexivity|].
          pose proof (Pre _ _ _ _ Hin L) as E. cbn [firstn app] in E.
          rewrite <- E in Hin. exact Hin. }
        destruct (find (shorter (c :: s)) others) as [[rest2 g2]|] eqn:F.
        -- apply find_some in F as [Hin2 _].
           assert (Hin2' : In (rest2, g2) (rmatch n r (c :: s, [])))
             by (rewrite_rmatch R; now right).
           cbn [hits flat_map app] in H. destruct H as [[= <- <-] | H].
           ++ exists [], rest2. cbn [app].
              match goal with
              | |- context [firstn ?K (c :: s)] =>
                  change K with (length (c :: s) - length rest2)%nat
              end.
              rewrite <- (Pre _ _ _ _ Hin2' eq_refl).
              split; [reflexivity | exact Hin2'].
           ++ apply Up. exact (IH _ m g H).
        -- cbn [hits flat_map app] in H. apply Up. exact (IH _ m g H).
      * cbn [hits flat_map app]. intros [[= <- <-] | H].
        -- exists [], rest. cbn [app].
           change (c :: firstn k s ++ rest) with (firstn (S k) (c :: s) ++ rest).
           rewrite <- (Pre _ _ _ _ Hin L).
           split; [reflexivity | exact Hin].
        -- apply Up. exact (IH _ m g H).
Qed.

(** ** The items of any diagram *)

Section Items.
Context {U : Unicode}.
Import Gemini.

(** However the node pattern matches, it matches an identifier, a bracket,
    a label and a bracket, and records the identifier and the label. *)
Lemma node_match_shape (n : nat) (s rest : str) (g : captures) :
  In (rest, g) (rmatch n node_pattern (s, [])) ->
  exists i l, s = i ++ 91 :: l ++ 93 :: rest
              /\ identifier i = true /\ label l = true
              /\ g = [(2%nat, l); (1%nat, i)].
Proof.
  unfold node_pattern. cbn [cat]. intros H.
  apply in_rmatch_seq in H as [[s1 g1] [H1 H]].
  apply in_rmatch_seq in H as [[s2 g2] [H2 H]].
  apply in_rmatch_seq in H as [[s3 g3] [H3 H4]].
  (* the identifier *)
  cbn [rmatch] in H1. apply in_map_iff in H1 as [[s1' g1'] [E1 H1]].
  cbn [fst snd] in E1. injection E1 as E1 E1g.
  apply in_flat_map in H1 as [[s0 g0] [H0 H1]].
  cbn [fst snd] in H0. destruct s as [|u s]; [destruct H0|].
  destruct (is_upper u) eqn:Hu; [|destruct H0]. destruct H0 as [[= <- <-] | []].
  cbn [rmatch fst snd] in H1. apply in_map_iff in H1 as [s1'' [E1' H1]].
  injection E1' as -> <-.
  destruct (rep_greedy_suffix _ _ _ _ H1) as [w [-> [Hw _]]]. subst s1 g1.
  (* the opening bracket *)
  cbn [rmatch fst snd] in H2. destruct s1' as [|c t]; [destruct H2|].
  destruct (N.eqb_spec 91 c) as [<-|]; [|destruct H2].
  destruct H2 as [[= <- <-] | []].
  (* the label *)
  cbn [rmatch] in H3. apply in_map_iff in H3 as [[s3' g3'] [E3 H3]].
  cbn [fst snd] in E3. injection E3 as E3 E3g.
  cbn [fst snd] in H3. apply in_map_iff in H3 as [s3'' [E3' H3]].
  injection E3' as -> <-.
  destruct (rep_greedy_suffix _ _ _ _ H3) as [l [-> [Hl Hn]]]. subst s3 g3.
  (* the closing bracket *)
  cbn [rmatch fst snd] in H4. destruct s3' as [|c r4]; [destruct H4|].
  destruct (N.eqb_spec 93 c) as [<-|]; [|destruct H4].
  destruct H4 as [[= <- <-] | []].
  exists (u :: w), l. split; [reflexivity|]. split; [|split].
  - cbn [identifier]. rewrite Hu. cbn [andb]. apply forallb_forall.
    rewrite Forall_forall in Hw. exact Hw.
  - unfold label. apply andb_true_iff. split.
    + destruct l; [simpl in Hn; lia | reflexivity].
    + apply forallb_forall. rewrite Forall_forall in Hl. exact Hl.
  - assert (F : forall (a b : str) (k : nat),
               k = length a -> firstn k (a ++ b) = a).
    { intros a b k ->.
      now rewrite firstn_app, firstn_all, Nat.sub_diag, firstn_O, app_nil_r. }
    f_equal; [f_equal | f_equal; f_equal].
    + apply F. rewrite length_app. cbn [length]. lia.
    + apply (F (u :: w)). rewrite !length_app. cbn [length]. rewrite length_app.
      cbn [length]. lia.
Qed.

(** Every item comes from a node definition that stands in the code. *)
Lemma in_parse_mermaid_diagram (code : str) (it : item) :
  In it (parse_mermaid_diagram code) ->
  exists a i l rest,
    code = a ++ i ++ 91 :: l ++ 93 :: rest
    /\ identifier i = true /\ label l = true
    /\ it = {| id := i; item_title := py_strip l;
               description := py "Complete: " ++ py_strip l |}.
Proof.
  unfold parse_mermaid_diagram, findall2. rewrite map_map.
  intros H. apply in_map_iff in H as [[m g] [<- H]].
  apply in_hits_scan in H as [a [rest [E H]]].
  apply node_match_shape in H as [i [l [Em [Hi [Hl ->]]]]].
  exists a, i, l, rest. split; [now rewrite E, Em|]. repeat split; assumption.
Qed.

(** X4.  Whatever the code of the diagram, every item the parser returns
    comes from a node definition that stands in the code: an identifier (an
    upper-case letter, then word characters), an opening bracket, a label
    (not empty, without closing bracket) and a closing bracket.  The item
    holds the identifier, the trimmed label as title, and "Complete: "
    followed by the title as description. *)
Theorem parsed_items_are_node_definitions :
  forall code : str,
    Forall (fun it =>
              exists l,
                label l = true
                /\ identifier (id it) = true
                /\ item_title it = py_strip l
                /\ description it = py "Complete: " ++ item_title it
                /\ py_in (id it ++ [91] ++ l ++ [93]) code = true)
           (parse_mermaid_diagram code).
Proof.
  intros code. apply Forall_forall. intros it H.
  apply in_parse_mermaid_diagram in H as [a [i [l [rest [E [Hi [Hl ->]]]]]]].
  exists l. cbn [id item_title description]. repeat split; try assumption.
  apply py_in_spec. exists a, rest. rewrite E, <- !app_assoc. reflexivity.
Qed.


End Items.


(** ** The node definitions of a diagram, read from left to right *)

(** The longest start of [s] made of code points of the class [p], and
    what follows it. *)
Fixpoint span (p : charset) (s : str) : str * str :=
  match s with
  | c :: s' =>
      if p c then let (w, t) := span p s' in (c :: w, t) else ([], s)
  | [] => ([], [])
  end.

Section Nodes.
Context {U : Unicode}.
Import Gemini.

(** The node definition that starts the text, if there is one: an
    upper-case letter and the word characters that follow it, an opening
    bracket, the code points up to the next closing bracket, of which there
    is at least one, and that bracket.  The answer is the identifier, the
    label and the text after the definition. *)
Definition node_at (s : str) : option (str * str * str) :=
  match s with
  | u :: s' =>
      if is_upper u then
        let (w, t) := span isword s' in
        match t with
        | c :: t' =>
            if c =? 91 then
              let (l, r) := span (fun c => negb (c =? 93)) t' in
              match l, r with
              | _ :: _, d :: post => if d =? 93 then Some (u :: w, l, post) else None
              | _, _ => None
              end
            else None
        | [] => None
        end
      else None
  | [] => None
  end.

(** The node definitions met when the text is read from left to right: a
    definition that starts where the reading stands is taken and the reading
    goes on after its closing bracket; otherwise the reading moves one code
    point on.  [fuel] bounds the number of steps. *)
Fixpoint node_definitions_from (fuel : nat) (s : str) : list (str * str) :=
  match fuel with
  | O => []
  | S k =>
      match node_at s with
      | Some (i, l, post) => (i, l) :: node_definitions_from k post
      | None =>
          match s with
          | [] => []
          | _ :: s' => node_definitions_from k s'
          end
      end
  end.

Definition node_definitions (s : str) : list (str * str) :=
  node_definitions_from (length s) s.

(** The item of a node definition. *)
Definition item_of (d : str * str) : item :=
  {| id := fst d;
     item_title := py_strip (snd d);
     description := py "Complete: " ++ py_strip (snd d) |}.

Lemma span_spec (p : charset) (s w t : str) :
  span p s = (w, t) ->
  s = w ++ t /\ forallb p w = true
  /\ match t with [] => True | c :: _ => p c = false end.
Proof.
  revert w t. induction s as [|c s IH]; intros w t; cbn [span].
  - intros [= <- <-]. now repeat split.
  - destruct (p c) eqn:Pc.
    + destruct (span p s) as [w0 t0]. intros [= <- <-].
      destruct (IH w0 t0 eq_refl) as [-> [Hw Ht]]. cbn [forallb]. rewrite Pc.
      now repeat split.
    + intros [= <- <-]. cbn [app forallb]. now repeat split.
Qed.

Lemma span_app (p : charset) (w t : str) :
  forallb p w = true ->
  match t with [] => True | c :: _ => p c = false end ->
  span p (w ++ t) = (w, t).
Proof.
  intros Hw Ht. induction w as [|c w IH]; cbn [app span].
  - destruct t as [|c t]; cbn [span]; [reflexivity | now rewrite Ht].
  - cbn [forallb] in Hw. apply andb_true_iff in Hw as [-> Hw]. now rewrite (IH Hw).
Qed.

Lemma node_at_some (s i l post : str) :
  node_at s = Some (i, l, post) ->
  s = i ++ 91 :: l ++ 93 :: post /\ identifier i = true /\ label l = true.
Proof.
  unfold node_at. destruct s as [|u s]; [discriminate|].
  destruct (is_upper u) eqn:Hu; [|discriminate].
  destruct (span isword s) as [w t] eqn:Sw.
  destruct (span_spec _ _ _ _ Sw) as [-> [Hw _]].
  destruct t as [|c t]; [discriminate|].
  destruct (N.eqb_spec c 91) as [->|]; [|discriminate].
  destruct (span (fun c => negb (c =? 93)) t) as [l0 r] eqn:Sl.
  destruct (span_spec _ _ _ _ Sl) as [-> [Hl _]].
  destruct l0 as [|c0 l0]; [discriminate|]. destruct r as [|d r]; [discriminate|].
  destruct (N.eqb_spec d 93) as [->|]; [|discriminate].
  intros [= <- <- <-]. split; [reflexivity|]. split.
  - cbn [identifier]. now rewrite Hu, Hw.
  - unfold label. now rewrite Hl.
Qed.

Lemma node_at_intro (i l post : str) :
  identifier i = true -> label l = true ->
  node_at (i ++ 91 :: l ++ 93 :: post) = Some (i, l, post).
Proof.
  intros Hi Hl. destruct i as [|u w]; [discriminate|].
  cbn [identifier] in Hi. apply andb_true_iff in Hi as [Hu Hw].
  apply andb_true_iff in Hl as [Hne Hl].
  cbn [app node_at]. rewrite Hu.
  rewrite (span_app isword w (91 :: l ++ 93 :: post) Hw) by reflexivity.
  change (91 =? 91) with true. cbv iota.
  rewrite (span_app (fun c => negb (c =? 93)) l (93 :: post) Hl) by reflexivity.
  destruct l as [|c l]; [discriminate Hne | reflexivity].
Qed.

(** Where no node definition starts, the pattern does not match. *)
Lemma node_at_none (n : nat) (s : str) :
  node_at s = None -> rmatch n node_pattern (s, []) = [].
Proof.
  intros H. destruct (rmatch n node_pattern (s, [])) as [|[rest g] o] eqn:R;
    [reflexivity|]. exfalso.
  assert (Hin : In (rest, g) (rmatch n node_pattern (s, [])))
    by (rewrite_rmatch R; now left).
  apply node_match_shape in Hin as [i [l [-> [Hi [Hl _]]]]].
  rewrite (node_at_intro i l rest Hi Hl) in H. discriminate H.
Qed.

(** The matches of the node pattern are the node definitions read from
    left to right. *)
Lemma hits_scan_nodes (n : nat) (fuel : nat) :
  forall s : str,
    (length s <= fuel)%nat ->
    hits (scan n node_pattern 0 s)
    = map (fun d : str * str =>
             (fst d ++ 91 :: snd d ++ [93], [(2%nat, snd d); (1%nat, fst d)]))
          (node_definitions_from fuel s).
Proof.
  induction fuel as [|k IH]; intros s Hs.
  - destruct s; [|simpl in Hs; lia]. rewrite scan_end; [reflexivity|].
    now apply node_at_none.
  - cbn [node_definitions_from].
    destruct (node_at s) as [[[i l] post]|] eqn:A.
    + destruct (node_at_some _ _ _ _ A) as [-> [Hi Hl]].
      replace (i ++ 91 :: l ++ 93 :: post) with ((i ++ 91 :: l ++ [93]) ++ post)
        by (rewrite <- !app_assoc; cbn [app]; now rewrite <- app_assoc).
      rewrite scan_hit with (g := [(2%nat, l); (1%nat, i)]).
      * cbn [hits flat_map app map fst snd].
        fold (hits (scan n node_pattern 0 post)). rewrite IH; [reflexivity|].
        rewrite length_app in Hs. cbn [length] in Hs. rewrite length_app in Hs.
        cbn [length] in Hs. lia.
      * replace ((i ++ 91 :: l ++ [93]) ++ post) with (i ++ 91 :: l ++ 93 :: post)
          by (rewrite <- !app_assoc; cbn [app]; now rewrite <- app_assoc).
        now apply node_first.
      * destruct i; discriminate.
    + destruct s as [|c s].
      * rewrite scan_end; [reflexivity | now apply node_at_none].
      * rewrite scan_miss by now apply node_at_none.
        cbn [hits flat_map app]. fold (hits (scan n node_pattern 0 s)).
        apply IH. simpl in Hs. lia.
Qed.

(** C6, as the code has it.  Whatever the code of the diagram, the parser
    yields one item per node definition met when the code is read from left
    to right, in that order: the identifier, the trimmed label as title,
    "Complete: " and the title as description.  A node definition is an
    upper-case letter and the word characters that follow it, directly
    followed by an opening bracket, a label of one code point at least that
    runs up to the next closing bracket, and that bracket; the reading goes
    on after the bracket.  Identifiers that occur twice give two items.  The
    diagram of the design document gives the two items of A and B. *)
Theorem parse_mermaid_diagram_items :
  (forall code : str,
     parse_mermaid_diagram code = map item_of (node_definitions code))
  /\ parse_mermaid_diagram
       (py "flowchart TD\nA[Learn Basics]\nB[Build Project]\nA-->B")
     = [{| id := py "A"; item_title := py "Learn Basics";
           description := py "Complete: Learn Basics" |};
        {| id := py "B"; item_title := py "Build Project";
           description := py "Complete: Build Project" |}]
  /\ parse_mermaid_diagram (py "A[One] --> A[Two]")
     = [{| id := py "A"; item_title := py "One"; description := py "Complete: One" |};
        {| id := py "A"; item_title := py "Two"; description := py "Complete: Two" |}].
Proof.
  split; [|split; vm_compute; reflexivity].
  intros code. unfold parse_mermaid_diagram, findall2, node_definitions.
  rewrite (hits_scan_nodes (length code) (length code) code (Nat.le_refl _)).
  rewrite !map_map. apply map_ext. intros [i l]. reflexivity.
Qed.

End Nodes.

(** C6 as stated fails on node definitions the parser does not see.  "B[]"
    is an identifier followed by a bracketed label, which is empty: it gives
    no item.  In "A[foo B[bar]" the definition "B[bar]" stands inside the
    label of A, which runs up to the first closing bracket: the parser gives
    the item of A alone. *)
Lemma node_definition_without_item :
  (forall U : Unicode,
     identifier (py "B") = true
     /\ Gemini.parse_mermaid_diagram (py "B[]") = [])
  /\ py "A[foo B[bar]" = py "A[foo " ++ py "B" ++ [91] ++ py "bar" ++ [93]
  /\ label (py "bar") = true
  /\ (forall U : Unicode,
        identifier (py "B") = true
        /\ Gemini.parse_mermaid_diagram (py "A[foo B[bar]")
           = [{| Gemini.id := py "A"; Gemini.item_title := py "foo B[bar";
                 Gemini.description := py "Complete: foo B[bar" |}]).
Proof.
  repeat split; try reflexivity; vm_compute; reflexivity.
Qed.

Lemma parse_mermaid_diagram_items_witness :
  Gemini.parse_mermaid_diagram (U := ascii_only) (py "A[x] --> b[y] --> C[ z ]")
  = [{| Gemini.id := py "A"; Gemini.item_title := py "x";
        Gemini.description := py "Complete: x" |};
     {| Gemini.id := py "C"; Gemini.item_title := py "z";
        Gemini.description := py "Complete: z" |}].
Proof.
  rewrite (proj1 (parse_mermaid_diagram_items (U := ascii_only))). reflexivity.
Defined.

(** ** The calls and the entries of a turn *)

Section Turns.
Context {U : Unicode} (C : Gemini.collaborators).
Import Gemini.

(** The entry of the model in [conversation_history]. *)
Definition assistant_entry (response : str) : message :=
  {| role := py "assistant"; content := py_strip response |}.

(** The calls of a turn other than those to the store. *)
Definition off_store (e : event) : Prop :=
  match e with
  | WebSearch _ _ | GenerateContent _ => True
  | _ => False
  end.

(** What the first lines of [chat] do to the client. *)
Lemma init_conversation_cases (session_id : option str) (c : client) (log : list event) :
  exists c1 ev,
    init_conversation C session_id (c, log) = (Returned tt, (c1, log ++ ev))
    /\ Forall is_read ev /\ (length ev <= 2)%nat
    /\ system_prompt c1 = system_prompt c
    /\ use_database c1 = use_database c
    /\ db c1 = db c
    /\ (current_conversation_id c1 = current_conversation_id c
        \/ (truthy (current_conversation_id c) = false
            /\ current_conversation_id c1
               = get_or_create_conversation C (the session_id)
            /\ truthy (current_conversation_id c1) = true))
    /\ (use_database c && db c = false -> c1 = c /\ ev = []).
Proof.
  unfold init_conversation, set_conversation_id, db_history, when,
    bind, self, update, call, ret; simpl.
  assert (R : forall e : event, is_read e -> Forall is_read [e])
    by (intros; now constructor).
  assert (R2 : forall e1 e2 : event, is_read e1 -> is_read e2 -> Forall is_read [e1; e2])
    by (intros; now repeat constructor).
  destruct (use_database c && db c && truthy session_id) eqn:G; simpl.
  - apply andb_true_iff in G as [G Gs].
    destruct (truthy (current_conversation_id c)) eqn:I; simpl.
    + destruct (is_empty (conversation_history c)) eqn:E; simpl.
      * eexists _, [_]. split; [reflexivity|]. simpl.
        repeat split; auto; try (now apply R); try lia; congruence.
      * exists c, []. rewrite app_nil_r. simpl.
        repeat split; auto; try lia; congruence.
    + destruct (get_or_create_conversation C (the session_id)) as [i|] eqn:T; simpl.
      * destruct (is_empty i) eqn:Ei; simpl.
        -- eexists _, [_]. split; [reflexivity|]. simpl.
           repeat split; auto; try (now apply R); try lia; congruence.
        -- rewrite G. simpl. rewrite <- app_assoc.
           eexists _, [_; _]. split; [reflexivity|]. simpl.
           split; [now apply R2|]. split; [lia|].
           repeat split; auto; try congruence.
           right. rewrite Ei. now repeat split.
      * eexists _, [_]. split; [reflexivity|]. simpl.
        repeat split; auto; try (now apply R); try lia; congruence.
  - exists c, []. rewrite app_nil_r. simpl. repeat split; auto.
Qed.

(** The message [enhance] answers does not depend on the client. *)
Lemma enhance_anywhere (user_message : str) (w w' : world) :
  fst (enhance C user_message w) = fst (enhance C user_message w').
Proof.
  unfold enhance, perform_web_search, bind, call, ret.
  destruct (truthy (_detect_search_query user_message)); [|reflexivity].
  cbn [fst snd].
  destruct (negb (is_empty (map _ (ddgs_text C (the (_detect_search_query user_message)) 6))));
    reflexivity.
Qed.

Lemma transcript_prefix (h : list message) (text : str) :
  exists body, transcript h text = text ++ body.
Proof.
  revert text. induction h as [|msg h IH]; intros text.
  - exists []. now rewrite app_nil_r.
  - change (msg :: h) with ([msg] ++ h). rewrite transcript_app.
    destruct (IH (transcript [msg] text)) as [body ->].
    unfold transcript. cbn [fold_left].
    destruct (str_eqb (role msg) (py "user")); eexists; rewrite <- !app_assoc;
      reflexivity.
Qed.

(** A whole turn: the client is brought in line with the store, the
    message enhanced, the entry of the user appended and stored, the prompt
    sent; the answer of the model, trimmed, is appended and stored, or its
    exception turned into the reply. *)
Lemma turn_run (user_message : str) (session_id : option str)
    (user_settings : option settings) (c : client) (log : list event) :
  exists c1 reads m search,
    init_conversation C session_id (c, log) = (Returned tt, (c1, log ++ reads))
    /\ enhance C user_message (c1, log ++ reads)
       = (Returned m, (c1, (log ++ reads) ++ search))
    /\ let entry := user_entry user_settings m in
       let h := conversation_history c1 ++ [entry] in
       let p := transcript h (system_prompt c ++ py "\n\n") ++ py "Assistant:" in
       chat C user_message session_id user_settings (c, log)
       = match generate_content C p with
         | Returned response =>
             (Returned (py_strip response),
              (set_history (h ++ [assistant_entry response]) c1,
               log ++ reads ++ search ++ stored c1 (py "user") (content entry)
                   ++ GenerateContent p
                   :: stored c1 (py "assistant") (py_strip response)))
         | Raised e =>
             (Returned (error_reply e),
              (set_history h c1,
               log ++ reads ++ search ++ stored c1 (py "user") (content entry)
                   ++ [GenerateContent p]))
         end.
Proof.
  destruct (prepare_run C user_message session_id user_settings c log)
    as [c1 [reads [m [search [Hi [He Hp]]]]]].
  exists c1, reads, m, search. split; [exact Hi|]. split; [exact He|].
  cbv zeta in Hp |- *. erewrite chat_run by exact Hp.
  destruct (generate_content C _) as [response|e] eqn:G.
  - erewrite respond_success by exact G. unfold stored, assistant_entry.
    cbn [set_history conversation_history use_database db current_conversation_id].
    rewrite <- !app_assoc. reflexivity.
  - erewrite respond_failure by exact G. rewrite <- !app_assoc. reflexivity.
Qed.

(** X6.  A turn in which the model answers: the history is brought in line
    with the store, then the entry of the user and the entry of the model
    are appended, in this order; the reply is the trimmed answer, which is
    the content of the second entry.  When the client reaches the store the
    two entries are saved, the first before the model is called, the second
    after. *)
Theorem answered_turn_appends_both_entries :
  forall (user_message : str) (session_id : option str)
         (user_settings : option settings) (c : client) (log : list event),
  exists c1 reads m search,
    init_conversation C session_id (c, log) = (Returned tt, (c1, log ++ reads))
    /\ fst (enhance C user_message (c, log)) = Returned m
    /\ let entry := user_entry user_settings m in
       let h := conversation_history c1 ++ [entry] in
       let p := transcript h (system_prompt c ++ py "\n\n") ++ py "Assistant:" in
       forall response : str,
         generate_content C p = Returned response ->
         exists c2,
           chat C user_message session_id user_settings (c, log)
           = (Returned (py_strip response),
              (c2,
               log ++ reads ++ search ++ stored c1 (py "user") (content entry)
                   ++ GenerateContent p
                   :: stored c1 (py "assistant") (py_strip response)))
           /\ conversation_history c2
              = conversation_history c1 ++ [entry; assistant_entry response]
           /\ content (assistant_entry response) = py_strip response.
Proof.
  intros user_message session_id user_settings c log.
  destruct (turn_run user_message session_id user_settings c log)
    as [c1 [reads [m [search [Hi [He Ht]]]]]].
  exists c1, reads, m, search. split; [exact Hi|]. split.
  { rewrite (enhance_anywhere user_message (c, log) (c1, log ++ reads)).
    now rewrite He. }
  cbv zeta in Ht |- *. intros response G. rewrite G in Ht.
  eexists. split; [exact Ht|]. split; [|reflexivity].
  cbn [set_history conversation_history]. now rewrite <- app_assoc.
Qed.

(** X7.  The calls of a turn, in their order: at most two reads of the
    store; at most one search, made exactly when a query is detected, for
    that query and 6 results; at most one save of the entry of the user; one
    call of the model, and no other; at most one save, of the reply.  The
    prompt of the model starts with the system prompt and ends with the
    entry of the user under "User: " and the cue "Assistant:".  The reply is
    a string, and the turn changes neither the system prompt nor the
    database flags of the client. *)
Theorem turn_calls_the_model_once :
  forall (user_message : str) (session_id : option str)
         (user_settings : option settings) (c : client) (log : list event),
  exists reply c2 reads search save_user p save_reply m body,
    chat C user_message session_id user_settings (c, log)
    = (Returned reply,
       (c2, log ++ reads ++ search ++ save_user ++ GenerateContent p :: save_reply))
    /\ Forall is_read reads /\ (length reads <= 2)%nat
    /\ (_detect_search_query user_message = None /\ search = []
        \/ exists q, _detect_search_query user_message = Some q
                     /\ search = [WebSearch q 6])
    /\ (save_user = []
        \/ exists i, save_user
                     = [SaveMessage i (py "user") (with_settings user_settings m)])
    /\ (save_reply = []
        \/ exists i, save_reply = [SaveMessage i (py "assistant") reply])
    /\ fst (enhance C user_message (c, log)) = Returned m
    /\ p = system_prompt c ++ py "\n\n" ++ body
           ++ py "User: " ++ with_settings user_settings m ++ py "\n\nAssistant:"
    /\ system_prompt c2 = system_prompt c
    /\ use_database c2 = use_database c
    /\ db c2 = db c.
Proof.
  intros user_message session_id user_settings c log.
  destruct (turn_run user_message session_id user_settings c log)
    as [c1 [reads [m [search [Hi [He Ht]]]]]].
  destruct (init_conversation_cases session_id c log)
    as [c1' [reads' [Hi' [Hr [Hl [Hs [Hu [Hd _]]]]]]]].
  rewrite Hi in Hi'. injection Hi' as <- Hev. apply app_inv_head in Hev. subst reads'.
  destruct (enhance_run C user_message c1 (log ++ reads)) as [m' [search' [He' [_ [Hq Hn]]]]].
  rewrite He in He'. injection He' as <- Hev. apply app_inv_head in Hev. subst search'.
  cbv zeta in Ht.
  destruct (transcript_prefix (conversation_history c1) (system_prompt c ++ py "\n\n"))
    as [body Hb].
  set (p := transcript (conversation_history c1 ++ [user_entry user_settings m])
              (system_prompt c ++ py "\n\n") ++ py "Assistant:") in *.
  assert (Hp : p = system_prompt c ++ py "\n\n" ++ body
                   ++ py "User: " ++ with_settings user_settings m
                   ++ py "\n\nAssistant:").
  { subst p. rewrite transcript_app, Hb. unfold transcript, user_entry.
    cbn [fold_left role content]. change (str_eqb (py "user") (py "user")) with true.
    cbv iota. rewrite <- !app_assoc. reflexivity. }
  assert (Hsearch : _detect_search_query user_message = None /\ search = []
                    \/ exists q, _detect_search_query user_message = Some q
                                 /\ search = [WebSearch q 6]).
  { destruct (_detect_search_query user_message) as [q|] eqn:D.
    - right. exists q. split; [reflexivity|]. now destruct (Hq q eq_refl).
    - left. split; [reflexivity|]. now destruct (Hn eq_refl). }
  assert (Hsave : forall r t,
             stored c1 r t = [] \/ exists i, stored c1 r t = [SaveMessage i r t]).
  { intros r t. unfold stored.
    destruct (use_database c1 && db c1 && truthy (current_conversation_id c1));
      [right; eexists; reflexivity | now left]. }
  assert (Hm : fst (enhance C user_message (c, log)) = Returned m).
  { rewrite (enhance_anywhere user_message (c, log) (c1, log ++ reads)).
    now rewrite He. }
  clearbody p.
  destruct (generate_content C p) as [response|e].
  - eexists _, _, reads, search, _, p, _, m, body. split; [exact Ht|].
    cbn [set_history system_prompt use_database db].
    repeat split; try assumption; try apply Hsave.
  - eexists _, _, reads, search, _, p, [], m, body. split; [exact Ht|].
    cbn [set_history system_prompt use_database db].
    repeat split; try assumption; try apply Hsave. now left.
Qed.

(** X8.  A client without database ([use_database] unset, or no [db])
    asks nothing of the store during a turn: its calls are the search, if
    any, and then the model, called on the prompt built from the history and
    the entry of the user.  Its conversation id is left as it was.  When
    the model answers, the reply is its trimmed answer and the history grows
    by the entry of the user and the entry of the model; when the model call
    raises, the reply is the error text and the history grows by the entry
    of the user alone. *)
Theorem turn_without_database_asks_no_store :
  forall (user_message : str) (session_id : option str)
         (user_settings : option settings) (c : client) (log : list event),
    use_database c && db c = false ->
    exists reply c2 search m,
      let entry := user_entry user_settings m in
      let p := transcript (conversation_history c ++ [entry])
                          (system_prompt c ++ py "\n\n") ++ py "Assistant:" in
      chat C user_message session_id user_settings (c, log)
      = (Returned reply, (c2, log ++ search ++ [GenerateContent p]))
      /\ Forall off_store (search ++ [GenerateContent p])
      /\ (_detect_search_query user_message = None /\ search = []
          \/ exists q, _detect_search_query user_message = Some q
                       /\ search = [WebSearch q 6])
      /\ current_conversation_id c2 = current_conversation_id c
      /\ fst (enhance C user_message (c, log)) = Returned m
      /\ match generate_content C p with
         | Returned response =>
             reply = py_strip response
             /\ conversation_history c2
                = conversation_history c ++ [entry; assistant_entry response]
         | Raised e =>
             reply = error_reply e
             /\ conversation_history c2 = conversation_history c ++ [entry]
         end.
Proof.
  intros user_message session_id user_settings c log Hdb.
  destruct (turn_run user_message session_id user_settings c log)
    as [c1 [reads [m [search [Hi [He Ht]]]]]].
  destruct (init_conversation_cases session_id c log)
    as [c1' [reads' [Hi' [_ [_ [_ [_ [_ [_ Hn]]]]]]]]].
  rewrite Hi in Hi'. injection Hi' as <- Hev. apply app_inv_head in Hev. subst reads'.
  destruct (Hn Hdb) as [-> ->].
  destruct (enhance_run C user_message c (log ++ [])) as [m' [search' [He' [Hw [Hq Hnq]]]]].
  rewrite He in He'. injection He' as <- Hev. apply app_inv_head in Hev. subst search'.
  assert (Hs : forall r t, stored c r t = []).
  { intros r t. unfold stored. now rewrite Hdb. }
  assert (Hoff : Forall off_store search).
  { apply Forall_forall. intros e Hin. destruct (Hw e Hin) as [q [_ ->]]. exact I. }
  assert (Hm : fst (enhance C user_message (c, log)) = Returned m).
  { rewrite (enhance_anywhere user_message (c, log) (c, log ++ [])).
    now rewrite He. }
  assert (Hsearch : _detect_search_query user_message = None /\ search = []
                    \/ exists q, _detect_search_query user_message = Some q
                                 /\ search = [WebSearch q 6]).
  { destruct (_detect_search_query user_message) as [q|] eqn:D.
    - right. exists q. split; [reflexivity|]. now destruct (Hq q eq_refl).
    - left. split; [reflexivity|]. now destruct (Hnq eq_refl). }
  cbv zeta in Ht |- *. rewrite !Hs in Ht. cbn [app] in Ht.
  destruct (generate_content C _) as [response|e] eqn:G.
  - rewrite Hs in Ht. eexists _, _, search, m. cbv zeta. rewrite G.
    split; [exact Ht|].
    cbn [set_history conversation_history current_conversation_id].
    split; [|split; [exact Hsearch|split; [reflexivity|split; [exact Hm|]]]].
    + apply Forall_app. split; [exact Hoff | repeat constructor].
    + split; [reflexivity|]. now rewrite <- app_assoc.
  - eexists _, _, search, m. cbv zeta. rewrite G. split; [exact Ht|].
    cbn [set_history conversation_history current_conversation_id].
    split; [|split; [exact Hsearch|split; [reflexivity|split; [exact Hm|]]]].
    + apply Forall_app. split; [exact Hoff | repeat constructor].
    + split; reflexivity.
Qed.

End Turns.

(** A model that answers, a search that finds one page, a store that holds
    one message. *)
Definition answering : Gemini.collaborators :=
  {| Gemini.get_or_create_conversation := fun _ => Some (py "c1");
     Gemini.get_conversation_history := fun _ => stored_history;
     Gemini.ddgs_text := fun _ _ =>
       [{| Gemini.raw_title := Some (py "Rust book"); Gemini.raw_href := None;
           Gemini.raw_body := Some (py "The book") |}];
     Gemini.generate_content := fun _ => Gemini.Returned (py " Here is a plan.\n") |}.

(** A client whose store could not be set up. *)
Definition offline_client : Gemini.client :=
  {| Gemini.system_prompt := py "SYS";
     Gemini.conversation_history := [];
     Gemini.use_database := false;
     Gemini.db := false;
     Gemini.current_conversation_id := None |}.

Lemma answered_turn_appends_both_entries_witness :
  exists c2 ev,
    Gemini.chat (U := ascii_only) answering (py "hello") (Some (py "s1")) None
      (fresh_client, [])
    = (Gemini.Returned (py "Here is a plan."), (c2, ev))
    /\ Gemini.conversation_history c2
       = stored_history
         ++ [user_entry None (py "hello"); assistant_entry (py " Here is a plan.\n")].
Proof.
  destruct (answered_turn_appends_both_entries (U := ascii_only) answering
              (py "hello") (Some (py "s1")) None fresh_client [])
    as [c1 [reads [m [search [Hi [Hm H]]]]]].
  injection Hi as <- _. injection Hm as <-.
  destruct (H (py " Here is a plan.\n") eq_refl) as [c2 [Hc [Hh _]]].
  exists c2. eexists. split; [exact Hc | exact Hh].
Defined.

Lemma turn_without_database_asks_no_store_witness :
  exists reply c2 ev,
    Gemini.chat (U := ascii_only) answering (py "search: rust") (Some (py "s1")) None
      (offline_client, [])
    = (Gemini.Returned reply, (c2, ev))
    /\ Forall off_store ev
    /\ Gemini.current_conversation_id c2 = None.
Proof.
  destruct (turn_without_database_asks_no_store (U := ascii_only) answering
              (py "search: rust") (Some (py "s1")) None offline_client [] eq_refl)
    as [reply [c2 [search [m [Hc [Hf [_ [Hi _]]]]]]]].
  exists reply, c2. eexists. split; [exact Hc|]. split; [exact Hf | exact Hi].
Defined.

(** ** The text left when the blocks are removed *)

Section Removal.
Import Front.

(** A pattern that opens with the literal [f1] and closes with the literal
    [f2] matches only where [f1] stands, with [f2] after it. *)
Lemma delimited_shape (n : nat) (f1 f2 : str) (rs : list regex) (s : str) (g : captures) :
  rmatch n (cat (Str f1 :: rs ++ [Str f2])) (s, g) <> [] ->
  exists m rest, s = f1 ++ m ++ f2 ++ rest.
Proof.
  intros H.
  destruct (rmatch n (cat (Str f1 :: rs ++ [Str f2])) (s, g)) as [|st' o] eqn:E;
    [contradiction|].
  assert (Hin : In st' (rmatch n (cat (Str f1 :: rs ++ [Str f2])) (s, g)))
    by (rewrite E; now left).
  rewrite cat_cons in Hin by (destruct rs; discriminate).
  apply in_rmatch_seq in Hin as [st1 [H1 H2]].
  apply in_rmatch_Str in H1. apply in_rmatch_ends_with in H2 as [m E2].
  cbn [fst] in H1. exists m, (fst st'). now rewrite H1, E2.
Qed.

Definition block_middle : list regex :=
  [Rep true 0 isspace; Rep false 0 any; Rep true 0 isspace].

(** Both patterns match only where a fence stands, with a fence after it. *)
Lemma pattern1_shape (n : nat) (s : str) (g : captures) :
  rmatch n pattern1 (s, g) <> [] ->
  exists m rest, s = fence ++ m ++ fence ++ rest.
Proof.
  intros H.
  destruct (delimited_shape n (py "```mermaid") fence block_middle s g H)
    as [m [rest ->]].
  exists (py "mermaid" ++ m), rest. reflexivity.
Qed.

Lemma pattern2_shape (n : nat) (s : str) (g : captures) :
  rmatch n pattern2 (s, g) <> [] ->
  exists m rest, s = fence ++ m ++ fence ++ rest.
Proof. exact (delimited_shape n fence fence block_middle s g). Qed.

Lemma sub_empty_no_match (r : regex) (s : str) :
  (forall a b, s = a ++ b -> rmatch (length s) r (b, []) = []) ->
  sub_empty r s = s.
Proof.
  intros H. unfold sub_empty. rewrite scan_no_match by exact H.
  apply gaps_map_Gap.
Qed.

Lemma no_match_without_two_fences (r : regex) (n : nat) (text a b : str) :
  (forall s g, rmatch n r (s, g) <> [] -> exists m rest, s = fence ++ m ++ fence ++ rest) ->
  has_two fence text = false -> text = a ++ b ->
  rmatch n r (b, []) = [].
Proof.
  intros Shape H E.
  destruct (rmatch n r (b, [])) as [|st o] eqn:R; [reflexivity|].
  exfalso. destruct (Shape b []) as [m [rest Eb]];
    [exact (cons_not_nil _ _ _ _ R)|].
  apply (has_two_false fence text H a m rest). now rewrite E, Eb.
Qed.

(** Without two fences neither substitution finds a block. *)
Lemma sub_without_fences (text : str) :
  has_two fence text = false ->
  sub_empty pattern1 text = text /\ sub_empty pattern2 text = text.
Proof.
  intros H. split; apply sub_empty_no_match; intros a b E.
  - apply (no_match_without_two_fences pattern1 (length text) text a b);
      [apply pattern1_shape | exact H | exact E].
  - apply (no_match_without_two_fences pattern2 (length text) text a b);
      [apply pattern2_shape | exact H | exact E].
Qed.

(** X9.  A text that does not hold two fences, one after the other, has no
    block to remove: it is returned trimmed, and otherwise unchanged. *)
Theorem text_without_blocks_is_kept :
  forall text : str,
    has_two fence text = false ->
    remove_mermaid_blocks text = py_strip text.
Proof.
  intros text H. unfold remove_mermaid_blocks.
  destruct (sub_without_fences text H) as [H1 H2].
  rewrite H1, H2. reflexivity.
Qed.

(** A block as the system prompt asks for it: the fence, directly followed
    by the word mermaid in lower case. *)
Definition exact_block (b : block) : bool :=
  is_empty (blk_ws b) && str_eqb (blk_tag b) (py "mermaid") && block_ok b.

(** The text around the blocks of a document. *)
Definition around (bs : list block) (tail : str) : str :=
  concat (map blk_sep bs) ++ tail.

(** The lazy repetition grows up to the first place where what follows it
    matches. *)
Lemma first_match_lazy (n : nat) (k : regex) (body rest : str) (g : captures)
    (st' : mstate) :
  (forall a b, body = a ++ b -> b <> [] -> rmatch n k (b ++ rest, g) = []) ->
  first_match n k (rest, g) st' ->
  first_match n (Seq (Rep false 0 any) k) (body ++ rest, g) st'.
Proof.
  intros H [o Hk]. unfold first_match. cbn [rmatch fst snd].
  induction body as [|c body IH].
  - cbn [app]. destruct rest as [|c rest]; cbn [rep_lazy map flat_map app any Nat.pred];
      rewrite_rmatch Hk; cbn [app]; eauto.
  - cbn [app rep_lazy any Nat.pred map flat_map].
    pose proof (H [] (c :: body) eq_refl) as H0. cbn [app] in H0.
    rewrite_rmatch (H0 ltac:(discriminate)). cbn [app].
    apply IH. intros a b E Hb. apply (H (c :: a) b); [now rewrite E | exact Hb].
Qed.

Lemma pattern1_first (n : nat) (b : block) (post : str) :
  exact_block b = true ->
  first_match n pattern1 (block_text b ++ post, []) (post, []).
Proof.
  unfold exact_block, block_ok, block_text. destruct b as [sep ws tag inner].
  cbn [blk_sep blk_ws blk_tag blk_inner].
  intros H. apply andb_true_iff in H as [H Hok]. apply andb_true_iff in H as [Hws Htag].
  apply is_empty_true in Hws. apply str_eqb_eq in Htag. subst ws tag.
  apply andb_true_iff in Hok as [_ Hi].
  destruct (inner_decompose inner) as [lead [trail [E [Hl [Ht [T Hnil]]]]]].
  rewrite E in Hi. apply fence_free_part in Hi.
  rewrite E at 1. generalize dependent (py_strip inner). intros body Hi _ T Hnil.
  unfold fence_free in Hi. rewrite negb_true_iff, <- app_assoc in Hi.
  replace ((fence ++ [] ++ py "mermaid" ++ (lead ++ body ++ trail) ++ fence) ++ post)
    with (py "```mermaid" ++ lead ++ body ++ trail ++ fence ++ post)
    by (cbn [app]; now rewrite <- !app_assoc).
  unfold pattern1. cbn [cat].
  eapply first_match_seq; [apply first_match_Str|].
  eapply first_match_seq.
  { apply first_match_rep_greedy; [exact Hl | | apply Nat.le_0_l].
    destruct body as [|c body]; [rewrite (Hnil eq_refl); reflexivity | apply T]. }
  apply (first_match_lazy n closing body (trail ++ fence ++ post) []).
  - intros a b0 Eb Hb. now apply (closing_not_inside n body trail post a b0 []).
  - now apply closing_first.
Qed.

Lemma no_pattern1_in_separator (n : nat) (sep a b rest : str) :
  fence_free sep = true -> sep = a ++ b -> b <> [] ->
  py_startswith (py "``") rest = true ->
  rmatch n pattern1 (b ++ rest, []) = [].
Proof.
  intros Hs E Hb Hr.
  destruct (rmatch n pattern1 (b ++ rest, [])) as [|st o] eqn:R; [reflexivity|].
  exfalso.
  destruct (pattern1_shape n (b ++ rest) []) as [m [r Eq]];
    [exact (cons_not_nil _ _ _ _ R)|].
  apply py_startswith_spec in Hr as [rest' ->].
  unfold fence_free in Hs. rewrite negb_true_iff in Hs.
  apply not_true_iff_false in Hs. apply Hs. rewrite E.
  replace ((a ++ b) ++ py "``") with (a ++ (b ++ py "``") ++ [])
    by (now rewrite app_nil_r, app_assoc).
  apply (py_in_app fence a (b ++ py "``") []).
  assert (S : py_startswith fence (b ++ py "``") = true).
  { apply (py_startswith_cut fence _ rest').
    - rewrite <- app_assoc. apply py_startswith_spec. eauto.
    - rewrite length_app. destruct b; [contradiction | simpl; lia]. }
  apply py_startswith_spec in S as [t ->]. apply py_in_spec. now exists [], t.
Qed.

Lemma no_pattern1_without_fence (n : nat) (tail a b : str) :
  py_in fence tail = false -> tail = a ++ b ->
  rmatch n pattern1 (b, []) = [].
Proof.
  intros H E.
  destruct (rmatch n pattern1 (b, [])) as [|st o] eqn:R; [reflexivity|].
  exfalso.
  destruct (pattern1_shape n b []) as [m [r Eq]];
    [exact (cons_not_nil _ _ _ _ R)|].
  apply not_true_iff_false in H. apply H. apply py_in_spec.
  exists a, (m ++ fence ++ r). now rewrite E, Eq.
Qed.

(** The first substitution takes the blocks out of a document. *)
Lemma sub_pattern1_document (n : nat) (bs : list block) (tail : str) :
  forallb exact_block bs = true -> py_in fence tail = false ->
  gaps (scan n pattern1 0 (document bs tail)) = around bs tail.
Proof.
  intros Hb Ht. unfold around. induction bs as [|b bs IH]; cbn [document map concat].
  - rewrite scan_no_match; [apply gaps_map_Gap|].
    intros a b E. now apply (no_pattern1_without_fence n tail a b).
  - cbn [forallb] in Hb. apply andb_true_iff in Hb as [Hb Hbs].
    rewrite scan_run.
    + rewrite gaps_app, gaps_map_Gap. rewrite <- app_assoc. f_equal.
      rewrite scan_hit with (g := []).
      * cbn [gaps flat_map app]. fold (gaps (scan n pattern1 0 (document bs tail))).
        now apply IH.
      * now apply pattern1_first.
      * unfold block_text, fence. discriminate.
    + intros a b0 E Hb0. apply (no_pattern1_in_separator n (blk_sep b) a b0); auto.
      unfold exact_block, block_ok in Hb.
      apply andb_true_iff in Hb as [_ Hb].
      now repeat (apply andb_true_iff in Hb as [Hb _]).
Qed.

(** *** What every text is left with *)

Lemma has_two_true (f s : str) :
  has_two f s = true -> exists a b c, s = a ++ f ++ b ++ f ++ c.
Proof.
  induction s as [|x s IH]; cbn [has_two].
  - rewrite orb_false_r. intros H. apply andb_true_iff in H as [H1 _].
    apply py_startswith_spec in H1 as [t H1]. symmetry in H1.
    apply app_eq_nil in H1 as [-> ->]. now exists [], [], [].
  - intros H. apply orb_true_iff in H as [H | H].
    + apply andb_true_iff in H as [H1 H2].
      apply py_startswith_spec in H1 as [t E]. rewrite E in H2.
      rewrite skipn_app, skipn_all, Nat.sub_diag in H2. cbn [skipn app] in H2.
      apply py_in_spec in H2 as [a [b ->]]. exists [], a, b. exact E.
    + destruct (IH H) as [a [b [c ->]]]. now exists (x :: a), b, c.
Qed.

(** A piece of a text without two fences has not two fences. *)
Lemma has_two_part (f lead s trail : str) :
  has_two f (lead ++ s ++ trail) = false -> has_two f s = false.
Proof.
  intros H. apply not_true_iff_false. intros T.
  destruct (has_two_true f s T) as [a [b [c ->]]].
  apply (has_two_false f _ H (lead ++ a) b (c ++ trail)).
  now rewrite <- !app_assoc.
Qed.

(** The pattern of a code block matches wherever a fence stands with a
    fence after it. *)
Lemma rep_greedy_zero (p : charset) (s : str) : In s (rep_greedy p 0 s).
Proof. destruct s as [|c s]; cbn [rep_greedy]; apply in_or_app; right; now left. Qed.

Lemma rep_lazy_any (m t : str) : In t (rep_lazy any 0 (m ++ t)).
Proof.
  induction m as [|c m IH]; cbn [app].
  - destruct t; cbn [rep_lazy]; now left.
  - cbn [rep_lazy any Nat.pred]. right. exact IH.
Qed.

Lemma pattern2_matches (n : nat) (m rest : str) :
  rmatch n pattern2 (fence ++ m ++ fence ++ rest, []) <> [].
Proof.
  assert (Hin : In (rest, []) (rmatch n pattern2 (fence ++ m ++ fence ++ rest, []))).
  { unfold pattern2. cbn [cat].
    apply in_rmatch_seq. exists (m ++ fence ++ rest, []). split.
    { destruct (first_match_Str n fence (m ++ fence ++ rest) []) as [o Ho].
      rewrite_rmatch Ho. now left. }
    apply in_rmatch_seq. exists (m ++ fence ++ rest, []). split.
    { cbn [rmatch fst snd]. apply in_map_iff. exists (m ++ fence ++ rest).
      split; [reflexivity | apply rep_greedy_zero]. }
    apply in_rmatch_seq. exists (fence ++ rest, []). split.
    { cbn [rmatch fst snd]. apply in_map_iff. exists (fence ++ rest).
      split; [reflexivity | apply rep_lazy_any]. }
    apply in_rmatch_seq. exists (fence ++ rest, []). split.
    { cbn [rmatch fst snd]. apply in_map_iff. exists (fence ++ rest).
      split; [reflexivity | apply rep_greedy_zero]. }
    destruct (first_match_Str n fence rest []) as [o Ho].
    rewrite_rmatch Ho. now left. }
  intros E. rewrite E in Hin. destruct Hin.
Qed.

(** Where it matches, the match is a fence, some text and a fence. *)
Lemma pattern2_first (n : nat) (s : str) :
  rmatch n pattern2 (s, []) <> [] ->
  exists m rest g, first_match n pattern2 (fence ++ m ++ fence ++ rest, []) (rest, g)
                   /\ s = fence ++ m ++ fence ++ rest.
Proof.
  intros H. destruct (rmatch n pattern2 (s, [])) as [|[rest g] o] eqn:E; [contradiction|].
  assert (Hin : In (rest, g) (rmatch n pattern2 (s, []))) by (rewrite E; now left).
  unfold pattern2 in Hin.
  change (cat [Str (py "```"); Rep true 0 isspace; Rep false 0 any;
               Rep true 0 isspace; Str (py "```")])
    with (cat (Str fence :: block_middle ++ [Str fence])) in Hin.
  rewrite cat_cons in Hin by discriminate.
  apply in_rmatch_seq in Hin as [st1 [H1 H2]].
  apply in_rmatch_Str in H1. apply in_rmatch_ends_with in H2 as [m E2].
  cbn [fst] in H1, E2. exists m, rest, g. rewrite E2 in H1. subst s.
  split; [|reflexivity]. exists o. exact E.
Qed.

(** No fence begins in the first of two texts, whatever follows it. *)
Lemma fence_free_head (a : str) :
  fence_free a = true -> forall y, py_startswith fence (a ++ y) = true ->
  a = [].
Proof.
  intros Hf y Hs. destruct a as [|c a]; [reflexivity|]. exfalso.
  unfold fence_free in Hf. rewrite negb_true_iff in Hf.
  apply not_true_iff_false in Hf. apply Hf. apply py_in_spec. exists [].
  assert (S : py_startswith fence ((c :: a) ++ py "``") = true).
  { change fence with [96; 96; 96] in *. change (py "``") with [96; 96].
    cbn [app py_startswith] in *.
    apply andb_true_iff in Hs as [-> Hs]. cbn [andb].
    destruct a as [|c1 a]; [reflexivity|]. cbn [app py_startswith] in *.
    apply andb_true_iff in Hs as [-> Hs]. cbn [andb].
    destruct a as [|c2 a]; [reflexivity|]. cbn [app py_startswith] in *.
    apply andb_true_iff in Hs as [-> _]. reflexivity. }
  apply py_startswith_spec in S as [t ->]. now exists t.
Qed.

Lemma fence_free_tail (c : N) (a : str) :
  fence_free (c :: a) = true -> fence_free a = true.
Proof. apply (fence_free_part [c] a). Qed.

Lemma fence_free_app_has_two (a y : str) :
  fence_free a = true -> has_two fence (a ++ y) = has_two fence y.
Proof.
  induction a as [|c a IH]; intros H; [reflexivity|].
  cbn [app has_two]. rewrite (IH (fence_free_tail c a H)).
  destruct (py_startswith fence (c :: a ++ y)) eqn:S; [|reflexivity].
  discriminate (fence_free_head (c :: a) H y S).
Qed.

(** The text, seen as the substitution of [pattern2] passes it: stretches
    in which no fence begins, each before a block that is taken out, and a
    tail without two fences. *)
Lemma sub_pattern2_shape (n : nat) (k : nat) :
  forall s : str, (length s <= k)%nat ->
    exists (stretches : list str) (tail : str),
      gaps (scan n pattern2 0 s) = concat stretches ++ tail
      /\ Forall (fun a => fence_free a = true) stretches
      /\ has_two fence tail = false
      /\ (stretches = [] -> s = tail)
      /\ (stretches <> [] ->
          exists a m rest, s = a ++ fence ++ m ++ fence ++ rest
                           /\ hd [] stretches = a).
Proof.
  induction k as [|k IH]; intros s Hk.
  - destruct s; [|simpl in Hk; lia]. exists [], [].
    assert (E : rmatch n pattern2 ([], []) = []).
    { destruct (rmatch n pattern2 ([], [])) as [|st o] eqn:R; [reflexivity|].
      destruct (pattern2_first n []) as [m [rest [g [_ E]]]];
        [exact (cons_not_nil _ _ _ _ R)|]. discriminate E. }
    rewrite scan_end by exact E. repeat split; try reflexivity; try constructor.
    intros H. now contradiction H.
  - destruct (rmatch n pattern2 (s, [])) as [|st o] eqn:R.
    + (* no block starts here *)
      destruct s as [|c s].
      * exists [], []. rewrite scan_end by exact R.
        repeat split; try reflexivity; try constructor. intros H. now contradiction H.
      * rewrite scan_miss by exact R. cbn [gaps flat_map app].
        fold (gaps (scan n pattern2 0 s)).
        destruct (IH s) as [stretches [tail [E [Hf [Ht [Hnil Hcons]]]]]];
          [simpl in Hk; lia|].
        destruct stretches as [|a stretches].
        -- exists [], (c :: tail). rewrite E. cbn [concat app].
           repeat split; try reflexivity; try constructor.
           ++ rewrite <- (Hnil eq_refl) in *. cbn [has_two]. rewrite Ht, orb_false_r.
              apply not_true_iff_false. intros T.
              apply andb_true_iff in T as [T1 T2].
              apply py_startswith_spec in T1 as [t T1].
              rewrite T1 in T2. rewrite skipn_app, skipn_all, Nat.sub_diag in T2.
              cbn [skipn app] in T2. apply py_in_spec in T2 as [x [y ->]].
              apply (pattern2_matches n x y). now rewrite <- T1.
           ++ intros _. now rewrite (Hnil eq_refl).
           ++ intros H. now contradiction H.
        -- destruct (Hcons ltac:(discriminate)) as [a' [m [rest [Es Ea]]]].
           cbn [hd] in Ea. subst a'.
           exists ((c :: a) :: stretches), tail. rewrite E. cbn [concat app].
           repeat split; try reflexivity.
           ++ inversion Hf; subst. constructor; [|assumption].
              destruct (fence_free (c :: a)) eqn:F; [reflexivity|]. exfalso.
              unfold fence_free in F. apply negb_false_iff in F.
              apply py_in_spec in F as [x [y F]].
              destruct x as [|x0 x].
              ** cbn [app] in F.
                 assert (S : py_startswith fence ((c :: a) ++ fence ++ m ++ fence ++ rest)
                             = true).
                 { change fence with [96; 96; 96] in *. change (py "``") with [96; 96] in F.
                   cbn [app] in F.
                   destruct a as [|c1 [|c2 a]]; cbn [app] in F;
                     inversion F; subst; reflexivity. }
                 apply py_startswith_spec in S as [t S].
                 assert (L : exists u, t = u ++ fence ++ rest).
                 { change fence with [96; 96; 96] in *.
                   destruct a as [|c1 [|c2 a]]; cbn [app] in S.
                   - injection S as _ S. exists (96 :: m).
                     rewrite <- S. reflexivity.
                   - injection S as _ _ S. exists (96 :: 96 :: m).
                     rewrite <- S. reflexivity.
                   - injection S as _ _ _ S.
                     exists (a ++ [96; 96; 96] ++ m). rewrite <- S.
                     now rewrite <- !app_assoc. }
                 destruct L as [u ->].
                 apply (pattern2_matches n u rest).
                 cbn [app] in S. rewrite <- S. exact R.
              ** injection F as _ F.
                 inversion Hf; subst.
                 match goal with
                 | Hfa : fence_free a = true |- _ =>
                     unfold fence_free in Hfa; rewrite negb_true_iff in Hfa;
                     apply not_true_iff_false in Hfa; apply Hfa
                 end.
                 apply py_in_spec. now exists x, y.
           ++ assumption.
           ++ discriminate.
           ++ intros _. exists (c :: a), m, rest. split; [now rewrite Es | reflexivity].
    + (* a block starts here *)
      destruct (pattern2_first n s) as [m [rest [g [F ->]]]];
        [exact (cons_not_nil _ _ _ _ R)|].
      replace (fence ++ m ++ fence ++ rest) with ((fence ++ m ++ fence) ++ rest)
        by (now rewrite <- !app_assoc).
      rewrite scan_hit with (g := g);
        [|now rewrite <- !app_assoc | unfold fence; discriminate].
      cbn [gaps flat_map app]. fold (gaps (scan n pattern2 0 rest)).
      destruct (IH rest) as [stretches [tail [E [Hf [Ht _]]]]].
      { rewrite !length_app in Hk. change (length fence) with 3%nat in Hk. lia. }
      exists ([] :: stretches), tail. rewrite E. cbn [concat app].
      repeat split; try assumption.
      * constructor; [reflexivity | assumption].
      * discriminate.
      * intros _. exists [], m, rest. split; [now rewrite <- !app_assoc | reflexivity].
Qed.

Lemma concat_fence_free_has_two (stretches : list str) (tail : str) :
  Forall (fun a => fence_free a = true) stretches ->
  has_two fence (concat stretches ++ tail) = has_two fence tail.
Proof.
  induction 1 as [|a stretches Ha _ IH]; [reflexivity|].
  cbn [concat]. rewrite <- app_assoc, fence_free_app_has_two by exact Ha. exact IH.
Qed.

(** X22.  Whatever the text, what [remove_mermaid_blocks] returns does not
    hold two fences, one after the other: no complete code block is left in
    it.  Removing the blocks again changes nothing. *)
Theorem no_block_is_left :
  forall text : str,
    (forall a b c : str,
        remove_mermaid_blocks text <> a ++ fence ++ b ++ fence ++ c)
    /\ remove_mermaid_blocks (remove_mermaid_blocks text)
       = remove_mermaid_blocks text.
Proof.
  intros text.
  assert (H : has_two fence (remove_mermaid_blocks text) = false).
  { unfold remove_mermaid_blocks.
    set (t1 := sub_empty pattern1 text).
    destruct (sub_pattern2_shape (length t1) (length t1) t1 (Nat.le_refl _))
      as [stretches [tail [E [Hf [Ht _]]]]].
    assert (H2 : has_two fence (sub_empty pattern2 t1) = false).
    { unfold sub_empty. rewrite E, concat_fence_free_has_two by exact Hf. exact Ht. }
    destruct (py_strip_decompose (sub_empty pattern2 t1)) as [lead [trail [D _]]].
    rewrite D in H2. exact (has_two_part fence lead _ trail H2). }
  split; [exact (has_two_false _ _ H)|].
  unfold remove_mermaid_blocks at 1.
  destruct (sub_without_fences _ H) as [H1 H2]. rewrite H1, H2.
  unfold remove_mermaid_blocks. apply py_strip_idempotent.
Qed.

End Removal.

Lemma text_without_blocks_is_kept_witness :
  Front.remove_mermaid_blocks (py "  Run `make`, then see ```the log.\n")
  = py "Run `make`, then see ```the log.".
Proof.
  rewrite (text_without_blocks_is_kept (py "  Run `make`, then see ```the log.\n"));
    reflexivity.
Defined.

Section Split.
Context {U : Unicode}.
Import Front.

Lemma exact_block_ok (bs : list block) :
  forallb exact_block bs = true -> forallb block_ok bs = true.
Proof.
  rewrite !forallb_forall. intros H b Hb. specialize (H b Hb).
  unfold exact_block in H. now apply andb_true_iff in H as [_ H].
Qed.

(** X10.  A response made of mermaid blocks (the fence directly followed
    by "mermaid", then a content in which no fence begins, then the fence),
    each after a text in which no fence begins, and of a tail without fence,
    is split in two: [remove_mermaid_blocks] returns the text around the
    blocks, trimmed (when that text does not itself hold two fences), and
    [extract_mermaid_diagrams] the trimmed contents of the blocks that are
    not blank (when there is one). *)
Theorem response_splits_into_text_and_diagrams :
  forall (bs : list block) (tail : str),
    forallb exact_block bs = true -> py_in fence tail = false ->
    (has_two fence (around bs tail) = false ->
     remove_mermaid_blocks (document bs tail) = py_strip (around bs tail))
    /\ (existsb (fun b => nonempty (content b)) bs = true ->
        extract_mermaid_diagrams (document bs tail)
        = filter nonempty (map content bs)).
Proof.
  intros bs tail Hb Ht. split.
  - intros H2. unfold remove_mermaid_blocks, sub_empty at 2.
    rewrite sub_pattern1_document by assumption.
    rewrite (sub_empty_no_match pattern2 (around bs tail)); [reflexivity|].
    intros a b E.
    apply (no_match_without_two_fences pattern2 _ (around bs tail) a b);
      [apply pattern2_shape | exact H2 | exact E].
  - intros Hex. rewrite extract_mermaid_diagrams_cascade.
    rewrite (strategy1_document bs tail (exact_block_ok bs Hb) Ht).
    destruct (filter nonempty (map content bs)) as [|d ds] eqn:F; [|reflexivity].
    exfalso. clear - Hex F. induction bs as [|b bs IH]; [discriminate Hex|].
    cbn [existsb] in Hex. cbn [map filter] in F.
    destruct (nonempty (content b)); [discriminate F|]. now apply IH.
Qed.

End Split.

Definition sample_response : list block :=
  [{| blk_sep := py "Here is the plan:\n"; blk_ws := []; blk_tag := py "mermaid";
      blk_inner := py "\nflowchart TD\nA[Basics] --> B[Project]\n" |}].

Lemma response_splits_into_text_and_diagrams_witness :
  Front.remove_mermaid_blocks (document sample_response (py "\nStart with `A`.\n"))
  = py "Here is the plan:\n\nStart with `A`."
  /\ Front.extract_mermaid_diagrams (U := ascii_only)
       (document sample_response (py "\nStart with `A`.\n"))
     = [py "flowchart TD\nA[Basics] --> B[Project]"].
Proof.
  destruct (response_splits_into_text_and_diagrams (U := ascii_only)
              sample_response (py "\nStart with `A`.\n") eq_refl eq_refl)
    as [R E].
  split; [rewrite R | rewrite E]; reflexivity.
Defined.

(** ** The methods of the store *)

Section Store.
Import SupabaseDB.
Context (S : supabase).
Local Open Scope db_scope.

(** The method returns: no exception leaves it. *)
Definition returns {W A : Type} (m : St W A) : Prop :=
  forall w, exists a w', m w = (Value a, w').

Lemma print_all_run (lines : list str) (st : state) :
  print_all lines st
  = (Value tt,
     {| requests := requests st; readings := readings st;
        _table_error_shown := _table_error_shown st;
        printed := printed st ++ lines |}).
Proof.
  revert st. induction lines as [|l ls IH]; intros st.
  - cbn [print_all]. unfold ret. rewrite app_nil_r. now destruct st.
  - cbn [print_all]. unfold bind, print at 1. rewrite IH.
    cbn [requests readings _table_error_shown printed]. now rewrite <- app_assoc.
Qed.

Lemma report_run (what : str) (e : exn) (st : state) :
  report what e st
  = (Value tt,
     {| requests := requests st; readings := readings st;
        _table_error_shown := _table_error_shown st;
        printed := printed st
                   ++ (what ++ text e)
                   :: match message e with
                      | Some m => [py "Error message: " ++ m]
                      | None => []
                      end |}).
Proof.
  unfold report, bind, print, ret. cbn [requests readings _table_error_shown printed].
  destruct (message e); cbn [requests readings _table_error_shown printed];
    now rewrite <- ?app_assoc.
Qed.

Lemma create_conversation_returns (session_id : str) :
  returns (create_conversation S session_id).
Proof.
  intros st.
  unfold create_conversation, try_except, bind, now, run, ret.
  cbn [requests readings _table_error_shown printed].
  destruct (execute S _ _) as [data|e].
  - destruct (some_rows data); eauto.
  - destruct (table_not_found e); [eauto|]. rewrite report_run. eauto.
Qed.

Lemma get_or_create_conversation_returns (session_id : str) :
  returns (get_or_create_conversation S session_id).
Proof.
  intros st.
  unfold get_or_create_conversation, try_except, bind at 1, run, ret, shown.
  cbn [requests readings _table_error_shown printed].
  destruct (execute S _ _) as [data|e].
  - destruct (some_rows data); [eauto|].
    match goal with
    | |- context [create_conversation S session_id ?st1] =>
        destruct (create_conversation_returns session_id st1) as [a [w' ->]]
    end.
    eauto.
  - destruct (table_not_found e).
    + unfold bind, when. cbn [requests readings _table_error_shown printed].
      destruct (_table_error_shown st); cbn [negb]; [unfold ret; eauto|].
      unfold bind. rewrite print_all_run. unfold set_shown, ret. eauto.
    + unfold bind. rewrite report_run. eauto.
Qed.

Lemma save_message_returns (conversation_id role content : str) :
  returns (save_message S conversation_id role content).
Proof.
  intros st. unfold save_message, try_except, bind, now, run, ret, print.
  cbn [requests readings _table_error_shown printed].
  destruct (execute S _ _) as [data|e]; eauto.
Qed.

Lemma get_conversation_history_returns (conversation_id : str) :
  returns (get_conversation_history S conversation_id).
Proof.
  intros st. unfold get_conversation_history, try_except, bind at 1, run, ret.
  cbn [requests readings _table_error_shown printed].
  destruct (execute S _ _) as [data|e].
  - destruct (negb (is_empty data)); eauto.
  - unfold bind. rewrite report_run. eauto.
Qed.

Lemma clear_conversation_returns (conversation_id : str) :
  returns (clear_conversation S conversation_id).
Proof.
  intros st. unfold clear_conversation, try_except, bind, run, ret, print.
  cbn [requests readings _table_error_shown printed].
  destruct (execute S _ _) as [data|e]; eauto.
Qed.

Lemma save_roadmap_returns (conversation_id title mermaid_diagram : str)
    (items : list dict) :
  returns (save_roadmap S conversation_id title mermaid_diagram items).
Proof.
  intros st. unfold save_roadmap, try_except, bind, now, run, ret, print, when.
  cbn [requests readings _table_error_shown printed].
  destruct (execute S _ _) as [data|e]; [|eauto].
  destruct (is_empty data || Nat.eqb (length data) 0); [eauto|].
  destruct (negb (is_empty (map _ items))); [|unfold ret; eauto].
  cbn [requests readings _table_error_shown printed].
  destruct (execute S _ _) as [data2|e2]; unfold ret; eauto.
Qed.

Lemma get_roadmaps_returns (conversation_id : str) :
  returns (get_roadmaps S conversation_id).
Proof.
  intros st. unfold get_roadmaps, try_except, bind, run, ret, print.
  cbn [requests readings _table_error_shown printed].
  destruct (execute S _ _) as [data|e]; eauto.
Qed.

Lemma get_roadmap_items_returns (roadmap_id : str) :
  returns (get_roadmap_items S roadmap_id).
Proof.
  intros st. unfold get_roadmap_items, try_except, bind, run, ret, print.
  cbn [requests readings _table_error_shown printed].
  destruct (execute S _ _) as [data|e]; eauto.
Qed.

Lemma update_item_progress_returns (item_id : str) (completed : bool) :
  returns (update_item_progress S item_id completed).
Proof.
  intros st. unfold update_item_progress, try_except, bind, now, run, ret, print.
  destruct completed; cbn [requests readings _table_error_shown printed];
    destruct (execute S _ _) as [data|e]; eauto.
Qed.

(** The request that reads the items of a roadmap. *)
Definition select_items (roadmap_id : str) : request :=
  Select roadmap_items_table
         (py "id, item_id, title, description, completed, completed_at")
         (py "roadmap_id") roadmap_id (py "item_id") None None.

(** The item is marked completed. *)
Definition done (item : dict) : bool :=
  truth (get (py "completed") (Flag false) item).

(** The progress computed from the rows of the items. *)
Definition progress_of (data : list dict) : progress :=
  {| total_items := length data;
     completed_items := length (filter done data);
     progress_percentage :=
       match length data with
       | O => Database.PyInt 0
       | Datatypes.S _ =>
           Database.PyFloat (ratio_percent (length (filter done data)) (length data))
       end;
     items := data |}.

Lemma get_roadmap_items_run (roadmap_id : str) (st : state) :
  get_roadmap_items S roadmap_id st
  = match execute S (requests st) (select_items roadmap_id) with
    | Value data =>
        (Value data,
         {| requests := requests st ++ [select_items roadmap_id];
            readings := readings st;
            _table_error_shown := _table_error_shown st;
            printed := printed st |})
    | Error e =>
        (Value [],
         {| requests := requests st ++ [select_items roadmap_id];
            readings := readings st;
            _table_error_shown := _table_error_shown st;
            printed := printed st ++ [py "Error getting roadmap items: " ++ text e] |})
    end.
Proof.
  unfold get_roadmap_items, try_except, bind, run, ret, print.
  cbn [requests readings _table_error_shown printed].
  fold (select_items roadmap_id).
  destruct (execute S (requests st) (select_items roadmap_id)) as [data|e];
    [|reflexivity].
  now destruct data.
Qed.

(** The handler of [get_roadmap_progress] is never run: what it returns is
    computed from what [get_roadmap_items] returns. *)
Lemma get_roadmap_progress_run (roadmap_id : str) (st : state) :
  get_roadmap_progress S roadmap_id st
  = (match fst (get_roadmap_items S roadmap_id st) with
     | Value data => Value (progress_of data)
     | Error e => Value no_progress
     end,
     snd (get_roadmap_items S roadmap_id st)).
Proof.
  unfold get_roadmap_progress, try_except, bind at 1.
  rewrite get_roadmap_items_run.
  destruct (execute S (requests st) (select_items roadmap_id)) as [data|e];
    cbn [fst snd].
  - unfold bind, ret, progress_of.
    destruct data as [|row data]; [reflexivity|].
    cbn [length Nat.ltb Nat.leb Database.true_div]. reflexivity.
  - reflexivity.
Qed.

Lemma get_roadmap_progress_returns (roadmap_id : str) :
  returns (get_roadmap_progress S roadmap_id).
Proof.
  intros st. rewrite get_roadmap_progress_run.
  destruct (get_roadmap_items_returns roadmap_id st) as [a [w' ->]].
  cbn [fst snd]. eauto.
Qed.

(** X11.  No method of [SupabaseDB] lets an exception out: whatever the
    store answers, and when it raises, the method returns. *)
Theorem store_methods_never_raise :
  (forall session_id, returns (create_conversation S session_id))
  /\ (forall session_id, returns (get_or_create_conversation S session_id))
  /\ (forall conversation_id role content,
        returns (save_message S conversation_id role content))
  /\ (forall conversation_id, returns (get_conversation_history S conversation_id))
  /\ (forall conversation_id, returns (clear_conversation S conversation_id))
  /\ (forall conversation_id title mermaid_diagram items,
        returns (save_roadmap S conversation_id title mermaid_diagram items))
  /\ (forall conversation_id, returns (get_roadmaps S conversation_id))
  /\ (forall roadmap_id, returns (get_roadmap_items S roadmap_id))
  /\ (forall item_id completed, returns (update_item_progress S item_id completed))
  /\ (forall roadmap_id, returns (get_roadmap_progress S roadmap_id)).
Proof.
  split; [exact create_conversation_returns|].
  split; [exact get_or_create_conversation_returns|].
  split; [exact save_message_returns|].
  split; [exact get_conversation_history_returns|].
  split; [exact clear_conversation_returns|].
  split; [exact save_roadmap_returns|].
  split; [exact get_roadmaps_returns|].
  split; [exact get_roadmap_items_returns|].
  split; [exact update_item_progress_returns|].
  exact get_roadmap_progress_returns.
Qed.

(** The request that looks a conversation up, and the one that creates it. *)
Definition find_conversation (session_id : str) : request :=
  Select conversations_table (py "id") (py "session_id") session_id
         (py "created_at") (Some true) (Some 1%nat).

Definition new_conversation (session_id : str) (st : state) : request :=
  InsertRow conversations_table
    [(py "session_id", Text session_id);
     (py "created_at", Text (utcnow S (readings st)));
     (py "updated_at", Text (utcnow S (Datatypes.S (readings st))))].

(** X12.  When the store knows a conversation of the session,
    [get_or_create_conversation] answers the id of the first row found and
    makes no other request: nothing is created, the clock is not read and
    nothing is printed.  When the store finds none, one request follows, the
    insertion of a conversation for that session, and the answer is the id of
    the row created ([None] when the store answers no row or raises). *)
Theorem conversation_is_found_or_created :
  forall (session_id : str) (st : state) (data : list dict),
    execute S (requests st) (find_conversation session_id) = Value data ->
    (data <> [] ->
     get_or_create_conversation S session_id st
     = (Value (get (py "id") Null (head data)),
        {| requests := requests st ++ [find_conversation session_id];
           readings := readings st;
           _table_error_shown := _table_error_shown st;
           printed := printed st |}))
    /\ (data = [] ->
        let create := new_conversation session_id st in
        let asked := requests st ++ [find_conversation session_id] in
        requests (snd (get_or_create_conversation S session_id st))
        = asked ++ [create]
        /\ fst (get_or_create_conversation S session_id st)
           = Value (match execute S asked create with
                    | Value (row :: _) => get (py "id") Null row
                    | _ => Null
                    end)).
Proof.
  intros session_id st data E. split.
  - intros Hd. destruct data as [|row data]; [contradiction|].
    unfold get_or_create_conversation, try_except, bind, run, ret.
    cbn [requests readings _table_error_shown printed].
    fold (find_conversation session_id). rewrite E. reflexivity.
  - intros ->. cbv zeta.
    unfold get_or_create_conversation, create_conversation, try_except, bind,
      now, run, ret.
    cbn [requests readings _table_error_shown printed].
    fold (find_conversation session_id). rewrite E.
    cbn [some_rows is_empty negb andb requests readings _table_error_shown printed].
    fold (new_conversation session_id st).
    destruct (execute S _ (new_conversation session_id st)) as [rows|e].
    + destruct rows as [|row rows]; split; reflexivity.
    + destruct (table_not_found e); [split; reflexivity|].
      rewrite report_run. split; reflexivity.
Qed.

(** The request that writes a roadmap. *)
Definition new_roadmap (conversation_id title mermaid_diagram : str) (st : state) : request :=
  InsertRow roadmaps_table
    [(py "conversation_id", Text conversation_id);
     (py "title", Text title);
     (py "mermaid_diagram", Text mermaid_diagram);
     (py "created_at", Text (utcnow S (readings st)))].

(** What [save_roadmap] does, by the answers of the store. *)
Lemma save_roadmap_run (conversation_id title mermaid_diagram : str)
    (items : list dict) (st : state) (data : list dict) :
  let write := new_roadmap conversation_id title mermaid_diagram st in
  execute S (requests st) write = Value data ->
  save_roadmap S conversation_id title mermaid_diagram items st
  = match data with
    | [] => (Value Null,
             {| requests := requests st ++ [write];
                readings := Datatypes.S (readings st);
                _table_error_shown := _table_error_shown st;
                printed := printed st |})
    | row :: _ =>
        let roadmap_id := get (py "id") Null row in
        let records := map (item_record roadmap_id) items in
        match records with
        | [] => (Value roadmap_id,
                 {| requests := requests st ++ [write];
                    readings := Datatypes.S (readings st);
                    _table_error_shown := _table_error_shown st;
                    printed := printed st |})
        | _ :: _ =>
            match execute S (requests st ++ [write])
                    (InsertRows roadmap_items_table records) with
            | Value _ =>
                (Value roadmap_id,
                 {| requests := (requests st ++ [write])
                                ++ [InsertRows roadmap_items_table records];
                    readings := Datatypes.S (readings st);
                    _table_error_shown := _table_error_shown st;
                    printed := printed st |})
            | Error e =>
                (Value Null,
                 {| requests := (requests st ++ [write])
                                ++ [InsertRows roadmap_items_table records];
                    readings := Datatypes.S (readings st);
                    _table_error_shown := _table_error_shown st;
                    printed := printed st
                               ++ [py "Error saving roadmap: " ++ text e] |})
            end
        end
    end.
Proof.
  intros write E.
  unfold save_roadmap, try_except, bind, now, run, ret, print, when.
  cbn [requests readings _table_error_shown printed].
  fold (new_roadmap conversation_id title mermaid_diagram st). fold write.
  rewrite E. destruct data as [|row data]; [reflexivity|].
  cbv zeta. cbn [is_empty length Nat.eqb orb head negb].
  destruct items as [|item items]; [reflexivity|].
  cbn [map is_empty negb requests readings _table_error_shown printed].
  fold (new_roadmap conversation_id title mermaid_diagram st). fold write.
  match goal with
  | |- context [execute S (?a ++ ?b) ?q] => destruct (execute S (a ++ b) q)
  end; reflexivity.
Qed.

(** X13.  [save_roadmap] first writes the roadmap.  When the store answers
    no row, nothing else is asked and the answer is [None].  Otherwise the
    id of the roadmap is that of the first row answered; without item no
    other request is made; with items one request follows, which writes one
    record per item, in order, each with that id and marked not completed.
    The two writes are not undone: when the second raises, the roadmap stays
    written and the answer is [None]. *)
Theorem roadmap_is_written_with_its_items :
  forall (conversation_id title mermaid_diagram : str) (items : list dict)
         (st : state) (data : list dict),
    let write := new_roadmap conversation_id title mermaid_diagram st in
    let saved := save_roadmap S conversation_id title mermaid_diagram items st in
    execute S (requests st) write = Value data ->
    (data = [] -> fst saved = Value Null /\ requests (snd saved) = requests st ++ [write])
    /\ (data <> [] -> items = [] ->
        fst saved = Value (get (py "id") Null (head data))
        /\ requests (snd saved) = requests st ++ [write])
    /\ (data <> [] -> items <> [] ->
        let roadmap_id := get (py "id") Null (head data) in
        let records := map (item_record roadmap_id) items in
        requests (snd saved)
        = requests st ++ [write; InsertRows roadmap_items_table records]
        /\ length records = length items
        /\ Forall (fun r => get (py "completed") Null r = Flag false
                            /\ get (py "roadmap_id") Null r = roadmap_id) records
        /\ fst saved
           = Value (match execute S (requests st ++ [write])
                            (InsertRows roadmap_items_table records) with
                    | Value _ => roadmap_id
                    | Error _ => Null
                    end)).
Proof.
  intros conversation_id title mermaid_diagram items st data write saved E.
  subst saved. rewrite (save_roadmap_run _ _ _ items st data E). subst write.
 split; [|split].
  - intros ->. split; reflexivity.
  - intros Hd ->. destruct data as [|row data]; [contradiction|].
    split; reflexivity.
  - intros Hd Hi. destruct data as [|row data]; [contradiction|].
    destruct items as [|item items]; [contradiction|].
    cbv zeta. cbn [head map].
    split; [|split; [|split]].
    + match goal with
      | |- context [execute S (?a ++ ?b) ?q] => destruct (execute S (a ++ b) q)
      end; cbn [snd requests]; now rewrite <- app_assoc.
    + cbn [length]. now rewrite length_map.
    + constructor; [split; reflexivity|].
      apply Forall_map, Forall_forall. intros r _. split; reflexivity.
    + match goal with
      | |- context [execute S (?a ++ ?b) ?q] => destruct (execute S (a ++ b) q)
      end; reflexivity.
Qed.

(** X15.  When the store raises on every request, each method answers
    its default: [None] for a conversation and for a roadmap, [False] for a
    message saved, a conversation cleared and an item updated, the empty list
    for a history, for the roadmaps and for the items, and the progress of no
    item. *)
Theorem failing_store_gives_defaults :
  (forall asked q, exists e, execute S asked q = Error e) ->
  forall st : state,
    (forall session_id, fst (create_conversation S session_id st) = Value Null)
    /\ (forall session_id,
          fst (get_or_create_conversation S session_id st) = Value Null)
    /\ (forall conversation_id role content,
          fst (save_message S conversation_id role content st) = Value false)
    /\ (forall conversation_id,
          fst (get_conversation_history S conversation_id st) = Value [])
    /\ (forall conversation_id,
          fst (clear_conversation S conversation_id st) = Value false)
    /\ (forall conversation_id title mermaid_diagram items,
          fst (save_roadmap S conversation_id title mermaid_diagram items st)
          = Value Null)
    /\ (forall conversation_id, fst (get_roadmaps S conversation_id st) = Value [])
    /\ (forall roadmap_id, fst (get_roadmap_items S roadmap_id st) = Value [])
    /\ (forall item_id completed,
          fst (update_item_progress S item_id completed st) = Value false)
    /\ (forall roadmap_id,
          fst (get_roadmap_progress S roadmap_id st) = Value no_progress).
Proof.
  intros Down st.
  repeat split; intros.
  - unfold create_conversation, try_except, bind, now, run, ret.
    cbn [requests readings _table_error_shown printed].
    match goal with
    | |- context [execute S ?a ?q] => destruct (Down a q) as [e ->]
    end.
    destruct (table_not_found e); [reflexivity|]. now rewrite report_run.
  - unfold get_or_create_conversation, try_except, bind at 1, run, ret, shown.
    cbn [requests readings _table_error_shown printed].
    match goal with
    | |- context [execute S ?a ?q] => destruct (Down a q) as [e ->]
    end.
    destruct (table_not_found e).
    + unfold bind, when. cbn [requests readings _table_error_shown printed].
      destruct (_table_error_shown st); cbn [negb]; [reflexivity|].
      unfold bind. now rewrite print_all_run.
    + unfold bind. now rewrite report_run.
  - unfold save_message, try_except, bind, now, run, ret, print.
    cbn [requests readings _table_error_shown printed].
    match goal with
    | |- context [execute S ?a ?q] => destruct (Down a q) as [e ->]
    end.
    reflexivity.
  - unfold get_conversation_history, try_except, bind at 1, run, ret.
    cbn [requests readings _table_error_shown printed].
    match goal with
    | |- context [execute S ?a ?q] => destruct (Down a q) as [e ->]
    end.
    unfold bind. now rewrite report_run.
  - unfold clear_conversation, try_except, bind, run, ret, print.
    cbn [requests readings _table_error_shown printed].
    match goal with
    | |- context [execute S ?a ?q] => destruct (Down a q) as [e ->]
    end.
    reflexivity.
  - unfold save_roadmap, try_except, bind, now, run, ret, print, when.
    cbn [requests readings _table_error_shown printed].
    match goal with
    | |- context [execute S ?a ?q] => destruct (Down a q) as [e ->]
    end.
    reflexivity.
  - unfold get_roadmaps, try_except, bind, run, ret, print.
    cbn [requests readings _table_error_shown printed].
    match goal with
    | |- context [execute S ?a ?q] => destruct (Down a q) as [e ->]
    end.
    reflexivity.
  - unfold get_roadmap_items, try_except, bind, run, ret, print.
    cbn [requests readings _table_error_shown printed].
    match goal with
    | |- context [execute S ?a ?q] => destruct (Down a q) as [e ->]
    end.
    reflexivity.
  - unfold update_item_progress, try_except, bind, now, run, ret, print.
    destruct completed; cbn [requests readings _table_error_shown printed];
      match goal with
      | |- context [execute S ?a ?q] => destruct (Down a q) as [e ->]
      end; reflexivity.
  - rewrite get_roadmap_progress_run, get_roadmap_items_run.
    destruct (Down (requests st) (select_items roadmap_id)) as [e ->]. reflexivity.
Qed.

(** X21.  [get_roadmap_progress] sends one request, the selection of the
    items of the roadmap in the order of their [item_id], and answers the
    rows with their number, the number of those marked completed (at most
    their number) and the percentage: the integer [0] without row, else the
    float [completed / total * 100].  Its own handler is never run: when the
    store raises, the error is printed by [get_roadmap_items], as
    "Error getting roadmap items", and the answer is that of no row. *)
Theorem progress_is_read_in_one_request :
  forall (roadmap_id : str) (st : state),
  exists p st',
    get_roadmap_progress S roadmap_id st = (Value p, st')
    /\ requests st' = requests st ++ [select_items roadmap_id]
    /\ p = progress_of (items p)
    /\ (completed_items p <= total_items p)%nat
    /\ match execute S (requests st) (select_items roadmap_id) with
       | Value data => items p = data /\ printed st' = printed st
       | Error e =>
           p = no_progress
           /\ printed st'
              = printed st ++ [py "Error getting roadmap items: " ++ text e]
       end.
Proof.
  intros roadmap_id st. rewrite get_roadmap_progress_run, get_roadmap_items_run.
  destruct (execute S (requests st) (select_items roadmap_id)) as [data|e];
    cbn [fst snd]; eexists _, _; (split; [reflexivity|]);
    cbn [requests printed items progress_of total_items completed_items];
    repeat split; try reflexivity; apply filter_length_le.
Qed.

(** *** The notice of the missing tables *)

(** A call of a method of the object. *)
Inductive invocation : Type :=
| CallCreateConversation (session_id : str)
| CallGetOrCreateConversation (session_id : str)
| CallSaveMessage (conversation_id role content : str)
| CallGetConversationHistory (conversation_id : str)
| CallClearConversation (conversation_id : str)
| CallSaveRoadmap (conversation_id title mermaid_diagram : str) (items : list dict)
| CallGetRoadmaps (conversation_id : str)
| CallGetRoadmapItems (roadmap_id : str)
| CallUpdateItemProgress (item_id : str) (completed : bool)
| CallGetRoadmapProgress (roadmap_id : str).

(** The state in which a call leaves the object. *)
Definition invoke (st : state) (i : invocation) : state :=
  match i with
  | CallCreateConversation s => snd (create_conversation S s st)
  | CallGetOrCreateConversation s => snd (get_or_create_conversation S s st)
  | CallSaveMessage c r t => snd (save_message S c r t st)
  | CallGetConversationHistory c => snd (get_conversation_history S c st)
  | CallClearConversation c => snd (clear_conversation S c st)
  | CallSaveRoadmap c t d items => snd (save_roadmap S c t d items st)
  | CallGetRoadmaps c => snd (get_roadmaps S c st)
  | CallGetRoadmapItems r => snd (get_roadmap_items S r st)
  | CallUpdateItemProgress i b => snd (update_item_progress S i b st)
  | CallGetRoadmapProgress r => snd (get_roadmap_progress S r st)
  end.

(** The object as [__init__] leaves it. *)
Definition fresh : state :=
  {| requests := []; readings := 0; _table_error_shown := false; printed := [] |}.

(** The second line of the notice: its title. *)
Definition notice_title : str := [9888; 65039] ++ py "  DATABASE SETUP REQUIRED".

Definition titles (lines : list str) : nat :=
  count_occ (list_eq_dec N.eq_dec) lines notice_title.

(** A call prints lines about an error, or the notice; the notice only
    when it was not shown yet, and then it is marked as shown. *)
Definition quiet_or_notice (st st' : state) : Prop :=
  exists lines,
    printed st' = printed st ++ lines
    /\ ((titles lines = 0%nat /\ _table_error_shown st' = _table_error_shown st)
        \/ (titles lines = 1%nat /\ _table_error_shown st = false
            /\ _table_error_shown st' = true)).

Lemma titles_app (l1 l2 : list str) : titles (l1 ++ l2) = (titles l1 + titles l2)%nat.
Proof. apply count_occ_app. Qed.

Lemma error_line_is_no_title (what t : str) :
  hd 0 what = 69 -> titles [what ++ t] = 0%nat.
Proof.
  intros H. unfold titles. cbn [count_occ].
  destruct (list_eq_dec N.eq_dec (what ++ t) notice_title) as [E|_]; [|reflexivity].
  destruct what as [|c what]; [discriminate H|]. cbn [hd] in H. subst c.
  discriminate E.
Qed.

Lemma report_lines_are_no_title (what : str) (e : exn) :
  hd 0 what = 69 ->
  titles ((what ++ text e)
          :: match message e with
             | Some m => [py "Error message: " ++ m]
             | None => []
             end) = 0%nat.
Proof.
  intros H. change (?x :: ?l) with ([x] ++ l). rewrite titles_app.
  rewrite (error_line_is_no_title what (text e) H).
  destruct (message e); [|reflexivity].
  now rewrite (error_line_is_no_title (py "Error message: ") s).
Qed.

Lemma quiet (st st' : state) (lines : list str) :
  printed st' = printed st ++ lines -> titles lines = 0%nat ->
  _table_error_shown st' = _table_error_shown st ->
  quiet_or_notice st st'.
Proof. intros P T F. exists lines. split; [exact P|]. left. now split. Qed.

Lemma quiet_or_notice_trans (st1 st2 st3 : state) :
  quiet_or_notice st1 st2 ->
  (exists lines, printed st3 = printed st2 ++ lines /\ titles lines = 0%nat
                 /\ _table_error_shown st3 = _table_error_shown st2) ->
  quiet_or_notice st1 st3.
Proof.
  intros [l1 [P1 H1]] [l2 [P2 [T2 F2]]]. exists (l1 ++ l2). split.
  - now rewrite P2, P1, app_assoc.
  - rewrite titles_app, T2, Nat.add_0_r, F2. exact H1.
Qed.

Lemma create_conversation_quiet (session_id : str) (st : state) :
  exists lines,
    printed (snd (create_conversation S session_id st)) = printed st ++ lines
    /\ titles lines = 0%nat
    /\ _table_error_shown (snd (create_conversation S session_id st))
       = _table_error_shown st.
Proof.
  unfold create_conversation, try_except, bind, now, run, ret.
  cbn [requests readings _table_error_shown printed].
  destruct (execute S _ _) as [data|e].
  - exists []. rewrite app_nil_r. destruct (some_rows data); now repeat split.
  - destruct (table_not_found e).
    + exists []. rewrite app_nil_r. now repeat split.
    + rewrite report_run. eexists. split; [reflexivity|]. split; [|reflexivity].
      now apply report_lines_are_no_title.
Qed.

Lemma invoke_quiet_or_notice (st : state) (i : invocation) :
  quiet_or_notice st (invoke st i).
Proof.
  destruct i as [s|s|c r t|c|c|c t d items|c|r|i b|r]; cbn [invoke].
  - destruct (create_conversation_quiet s st) as [lines [P [T F]]].
    now apply (quiet st _ lines).
  - unfold get_or_create_conversation, try_except, bind at 1, run, ret, shown.
    cbn [requests readings _table_error_shown printed].
    destruct (execute S _ _) as [data|e].
    + destruct (some_rows data).
      * apply (quiet st _ []); [now rewrite app_nil_r | reflexivity | reflexivity].
      * match goal with
        | |- context [create_conversation S s ?st1] =>
            destruct (create_conversation_quiet s st1) as [lines [P [T F]]];
            destruct (create_conversation_returns s st1) as [a [w' R]];
            rewrite R in *; cbn [snd] in *;
            apply (quiet st w' lines); assumption
        end.
    + destruct (table_not_found e).
      * unfold bind, when. cbn [requests readings _table_error_shown printed].
        destruct (_table_error_shown st) eqn:Sh; cbn [negb].
        -- unfold ret. apply (quiet st _ []);
             [now rewrite app_nil_r | reflexivity | now rewrite Sh].
        -- unfold bind. rewrite print_all_run. unfold set_shown, ret.
           exists setup_notice. split; [reflexivity|]. right.
           cbn [snd _table_error_shown]. now repeat split.
      * unfold bind. rewrite report_run. eapply quiet; [reflexivity| |reflexivity].
        now apply report_lines_are_no_title.
  - unfold save_message, try_except, bind, now, run, ret, print.
    cbn [requests readings _table_error_shown printed].
    destruct (execute S _ _) as [data|e].
    + apply (quiet st _ []); [now rewrite app_nil_r | reflexivity | reflexivity].
    + eapply quiet; [reflexivity| |reflexivity].
      now apply error_line_is_no_title.
  - unfold get_conversation_history, try_except, bind at 1, run, ret.
    cbn [requests readings _table_error_shown printed].
    destruct (execute S _ _) as [data|e].
    + destruct (negb (is_empty data));
        (apply (quiet st _ []); [now rewrite app_nil_r | reflexivity | reflexivity]).
    + unfold bind. rewrite report_run. eapply quiet; [reflexivity| |reflexivity].
      now apply report_lines_are_no_title.
  - unfold clear_conversation, try_except, bind, run, ret, print.
    cbn [requests readings _table_error_shown printed].
    destruct (execute S _ _) as [data|e].
    + apply (quiet st _ []); [now rewrite app_nil_r | reflexivity | reflexivity].
    + eapply quiet; [reflexivity| |reflexivity].
      now apply error_line_is_no_title.
  - unfold save_roadmap, try_except, bind, now, run, ret, print, when.
    cbn [requests readings _table_error_shown printed].
    destruct (execute S _ _) as [data|e].
    + destruct (is_empty data || Nat.eqb (length data) 0);
        [apply (quiet st _ []); [now rewrite app_nil_r | reflexivity | reflexivity]|].
      destruct (negb (is_empty (map _ items)));
        [|apply (quiet st _ []); [now rewrite app_nil_r | reflexivity | reflexivity]].
      cbn [requests readings _table_error_shown printed].
      match goal with
      | |- context [execute S (?a ++ ?b) ?q] => destruct (execute S (a ++ b) q)
      end.
      * apply (quiet st _ []); [now rewrite app_nil_r | reflexivity | reflexivity].
      * eapply quiet; [reflexivity| |reflexivity].
        now apply error_line_is_no_title.
    + eapply quiet; [reflexivity| |reflexivity].
      now apply error_line_is_no_title.
  - unfold get_roadmaps, try_except, bind, run, ret, print.
    cbn [requests readings _table_error_shown printed].
    destruct (execute S _ _) as [data|e].
    + apply (quiet st _ []); [now rewrite app_nil_r | reflexivity | reflexivity].
    + eapply quiet; [reflexivity| |reflexivity].
      now apply error_line_is_no_title.
  - unfold get_roadmap_items, try_except, bind, run, ret, print.
    cbn [requests readings _table_error_shown printed].
    destruct (execute S _ _) as [data|e].
    + apply (quiet st _ []); [now rewrite app_nil_r | reflexivity | reflexivity].
    + eapply quiet; [reflexivity| |reflexivity].
      now apply error_line_is_no_title.
  - unfold update_item_progress, try_except, bind, now, run, ret, print.
    destruct b; cbn [requests readings _table_error_shown printed];
      (destruct (execute S _ _) as [data|e];
       [apply (quiet st _ []); [now rewrite app_nil_r | reflexivity | reflexivity]
       |eapply quiet; [reflexivity| |reflexivity];
        now apply error_line_is_no_title]).
  - rewrite get_roadmap_progress_run, get_roadmap_items_run. cbn [snd].
    destruct (execute S _ _) as [data|e]; cbn [snd].
    + apply (quiet st _ []); [now rewrite app_nil_r | reflexivity | reflexivity].
    + eapply quiet; [reflexivity| |reflexivity].
      now apply error_line_is_no_title.
Qed.

(** X14.  Whatever methods are called on the object, in whatever order
    and with whatever answers of the store, the notice "DATABASE SETUP
    REQUIRED" is printed at most once; and it has been printed exactly when
    [_table_error_shown] is set. *)
Theorem setup_notice_is_printed_at_most_once :
  forall calls : list invocation,
    let st := fold_left invoke calls fresh in
    (titles (printed st) <= 1)%nat
    /\ (_table_error_shown st = true <-> titles (printed st) = 1%nat).
Proof.
  intros calls. cbv zeta.
  assert (Inv : forall st,
             titles (printed st) = (if _table_error_shown st then 1 else 0)%nat ->
             titles (printed (fold_left invoke calls st))
             = (if _table_error_shown (fold_left invoke calls st) then 1 else 0)%nat).
  { induction calls as [|i calls IH]; intros st H; [exact H|].
    cbn [fold_left]. apply IH.
    destruct (invoke_quiet_or_notice st i) as [lines [P [[T F] | [T [F F']]]]];
      rewrite P, titles_app, T, H.
    - rewrite F. lia.
    - rewrite F, F'. reflexivity. }
  specialize (Inv fresh eq_refl). rewrite Inv.
  destruct (_table_error_shown (fold_left invoke calls fresh)).
  - split; [lia|]. split; reflexivity.
  - split; [lia|]. split; discriminate.
Qed.

End Store.

(** A store that knows one conversation, answers a row to every single
    insertion, and raises on the insertion of several records. *)
Definition sample_store : SupabaseDB.supabase :=
  {| SupabaseDB.execute := fun _ q =>
       match q with
       | SupabaseDB.Select _ _ _ _ _ _ _ =>
           SupabaseDB.Value [[(py "id", SupabaseDB.Text (py "c1"))]]
       | SupabaseDB.InsertRow _ _ =>
           SupabaseDB.Value [[(py "id", SupabaseDB.Text (py "r1"))]]
       | SupabaseDB.InsertRows _ _ =>
           SupabaseDB.Error {| SupabaseDB.text := py "timeout";
                               SupabaseDB.message := None |}
       | _ => SupabaseDB.Value []
       end;
     SupabaseDB.utcnow := fun _ => py "2025-01-01T00:00:00" |}.

Lemma conversation_is_found_or_created_witness :
  SupabaseDB.get_or_create_conversation sample_store (py "s1") fresh
  = (SupabaseDB.Value (SupabaseDB.Text (py "c1")),
     {| SupabaseDB.requests := [find_conversation (py "s1")];
        SupabaseDB.readings := 0;
        SupabaseDB._table_error_shown := false;
        SupabaseDB.printed := [] |}).
Proof.
  destruct (conversation_is_found_or_created sample_store (py "s1") fresh
              [[(py "id", SupabaseDB.Text (py "c1"))]] eq_refl) as [F _].
  rewrite F; [reflexivity | discriminate].
Defined.

Lemma roadmap_is_written_with_its_items_witness :
  fst (SupabaseDB.save_roadmap sample_store (py "c1") (py "Rust") (py "A[x]")
         [[(py "id", SupabaseDB.Text (py "A"))]] fresh)
  = SupabaseDB.Value SupabaseDB.Null
  /\ length (SupabaseDB.requests
               (snd (SupabaseDB.save_roadmap sample_store (py "c1") (py "Rust")
                       (py "A[x]") [[(py "id", SupabaseDB.Text (py "A"))]] fresh)))
     = 2%nat.
Proof.
  destruct (roadmap_is_written_with_its_items sample_store (py "c1") (py "Rust")
              (py "A[x]") [[(py "id", SupabaseDB.Text (py "A"))]] fresh
              [[(py "id", SupabaseDB.Text (py "r1"))]] eq_refl) as [_ [_ H]].
  destruct H as [R [_ [_ V]]]; [discriminate | discriminate|].
  split; [rewrite V | rewrite R]; reflexivity.
Defined.

(** A store whose tables are missing. *)
Definition down_store : SupabaseDB.supabase :=
  {| SupabaseDB.execute := fun _ _ =>
       SupabaseDB.Error
         {| SupabaseDB.text := py "PGRST205: Could not find the table";
            SupabaseDB.message := None |};
     SupabaseDB.utcnow := fun _ => py "2025-01-01T00:00:00" |}.

Lemma failing_store_gives_defaults_witness :
  fst (SupabaseDB.get_or_create_conversation down_store (py "s1") fresh)
  = SupabaseDB.Value SupabaseDB.Null
  /\ fst (SupabaseDB.get_conversation_history down_store (py "c1") fresh)
     = SupabaseDB.Value [].
Proof.
  assert (Down : forall asked q,
             exists e, SupabaseDB.execute down_store asked q = SupabaseDB.Error e)
    by (intros; eexists; reflexivity).
  destruct (failing_store_gives_defaults down_store Down fresh)
    as [_ [G [_ [H _]]]].
  split; [apply G | apply H].
Defined.

(** ** The client and its roadmaps *)

Section Roadmaps.
Import SupabaseDB GeminiClient.
Context {U : Unicode} (S : supabase).
Local Open Scope db_scope.

(** The request that clears a conversation. *)
Definition clear_messages (conversation_id : str) : request :=
  Delete messages_table (py "conversation_id") conversation_id.

(** The client reaches the store and has a conversation. *)
Definition in_conversation (c : Gemini.client) : bool :=
  Gemini.use_database c && Gemini.db c
  && Gemini.truthy (Gemini.current_conversation_id c).

Lemma guard_in_conversation (c : Gemini.client) :
  negb (Gemini.use_database c) || negb (Gemini.db c)
  || negb (Gemini.truthy (Gemini.current_conversation_id c))
  = negb (in_conversation c).
Proof.
  unfold in_conversation.
  now destruct (Gemini.use_database c), (Gemini.db c),
    (Gemini.truthy (Gemini.current_conversation_id c)).
Qed.

(** X16.  [reset_conversation] returns, and leaves the client without
    history and without conversation id, whatever the store does.  It asks
    the store one thing at most: to delete the messages of the conversation
    the client was in.  After it, and until a turn finds a conversation
    again, [save_roadmap] answers [None] and [get_roadmaps] the empty list,
    and neither asks the store anything. *)
Theorem reset_leaves_no_conversation :
  forall (c : Gemini.client) (st : state),
  exists c' st',
    reset_conversation S (c, st) = (Value tt, (c', st'))
    /\ Gemini.conversation_history c' = []
    /\ Gemini.current_conversation_id c' = None
    /\ Gemini.system_prompt c' = Gemini.system_prompt c
    /\ Gemini.use_database c' = Gemini.use_database c
    /\ Gemini.db c' = Gemini.db c
    /\ requests st'
       = requests st
         ++ (if in_conversation c
             then [clear_messages (Gemini.the (Gemini.current_conversation_id c))]
             else [])
    /\ (forall title mermaid_diagram,
          save_roadmap S title mermaid_diagram (c', st') = (Value Null, (c', st')))
    /\ get_roadmaps S (c', st') = (Value [], (c', st')).
Proof.
  intros c st.
  assert (After : forall c' st',
             Gemini.current_conversation_id c' = None ->
             (forall title mermaid_diagram,
                save_roadmap S title mermaid_diagram (c', st') = (Value Null, (c', st')))
             /\ get_roadmaps S (c', st') = (Value [], (c', st'))).
  { intros c' st' Hid. split; [intros title mermaid_diagram|];
      unfold save_roadmap, get_roadmaps, bind, self; cbn [fst snd];
      rewrite Hid; cbn [Gemini.truthy negb]; rewrite !orb_true_r; reflexivity. }
  unfold reset_conversation, bind, self, when, update, db_call, ret.
  cbn [fst snd]. fold (in_conversation c).
  destruct (in_conversation c) eqn:G.
  - destruct (clear_conversation_returns S
                (Gemini.the (Gemini.current_conversation_id c)) st) as [b [st' R]].
    cbn [fst snd]. rewrite R. cbn [fst snd].
    eexists _, st'. split; [reflexivity|].
    cbn [Gemini.set_id Gemini.set_history Gemini.conversation_history
         Gemini.current_conversation_id Gemini.system_prompt Gemini.use_database
         Gemini.db].
    repeat split; try (apply After; reflexivity).
    unfold clear_conversation, try_except, bind, run, ret, print in R.
    cbn [requests readings _table_error_shown printed] in R.
    fold (clear_messages (Gemini.the (Gemini.current_conversation_id c))) in R.
    destruct (execute S _ _); injection R as _ <-; reflexivity.
  - eexists _, st. split; [reflexivity|].
    cbn [Gemini.set_id Gemini.set_history Gemini.conversation_history
         Gemini.current_conversation_id Gemini.system_prompt Gemini.use_database
         Gemini.db].
    rewrite app_nil_r. repeat split; apply After; reflexivity.
Qed.

(** The record written for a node of the diagram. *)
Definition node_record (roadmap_id : value) (it : Gemini.item) : dict :=
  [(py "roadmap_id", roadmap_id);
   (py "item_id", Text (Gemini.id it));
   (py "title", Text (Gemini.item_title it));
   (py "description", Text (Gemini.description it));
   (py "completed", Flag false)].

Lemma item_record_item_dict (roadmap_id : value) (it : Gemini.item) :
  item_record roadmap_id (item_dict it) = node_record roadmap_id it.
Proof. reflexivity. Qed.

(** In a conversation, the method of the client is that of the store on
    the items parsed. *)
Lemma save_roadmap_in_conversation (title mermaid_diagram : str)
    (c : Gemini.client) (st : state) :
  in_conversation c = true ->
  save_roadmap S title mermaid_diagram (c, st)
  = (fst (SupabaseDB.save_roadmap S (Gemini.the (Gemini.current_conversation_id c))
            title mermaid_diagram
            (map item_dict (Gemini.parse_mermaid_diagram mermaid_diagram)) st),
     (c, snd (SupabaseDB.save_roadmap S
                (Gemini.the (Gemini.current_conversation_id c))
                title mermaid_diagram
                (map item_dict (Gemini.parse_mermaid_diagram mermaid_diagram)) st))).
Proof.
  intros G. unfold save_roadmap, bind at 1, self. cbn [fst snd].
  rewrite guard_in_conversation, G. cbn [negb].
  unfold try_except, bind, db_call, ret. cbn [fst snd].
  match goal with
  | |- context [SupabaseDB.save_roadmap S ?a ?b ?d ?i st] =>
      destruct (save_roadmap_returns S a b d i st) as [v [st' R]]
  end.
  rewrite R. reflexivity.
Qed.

(** X17.  A client in a conversation saves a roadmap in two writes: the
    roadmap, with the id of the conversation, the title and the code of the
    diagram; then, when the store answered a row and the parser finds nodes
    in the code, one record per node found, in the order of the code, with
    the id the store gave to the roadmap, the identifier of the node, its
    title and its description, marked not completed.  A diagram in which the
    parser finds no node is saved without item, and the id of the roadmap is
    answered all the same.  The client itself is left unchanged. *)
Theorem roadmap_items_are_the_parsed_nodes :
  forall (title mermaid_diagram : str) (c : Gemini.client) (st : state)
         (data : list dict),
    in_conversation c = true ->
    let write := new_roadmap S (Gemini.the (Gemini.current_conversation_id c))
                   title mermaid_diagram st in
    execute S (requests st) write = Value data ->
    data <> [] ->
    let nodes := Gemini.parse_mermaid_diagram mermaid_diagram in
    let roadmap_id := get (py "id") Null (head data) in
    let saved := save_roadmap S title mermaid_diagram (c, st) in
    fst (snd saved) = c
    /\ requests (snd (snd saved))
       = requests st
         ++ write
         :: match nodes with
            | [] => []
            | _ :: _ => [InsertRows roadmap_items_table
                           (map (node_record roadmap_id) nodes)]
            end
    /\ (nodes = [] -> fst saved = Value roadmap_id).
Proof.
  intros title mermaid_diagram c st data G write E Hd nodes roadmap_id saved.
  subst saved. rewrite (save_roadmap_in_conversation title mermaid_diagram c st G).
  rewrite (save_roadmap_run S _ _ _ _ st data E). fold nodes.
  destruct data as [|row data]; [contradiction|]. cbv zeta.
  cbn [head] in roadmap_id. fold roadmap_id. rewrite map_map.
  rewrite (map_ext _ _ (item_record_item_dict roadmap_id)).
  subst write. cbn [fst snd].
  destruct nodes as [|node nodes]; cbn [map fst snd requests].
  - repeat split; reflexivity.
  - match goal with
    | |- context [execute S (?a ++ ?b) ?q] => destruct (execute S (a ++ b) q)
    end; cbn [fst snd requests]; rewrite <- app_assoc;
      (split; [reflexivity|]); (split; [reflexivity|]); discriminate.
Qed.

(** X18.  The methods of the client on roadmaps let no exception out.  A
    client without database asks nothing of the store: [save_roadmap]
    answers [None], [get_roadmaps] the empty list, [update_item_progress]
    [False] and [get_roadmap_progress] the progress of no item, and nothing
    is changed. *)
Theorem roadmap_methods_return :
  forall (c : Gemini.client) (st : state),
    (exists w, reset_conversation S (c, st) = (Value tt, w))
    /\ (forall title mermaid_diagram,
          exists a w, save_roadmap S title mermaid_diagram (c, st) = (Value a, w))
    /\ (exists a w, get_roadmaps S (c, st) = (Value a, w))
    /\ (forall item_id completed,
          exists a w, update_item_progress S item_id completed (c, st) = (Value a, w))
    /\ (forall roadmap_id,
          exists a w, get_roadmap_progress S roadmap_id (c, st) = (Value a, w))
    /\ (Gemini.use_database c && Gemini.db c = false ->
        (forall title mermaid_diagram,
           save_roadmap S title mermaid_diagram (c, st) = (Value Null, (c, st)))
        /\ get_roadmaps S (c, st) = (Value [], (c, st))
        /\ (forall item_id completed,
              update_item_progress S item_id completed (c, st)
              = (Value false, (c, st)))
        /\ (forall roadmap_id,
              get_roadmap_progress S roadmap_id (c, st)
              = (Value no_progress, (c, st)))).
Proof.
  intros c st. split; [|split; [|split; [|split; [|split]]]].
  - unfold reset_conversation, bind, self, when, update, db_call, ret.
    cbn [fst snd].
    destruct (Gemini.use_database c && Gemini.db c
              && Gemini.truthy (Gemini.current_conversation_id c)).
    + destruct (clear_conversation_returns S
                  (Gemini.the (Gemini.current_conversation_id c)) st) as [b [st' R]].
      cbn [fst snd]. rewrite R. cbn [fst snd]. eauto.
    + eauto.
  - intros title mermaid_diagram. unfold save_roadmap, bind at 1, self. cbn [fst snd].
    destruct (negb (Gemini.use_database c) || negb (Gemini.db c)
              || negb (Gemini.truthy (Gemini.current_conversation_id c)));
      [unfold ret; eauto|].
    unfold try_except, bind, db_call, ret. cbn [fst snd].
    match goal with
    | |- context [SupabaseDB.save_roadmap S ?a ?b ?d ?i st] =>
        destruct (save_roadmap_returns S a b d i st) as [v [st' R]]
    end.
    rewrite R. cbn [fst snd]. eauto.
  - unfold get_roadmaps, bind, self. cbn [fst snd].
    destruct (negb (Gemini.use_database c) || negb (Gemini.db c)
              || negb (Gemini.truthy (Gemini.current_conversation_id c)));
      [unfold ret; eauto|].
    unfold db_call. cbn [fst snd].
    match goal with
    | |- context [SupabaseDB.get_roadmaps S ?a st] =>
        destruct (get_roadmaps_returns S a st) as [v [st' R]]
    end.
    rewrite R. cbn [fst snd]. eauto.
  - intros item_id completed. unfold update_item_progress, bind, self. cbn [fst snd].
    destruct (negb (Gemini.use_database c) || negb (Gemini.db c));
      [unfold ret; eauto|].
    unfold db_call. cbn [fst snd].
    destruct (update_item_progress_returns S item_id completed st) as [v [st' R]].
    rewrite R. cbn [fst snd]. eauto.
  - intros roadmap_id. unfold get_roadmap_progress, bind, self. cbn [fst snd].
    destruct (negb (Gemini.use_database c) || negb (Gemini.db c));
      [unfold ret; eauto|].
    unfold db_call. cbn [fst snd].
    destruct (get_roadmap_progress_returns S roadmap_id st) as [v [st' R]].
    rewrite R. cbn [fst snd]. eauto.
  - intros Hdb.
    assert (G : negb (Gemini.use_database c) || negb (Gemini.db c) = true)
      by (destruct (Gemini.use_database c), (Gemini.db c); try reflexivity;
          discriminate Hdb).
    repeat split; intros;
      unfold save_roadmap, get_roadmaps, update_item_progress, get_roadmap_progress,
        bind, self;
      cbn [fst snd]; rewrite G; reflexivity.
Qed.

End Roadmaps.

(** A client in the conversation "c1". *)
Definition talking_client : Gemini.client :=
  {| Gemini.system_prompt := py "SYS";
     Gemini.conversation_history := [];
     Gemini.use_database := true;
     Gemini.db := true;
     Gemini.current_conversation_id := Some (py "c1") |}.

Lemma roadmap_items_are_the_parsed_nodes_witness :
  SupabaseDB.requests
    (snd (snd (GeminiClient.save_roadmap (U := ascii_only) sample_store
                 (py "Rust") (py "A[Learn] --> B[ Build ]") (talking_client, fresh))))
  = [new_roadmap sample_store (py "c1") (py "Rust") (py "A[Learn] --> B[ Build ]") fresh;
     SupabaseDB.InsertRows SupabaseDB.roadmap_items_table
       [node_record (SupabaseDB.Text (py "r1"))
          {| Gemini.id := py "A"; Gemini.item_title := py "Learn";
             Gemini.description := py "Complete: Learn" |};
        node_record (SupabaseDB.Text (py "r1"))
          {| Gemini.id := py "B"; Gemini.item_title := py "Build";
             Gemini.description := py "Complete: Build" |}]].
Proof.
  destruct (roadmap_items_are_the_parsed_nodes (U := ascii_only) sample_store
              (py "Rust") (py "A[Learn] --> B[ Build ]") talking_client fresh
              [[(py "id", SupabaseDB.Text (py "r1"))]] eq_refl eq_refl
              ltac:(discriminate)) as [_ [R _]].
  rewrite R. reflexivity.
Defined.

Lemma roadmap_methods_return_witness :
  GeminiClient.save_roadmap (U := ascii_only) sample_store (py "Rust") (py "A[Learn]")
    (offline_client, fresh)
  = (SupabaseDB.Value SupabaseDB.Null, (offline_client, fresh))
  /\ GeminiClient.get_roadmaps sample_store (offline_client, fresh)
     = (SupabaseDB.Value [], (offline_client, fresh)).
Proof.
  destruct (roadmap_methods_return (U := ascii_only) sample_store offline_client fresh)
    as [_ [_ [_ [_ [_ H]]]]].
  destruct (H eq_refl) as [Hs [Hg _]]. split; [apply Hs | exact Hg].
Defined.

(** ** What is displayed *)

Lemma Forall_firstn_str (P : N -> Prop) (n : nat) (s : str) :
  Forall P s -> Forall P (firstn n s).
Proof.
  revert s. induction n as [|n IH]; intros s H; [constructor|].
  destruct s as [|c s]; [constructor|]. inversion H; subst.
  cbn [firstn]. constructor; [assumption | now apply IH].
Qed.

(** The groups of a match are made of code points of the subject. *)
Lemma rmatch_keeps (P : N -> Prop) (n : nat) (r : regex) (st st' : mstate) :
  In st' (rmatch n r st) ->
  Forall P (fst st) -> Forall (fun ig => Forall P (snd ig)) (snd st) ->
  Forall P (fst st') /\ Forall (fun ig => Forall P (snd ig)) (snd st').
Proof.
  revert st st'.
  induction r as [|p|r1 IH1 r2 IH2|r1 IH1 r2 IH2|gr min p|r1 IH1|i r1 IH1| | |r1 IH1];
    intros [s g] st' Hin Hs Hg; cbn [rmatch fst snd] in *.
  - destruct Hin as [<- | []]. now split.
  - destruct s as [|c s]; [destruct Hin|]. destruct (p c); [|destruct Hin].
    destruct Hin as [<- | []]. inversion Hs; subst. now split.
  - apply in_flat_map in Hin as [st1 [H1 H2]].
    destruct (IH1 _ _ H1 Hs Hg) as [Hs1 Hg1]. exact (IH2 _ _ H2 Hs1 Hg1).
  - apply in_app_iff in Hin as [H | H]; [exact (IH1 _ _ H Hs Hg) | exact (IH2 _ _ H Hs Hg)].
  - apply in_map_iff in Hin as [s' [<- H]]. cbn [fst snd]. split; [|exact Hg].
    destruct gr.
    + destruct (rep_greedy_suffix _ _ _ _ H) as [m [E _]]. rewrite E in Hs.
      now apply Forall_app in Hs.
    + destruct (rep_lazy_suffix _ _ _ _ H) as [m [E _]]. rewrite E in Hs.
      now apply Forall_app in Hs.
  - apply in_app_iff in Hin as [H | [<- | []]]; [exact (IH1 _ _ H Hs Hg) | now split].
  - apply in_map_iff in Hin as [st1 [<- H]]. cbn [fst snd].
    destruct (IH1 _ _ H Hs Hg) as [Hs1 Hg1]. split; [exact Hs1|].
    constructor; [|exact Hg1]. cbn [snd]. now apply Forall_firstn_str.
  - destruct (Nat.eqb (length s) n); [|destruct Hin]. destruct Hin as [<- | []]. now split.
  - destruct s as [|c s]; [destruct Hin as [<- | []]; now split|].
    destruct s; [|destruct Hin]. destruct (c =? 10); [|destruct Hin].
    destruct Hin as [<- | []]. now split.
  - destruct (rmatch n r1 (s, g)); [destruct Hin|]. destruct Hin as [<- | []]. now split.
Qed.

Lemma Forall_group (P : N -> Prop) (i : nat) (g : captures) :
  Forall (fun ig => Forall P (snd ig)) g -> Forall P (group i g).
Proof.
  induction 1 as [|[j v] g Hv _ IH]; cbn [group]; [constructor|].
  destruct (Nat.eqb i j); [exact Hv | exact IH].
Qed.

(** What [re.findall] returns is made of code points of the subject. *)
Lemma Forall_hits_scan (P : N -> Prop) (n : nat) (r : regex) (s : str) :
  Forall P s ->
  Forall (fun h => Forall P (fst h) /\ Forall (fun ig => Forall P (snd ig)) (snd h))
         (hits (scan n r 0 s)).
Proof.
  intros Hs. apply Forall_forall. intros [m g] Hin.
  apply in_hits_scan in Hin as [a [rest [E Hin]]].
  rewrite E in Hs. apply Forall_app in Hs as [_ Hs].
  destruct (rmatch_keeps P n r _ _ Hin Hs (Forall_nil _)) as [_ Hg].
  cbn [fst snd] in *. split; [now apply Forall_app in Hs | exact Hg].
Qed.

Lemma Forall_findall1 (P : N -> Prop) (r : regex) (s : str) :
  Forall P s -> Forall (Forall P) (findall1 r s).
Proof.
  intros Hs. unfold findall1. apply Forall_map.
  eapply Forall_impl; [|exact (Forall_hits_scan P (length s) r s Hs)].
  intros h [_ Hg]. now apply Forall_group.
Qed.

Lemma Forall_findall0 (P : N -> Prop) (r : regex) (s : str) :
  Forall P s -> Forall (Forall P) (findall0 r s).
Proof.
  intros Hs. unfold findall0. apply Forall_map.
  eapply Forall_impl; [|exact (Forall_hits_scan P (length s) r s Hs)].
  intros h [Hm _]. exact Hm.
Qed.

Section Shown.
Context {U : Unicode} (S : Page.streamlit).
Import Front Page.

(** The candidates are made of code points of the response. *)
Lemma Forall_extract_mermaid_diagrams (P : N -> Prop) (text : str) :
  Forall P text -> Forall (Forall P) (extract_mermaid_diagrams text).
Proof.
  intros H. rewrite extract_mermaid_diagrams_cascade.
  assert (Strip : forall l, Forall (Forall P) l -> Forall (Forall P) (map py_strip l)).
  { intros l Hl. apply Forall_map. eapply Forall_impl; [|exact Hl].
    intros d. apply Forall_py_strip. }
  assert (Filter : forall (f : str -> bool) l,
             Forall (Forall P) l -> Forall (Forall P) (filter f l)).
  { intros f l Hl. apply Forall_forall. intros d Hd. apply filter_In in Hd as [Hd _].
    rewrite Forall_forall in Hl. now apply Hl. }
  assert (S1 : Forall (Forall P) (strategy1 text))
    by (apply Strip, Filter, Forall_findall1, H).
  assert (S2 : Forall (Forall P) (strategy2 text)).
  { apply Filter, Filter, Strip, Forall_app. split; apply Forall_findall1, H. }
  assert (S3 : Forall (Forall P) (strategy3 text))
    by (apply Filter, Strip, Forall_findall0, H).
  destruct (strategy1 text); [|exact S1].
  destruct (strategy2 text); [exact S3 | exact S2].
Qed.

(** A candidate that is not empty, made of ASCII code points, curly quotes
    and no-break spaces, is given a text that is not empty. *)
Lemma validate_plain (d : str) :
  d <> [] -> plain_str d ->
  exists clean, validate_and_clean_mermaid d = Some clean /\ clean <> [].
Proof.
  intros Hd Hp. unfold validate_and_clean_mermaid.
  destruct d as [|c d]; [contradiction|]. cbn [is_empty].
  eexists. split; [reflexivity|].
  pose proof (clean_body_ascii _ Hp) as A.
  destruct (ensure_header_has_header _ A) as [A1 H1].
  destruct (add_class_defs_has_header (py_lower (clean_body (c :: d))) _ A1 H1)
    as [_ H2].
  intros E. rewrite E in H2. discriminate.
Qed.

(** The line and the title shown above a diagram. *)
Definition diagram_heading : list widget :=
  [Markdown rule; Subheader ([128202] ++ py " Study Roadmap Diagram")].

(** The text shown before the diagram, if any. *)
Definition shown_text (message : str) : list widget :=
  if negb (is_empty (remove_mermaid_blocks message))
  then [Markdown (remove_mermaid_blocks message)] else [].

(** X19.  For a response made of ASCII code points, curly quotes and
    no-break spaces in which the extractor finds a candidate, the message
    "Could not parse Mermaid diagram" is never shown: the first candidate is
    given a text that is not empty, and [display_message] shows the text of
    the response without its blocks (when not empty), a rule and the title,
    the rendering of that text, and a rule.  The candidates that follow the
    first are not shown.  The page given to [components.html] holds the text
    of the diagram as it is. *)
Theorem plain_response_diagram_is_rendered :
  forall (message : str) (p : page) (d : str) (ds : list str),
    plain_str message ->
    extract_mermaid_diagrams message = d :: ds ->
    exists clean h rest,
      validate_and_clean_mermaid d = Some clean /\ clean <> []
      /\ display_message S message p
         = {| last_raw_response := Some message;
              screen := screen p ++ shown_text message ++ diagram_heading
                        ++ render S clean ++ [Markdown rule] |}
      /\ render S clean = Html h 420 true :: rest
      /\ py_in clean h = true.
Proof.
  intros message p d ds Hp He.
  pose proof (extracted_candidates_nonempty message) as Hne.
  pose proof (Forall_extract_mermaid_diagrams _ message Hp) as Hpl.
  rewrite He in Hne, Hpl. inversion Hne; subst. inversion Hpl; subst.
  destruct (validate_plain d) as [clean [Hv Hc]]; [assumption | assumption|].
  set (wrapper_id := (py "mermaid_" ++ Gemini.str_of_nat (time_ms S)) ++ py "_wrap").
  exists clean,
    (html_head ++ wrapper_id ++ html_open ++ clean
     ++ html_script ++ wrapper_id ++ html_tail),
    (tl (render S clean)).
  split; [exact Hv|]. split; [exact Hc|]. split; [|split].
  - unfold display_message. rewrite He, Hv. cbn [Gemini.truthy Gemini.the].
    destruct clean as [|c clean]; [contradiction|]. cbn [is_empty negb].
    reflexivity.
  - unfold render. cbv zeta. cbn [tl]. reflexivity.
  - apply py_in_spec.
    exists (html_head ++ wrapper_id ++ html_open), (html_script ++ wrapper_id ++ html_tail).
    now rewrite <- !app_assoc.
Qed.

(** X20.  A response that holds neither two fences of backticks, nor two
    of tildes, nor a line that starts with flowchart or graph, is shown as
    its text, trimmed, and nothing else; a blank response shows nothing. *)
Theorem response_without_diagram_is_shown_as_text :
  forall (message : str) (p : page),
    has_two fence message = false -> has_two tildes message = false ->
    keyword_line message = false ->
    display_message S message p
    = {| last_raw_response := Some message;
         screen := screen p
                   ++ (if is_empty (py_strip message) then []
                       else [Markdown (py_strip message)]) |}.
Proof.
  intros message p Hf Ht Hk. unfold display_message.
  rewrite (extract_nothing message Hf Ht Hk).
  unfold remove_mermaid_blocks.
  destruct (sub_without_fences message Hf) as [H1 H2]. rewrite H1, H2.
  rewrite app_nil_r. now destruct (py_strip message).
Qed.

End Shown.

(** A Streamlit in which the page of the diagram is rendered, and a page
    on which nothing is shown yet. *)
Definition sample_streamlit : Page.streamlit :=
  {| Page.time_ms := 42;
     Page.components_html := fun _ _ _ => None;
     Page.st_mermaid := fun _ _ _ => None |}.

Definition blank_page : Page.page :=
  {| Page.last_raw_response := None; Page.screen := [] |}.

Lemma plain_response_diagram_is_rendered_witness :
  exists clean h rest,
    Front.validate_and_clean_mermaid (U := ascii_only)
      (py "flowchart TD\nA[Basics] --> B[Project]") = Some clean
    /\ clean <> []
    /\ Page.display_message (U := ascii_only) sample_streamlit
         (document sample_response (py "\nStart with `A`.\n")) blank_page
       = {| Page.last_raw_response :=
              Some (document sample_response (py "\nStart with `A`.\n"));
            Page.screen :=
              Page.screen blank_page
              ++ shown_text (document sample_response (py "\nStart with `A`.\n"))
              ++ diagram_heading
              ++ Page.render sample_streamlit clean ++ [Page.Markdown Page.rule] |}
    /\ Page.render sample_streamlit clean = Page.Html h 420 true :: rest
    /\ py_in clean h = true.
Proof.
  apply (plain_response_diagram_is_rendered (U := ascii_only) sample_streamlit
           (document sample_response (py "\nStart with `A`.\n")) blank_page
           (py "flowchart TD\nA[Basics] --> B[Project]") []).
  - apply Forall_forall. intros c Hc.
    assert (F : forallb plain (document sample_response (py "\nStart with `A`.\n")) = true)
      by reflexivity.
    rewrite forallb_forall in F. exact (F c Hc).
  - vm_compute. reflexivity.
Defined.

Lemma response_without_diagram_is_shown_as_text_witness :
  Page.display_message (U := ascii_only) sample_streamlit (py "  Keep going!\n") blank_page
  = {| Page.last_raw_response := Some (py "  Keep going!\n");
       Page.screen := [Page.Markdown (py "Keep going!")] |}.
Proof.
  rewrite (response_without_diagram_is_shown_as_text (U := ascii_only) sample_streamlit
             (py "  Keep going!\n") blank_page); reflexivity.
Defined.
